(** * Commission engine of the MLM platform: shallow embedding and properties

    The development follows these source units:
    - [server/lib/monoline-commission-service.ts] (class
      [MonolineCommissionService]): the fixed-amount monoline engine, the
      activity evaluator, the passive-pool split, the network statistics
      and the simulation of a sale;
    - the class [CommissionService]: the commissions of a package
      purchase and their application to the wallets;
    - [server/lib/utils.ts]: the balance of the two legs and the slugs;
    - [server/lib/mlm-database.ts] (class [MLMDatabase]): the member store,
      the classic percentage engine, the tree statistics, the binary
      placement search and the manual placement;
    - [shared/mlm-types.ts]: the record types and the career table;
    - the route handlers for a transfer between members, for a monoline
      sale and for the distribution of the passive income pool.

    Modelling conventions.
    - A JavaScript [number] that is stored or handed on is a rational
      ([Q]); [NaN] and the infinities are outside the model.  An amount
      is stated the way the code computes it, with the same operations
      in the same order.  The leg scores of the binary placement, which
      decide a branch, are computed in binary64 ([PrimFloat.float]),
      from the stored figures converted by [numberOf].
    - An optional field ([sponsorId?: string]) is an [option]; JavaScript
      truthiness is written out ([truthy_num], [truthy_str]).
    - The store is threaded explicitly as a value.  With the file-backed
      adapter that [init] installs, every [db.read()] parses the file
      again, so a record fetched earlier is a copy; with the in-memory
      store [init] falls back to, such a record shares its wallet object
      with the store.  The classic engine, which writes to records it
      holds, takes the adapter as a parameter ([Adapter], [walletSeen]).
    - Awaited calls take effect one after the other, in program order.
      The store calls that the callback of [distributeBinaryCommissions]
      starts without awaiting them are recorded as started
      ([StartedCommission]); they run interleaved with whatever follows,
      and a run that has started one has no final store in the model
      ([unsettled]).
    - Identifiers drawn from the clock or from [Math.random] (the [id],
      [saleId] and [createdAt] of a transaction) are left out of the
      records. *)

From Stdlib Require Import QArith Qabs Qround ZArith String List Bool Arith Lia.
From Stdlib Require Import Permutation Sorted Lqa.
From Stdlib Require Floats.
From Equations Require Import Equations.
Import ListNotations.
Open Scope Q_scope.

(** ** JavaScript values *)

Definition truthy_num (x : Q) : bool := negb (Qeq_bool x 0).

Definition truthy_str (s : string) : bool :=
  match s with EmptyString => false | String _ _ => true end.

(** [o] used as a condition, for an optional string field. *)
Definition truthy_ostr (o : option string) : bool :=
  match o with Some s => truthy_str s | None => false end.

(** [a || b] where [a] is a possibly undefined number. *)
Definition or_num (a : option Q) (b : Q) : Q :=
  match a with
  | Some x => if truthy_num x then x else b
  | None => b
  end.

(** The value of a possibly undefined number, with [undefined] read as 0. *)
Definition valueOr0 (o : option Q) : Q :=
  match o with Some x => x | None => 0 end.

(** [a >= b] on numbers. *)
Definition geq (a b : Q) : bool := Qle_bool b a.

(** A count used as a number. *)
Definition ofNat (n : nat) : Q := inject_Z (Z.of_nat n).

(** The binary64 nearest to an integer (ties to even). *)
Definition numberOfZ (z : Z) : PrimFloat.float :=
  FloatOps.SF2Prim
    (SpecFloat.binary_normalize FloatOps.prec FloatOps.emax z 0 false).

(** A count as a binary64. *)
Definition numberOfNat (n : nat) : PrimFloat.float :=
  numberOfZ (Z.of_nat n).

(** A stored figure as a binary64: the quotient of numerator and
    denominator, which is the binary64 nearest to the figure, as
    [JSON.parse] gives it, when both are below 2^53. *)
Definition numberOf (q : Q) : PrimFloat.float :=
  PrimFloat.div (numberOfZ (Qnum q)) (numberOfZ (Zpos (Qden q))).

(** Outcome of a call that may throw. *)
Inductive Completion (A : Type) : Type :=
| Return (a : A)
| Throw (message : string).
Arguments Return {A} a.
Arguments Throw {A} message.

(** ** shared/mlm-types.ts *)

Record CareerLevel := {
  cl_id : Z;
  cl_name : string;
  commissionRate : Q;
  passiveIncomeRate : Q
}.

Record Wallet := {
  balance : Q;
  totalEarnings : Q;
  sponsorBonus : Q;
  careerBonus : Q;
  passiveIncome : Q;
  leadershipBonus : Q
}.

Record User := {
  id : string;
  memberId : string;
  email : string;
  sponsorId : option string;
  leftChild : option string;
  rightChild : option string;
  isActive : bool;
  careerLevel : CareerLevel;
  totalInvestment : Q;
  wallet : Wallet;
  monthlySalesVolume : option Q;
  annualSalesVolume : option Q
}.

(** [users.find(u => u.id === wanted)] *)
Definition findById (users : list User) (wanted : string) : option User :=
  find (fun u => String.eqb (id u) wanted) users.

(** ** MonolineCommissionService *)

Module MonolineCommissionService.

Record LevelAmount := { percentage : Q; amount : Q }.

Record DepthCommissions := {
  level1 : LevelAmount; level2 : LevelAmount; level3 : LevelAmount;
  level4 : LevelAmount; level5 : LevelAmount; level6 : LevelAmount;
  level7 : LevelAmount;
  totalPercentage : Q;
  totalAmount : Q
}.

Record MonolineCommissionStructure := {
  productPrice : Q;
  directSponsorBonus : LevelAmount;
  depthCommissions : DepthCommissions;
  passiveIncomePool : LevelAmount;
  companyFund : LevelAmount
}.

Definition getDefaultCommissionStructure : MonolineCommissionStructure :=
  {| productPrice := 20;
     directSponsorBonus := {| percentage := 15; amount := 3 |};
     depthCommissions :=
       {| level1 := {| percentage := 125 # 10; amount := 250 # 100 |};
          level2 := {| percentage := 75 # 10; amount := 150 # 100 |};
          level3 := {| percentage := 5; amount := 1 |};
          level4 := {| percentage := 35 # 10; amount := 70 # 100 |};
          level5 := {| percentage := 25 # 10; amount := 50 # 100 |};
          level6 := {| percentage := 2; amount := 40 # 100 |};
          level7 := {| percentage := 15 # 10; amount := 30 # 100 |};
          totalPercentage := 395 # 10;
          totalAmount := 790 # 100 |};
     passiveIncomePool := {| percentage := 5 # 10; amount := 10 # 100 |};
     companyFund := {| percentage := 45; amount := 9 |} |}.

Record Requirement := { minimumAmount : Q; minimumUnits : Z }.

Record MembershipRequirements := {
  initialPurchase : Requirement;
  monthlyActivity : Requirement;
  annualActivity : Requirement
}.

Definition getMembershipRequirements : MembershipRequirements :=
  {| initialPurchase := {| minimumAmount := 100; minimumUnits := 5 |};
     monthlyActivity := {| minimumAmount := 20; minimumUnits := 1 |};
     annualActivity := {| minimumAmount := 200; minimumUnits := 10 |} |}.

Record SalesData := { monthlySales : Q; annualSales : Q }.

Record ActivityCheck := {
  isMonthlyActive : bool;
  isAnnuallyActive : bool;
  isFullyActive : bool;
  hasInitialPurchase : bool
}.

(** The sales figures the evaluator compares:
    [salesData?.monthlySales || user.monthlySalesVolume || 0] and its
    annual and lifetime siblings. *)
Definition monthlyOf (user : User) (salesData : option SalesData) : Q :=
  or_num (option_map monthlySales salesData)
         (or_num (monthlySalesVolume user) 0).

Definition annualOf (user : User) (salesData : option SalesData) : Q :=
  or_num (option_map annualSales salesData)
         (or_num (annualSalesVolume user) 0).

Definition initialOf (user : User) : Q :=
  or_num (Some (totalInvestment user)) 0.

(** Body of [checkUserActivity] once [requirements] is bound. *)
Definition checkUserActivityWith (requirements : MembershipRequirements)
    (user : User) (salesData : option SalesData) : ActivityCheck :=
  let monthly := monthlyOf user salesData in
  let annual := annualOf user salesData in
  let initial := initialOf user in
  let isMonthlyActive :=
    geq monthly (minimumAmount (monthlyActivity requirements)) in
  let isAnnuallyActive :=
    geq annual (minimumAmount (annualActivity requirements)) in
  let hasInitialPurchase :=
    geq initial (minimumAmount (initialPurchase requirements)) in
  let isFullyActive :=
    isMonthlyActive && isAnnuallyActive && hasInitialPurchase in
  {| isMonthlyActive := isMonthlyActive;
     isAnnuallyActive := isAnnuallyActive;
     isFullyActive := isFullyActive;
     hasInitialPurchase := hasInitialPurchase |}.

Definition checkUserActivity (user : User) (salesData : option SalesData)
  : ActivityCheck :=
  checkUserActivityWith getMembershipRequirements user salesData.

Inductive CommissionType :=
| direct_sponsor
| depth_level (n : nat)
| passive_income
| company_fund.

Inductive TxStatus := pending | processed | failed.

Record MonolineCommissionTransaction := {
  buyerId : string;
  tx_productPrice : Q;
  commissionType : CommissionType;
  recipientId : string;
  level : option nat;
  tx_percentage : Q;
  tx_amount : Q;
  status : TxStatus
}.

Record CommissionResult := {
  transactions : list MonolineCommissionTransaction;
  passivePoolAmount : Q;
  companyFundAmount : Q;
  totalDistributed : Q;
  inactiveCommissionsToCompany : Q
}.

(** The [for] loop of [getUplineChain]: one iteration per unit of
    [maxLevels], leaving at the first missing link. *)
Fixpoint getUplineChain (user : User) (allUsers : list User)
    (maxLevels : nat) : list User :=
  match maxLevels with
  | O => []
  | S more =>
      match sponsorId user with
      | Some sid =>
          if truthy_str sid then
            match findById allUsers sid with
            | Some sponsor => sponsor :: getUplineChain sponsor allUsers more
            | None => []
            end
          else []
      | None => []
      end
  end.

Definition depthLevels (structure : MonolineCommissionStructure)
  : list (nat * LevelAmount) :=
  let d := depthCommissions structure in
  [ (1%nat, level1 d); (2%nat, level2 d); (3%nat, level3 d);
    (4%nat, level4 d); (5%nat, level5 d); (6%nat, level6 d);
    (7%nat, level7 d) ].

(** One call of the [forEach] callback: the pair carries the
    [transactions] array and [inactiveCommissionsToCompany]. *)
Definition depthStep (structure : MonolineCommissionStructure)
    (buyer : string) (price : Q)
    (acc : list MonolineCommissionTransaction * Q)
    (entry : nat * User) : list MonolineCommissionTransaction * Q :=
  let '(index, uplineUser) := entry in
  match nth_error (depthLevels structure) index with
  | Some (lvl, levelBonus) =>
      let activityCheck := checkUserActivity uplineUser None in
      if isFullyActive activityCheck then
        (fst acc ++
           [ {| buyerId := buyer;
                tx_productPrice := price;
                commissionType := depth_level lvl;
                recipientId := id uplineUser;
                level := Some lvl;
                tx_percentage := percentage levelBonus;
                tx_amount := amount levelBonus;
                status := pending |} ],
         snd acc)
      else (fst acc, snd acc + amount levelBonus)
  | None => acc
  end.

(** [xs.map((x, index) => ...)] / [forEach]: elements with their index. *)
Definition indexed {A : Type} (xs : list A) : list (nat * A) :=
  combine (seq 0 (length xs)) xs.

(** [transactions.reduce((sum, t) => sum + t.amount, 0)] *)
Definition sumAmounts (txs : list MonolineCommissionTransaction) : Q :=
  fold_left (fun sum t => sum + tx_amount t) txs 0.

Definition sponsorTransactions (structure : MonolineCommissionStructure)
    (buyer : User) (buyerId' : string) (price : Q) (allUsers : list User)
  : list MonolineCommissionTransaction :=
  match sponsorId buyer with
  | Some sid =>
      if truthy_str sid then
        match findById allUsers sid with
        | Some sponsor =>
            [ {| buyerId := buyerId';
                 tx_productPrice := price;
                 commissionType := direct_sponsor;
                 recipientId := id sponsor;
                 level := None;
                 tx_percentage := percentage (directSponsorBonus structure);
                 tx_amount := amount (directSponsorBonus structure);
                 status := pending |} ]
        | None => []
        end
      else []
  | None => []
  end.

Definition calculateMonolineCommissions (buyerId' : string)
    (productPrice' : option Q) (allUsers : list User)
    (commissionStructure : option MonolineCommissionStructure)
  : Completion CommissionResult :=
  let price := match productPrice' with Some p => p | None => 20 end in
  let structure :=
    match commissionStructure with
    | Some s => s
    | None => getDefaultCommissionStructure
    end in
  match findById allUsers buyerId' with
  | None => Throw "Buyer not found"
  | Some buyer =>
      let transactions0 :=
        sponsorTransactions structure buyer buyerId' price allUsers in
      let uplineChain := getUplineChain buyer allUsers 7 in
      let '(transactions1, inactive) :=
        fold_left (depthStep structure buyerId' price)
                  (indexed uplineChain) (transactions0, 0) in
      let passivePoolAmount := amount (passiveIncomePool structure) in
      let companyFundAmount := amount (companyFund structure) + inactive in
      let totalDistributed := sumAmounts transactions1 in
      Return {| transactions := transactions1;
                passivePoolAmount := passivePoolAmount;
                companyFundAmount := companyFundAmount;
                totalDistributed := totalDistributed;
                inactiveCommissionsToCompany := inactive |}
  end.

Inductive RecipientStatus := r_pending | r_distributed | r_failed.

Record Recipient := {
  r_userId : string;
  r_memberId : string;
  r_amount : Q;
  r_status : RecipientStatus
}.

Record PassiveIncomeDistribution := {
  totalPool : Q;
  activeMembers : nat;
  amountPerMember : Q;
  recipients : list Recipient
}.

Definition calculatePassiveIncomeDistribution (totalPoolAmount : Q)
    (allUsers : list User) : PassiveIncomeDistribution :=
  let activeUsers :=
    filter (fun user => isFullyActive (checkUserActivity user None))
           allUsers in
  let activeMembers := length activeUsers in
  let amountPerMember :=
    if (0 <? activeMembers)%nat
    then totalPoolAmount / inject_Z (Z.of_nat activeMembers)
    else 0 in
  {| totalPool := totalPoolAmount;
     activeMembers := activeMembers;
     amountPerMember := amountPerMember;
     recipients :=
       map (fun user => {| r_userId := id user;
                           r_memberId := memberId user;
                           r_amount := amountPerMember;
                           r_status := r_pending |}) activeUsers |}.

Definition isDepthLevel (c : CommissionType) : bool :=
  match c with depth_level _ => true | _ => false end.

Definition isDirectSponsor (c : CommissionType) : bool :=
  match c with direct_sponsor => true | _ => false end.

Definition isPassiveIncome (c : CommissionType) : bool :=
  match c with passive_income => true | _ => false end.

(** Returns the recipient with the amount added to the wallet; nothing
    is read from or written to the transaction's status. *)
Definition processCommissionTransaction
    (transaction : MonolineCommissionTransaction) (recipient : User)
  : User :=
  let w := wallet recipient in
  let a := tx_amount transaction in
  let c := commissionType transaction in
  {| id := id recipient;
     memberId := memberId recipient;
     email := email recipient;
     sponsorId := sponsorId recipient;
     leftChild := leftChild recipient;
     rightChild := rightChild recipient;
     isActive := isActive recipient;
     careerLevel := careerLevel recipient;
     totalInvestment := totalInvestment recipient;
     wallet :=
       {| balance := balance w + a;
          totalEarnings := totalEarnings w + a;
          sponsorBonus :=
            if isDirectSponsor c then sponsorBonus w + a
            else sponsorBonus w;
          careerBonus :=
            if isDepthLevel c then careerBonus w + a else careerBonus w;
          passiveIncome :=
            if isPassiveIncome c then passiveIncome w + a
            else passiveIncome w;
          leadershipBonus := leadershipBonus w |};
     monthlySalesVolume := monthlySalesVolume recipient;
     annualSalesVolume := annualSalesVolume recipient |}.

(** *** Membership validation, network statistics, simulation *)

(** The [message] of [validateInitialMembership]: the fixed text, or the
    text built from the required amount and units. *)
Inductive MembershipMessage :=
| requirement_met
| minimum_required (requiredAmount' : Q) (requiredUnits : Z).

Record MembershipValidation := {
  isValid : bool;
  requiredAmount : Q;
  validationMessage : MembershipMessage
}.

Definition validateInitialMembership (purchaseAmount : Q)
  : MembershipValidation :=
  let requirements := getMembershipRequirements in
  let isValid' :=
    geq purchaseAmount (minimumAmount (initialPurchase requirements)) in
  {| isValid := isValid';
     requiredAmount := minimumAmount (initialPurchase requirements);
     validationMessage :=
       if isValid' then requirement_met
       else minimum_required
              (minimumAmount (initialPurchase requirements))
              (minimumUnits (initialPurchase requirements)) |}.

(** The [while] loop of [calculateUserDepth]; [fuel] bounds its
    iterations, which the source does not, and [None] stands for a loop
    still running when it is spent. *)
Fixpoint calculateUserDepthFrom (fuel : nat) (depth : nat)
    (currentUser : User) (allUsers : list User) : option nat :=
  match fuel with
  | O => None
  | S f =>
      match sponsorId currentUser with
      | Some sid =>
          if truthy_str sid then
            match findById allUsers sid with
            | Some sponsor =>
                calculateUserDepthFrom f (S depth) sponsor allUsers
            | None => Some depth
            end
          else Some depth
      | None => Some depth
      end
  end.

Definition calculateUserDepth (fuel : nat) (user : User)
    (allUsers : list User) : option nat :=
  calculateUserDepthFrom fuel 0 user allUsers.

Inductive ActivityStatus :=
| status_fully_active
| status_monthly_active
| status_annually_active
| status_inactive.

(** An entry of [topPerformers]; [fullName] and [directReferrals], which
    are copied from the member, are left out. *)
Record Performer := {
  performerId : string;
  performerMemberId : string;
  performerMonthlyVolume : Q;
  performerAnnualVolume : Q;
  activityStatus : ActivityStatus
}.

(** The counters and sums the [forEach] of [getMonolineNetworkStats]
    updates. *)
Record Tally := {
  tallyActive : nat;
  tallyMonthly : nat;
  tallyAnnual : nat;
  tallyMonthlyVolume : Q;
  tallyAnnualVolume : Q
}.

Definition tallyStep (t : Tally) (user : User) : Tally :=
  let activity := checkUserActivity user None in
  {| tallyActive :=
       if isFullyActive activity then S (tallyActive t) else tallyActive t;
     tallyMonthly :=
       if isMonthlyActive activity then S (tallyMonthly t)
       else tallyMonthly t;
     tallyAnnual :=
       if isAnnuallyActive activity then S (tallyAnnual t)
       else tallyAnnual t;
     tallyMonthlyVolume :=
       tallyMonthlyVolume t + or_num (monthlySalesVolume user) 0;
     tallyAnnualVolume :=
       tallyAnnualVolume t + or_num (annualSalesVolume user) 0 |}.

Definition performerOf (u : User) : Performer :=
  let activity := checkUserActivity u None in
  {| performerId := id u;
     performerMemberId := memberId u;
     performerMonthlyVolume := or_num (monthlySalesVolume u) 0;
     performerAnnualVolume := or_num (annualSalesVolume u) 0;
     activityStatus :=
       if isFullyActive activity then status_fully_active
       else if isMonthlyActive activity then status_monthly_active
       else if isAnnuallyActive activity then status_annually_active
       else status_inactive |}.

(** [sort((a, b) => b.annualVolume - a.annualVolume)]: a stable sort by
    decreasing annual volume. *)
Fixpoint insertByVolume (x : Performer) (sorted : list Performer)
  : list Performer :=
  match sorted with
  | [] => [x]
  | y :: rest =>
      if Qle_bool (performerAnnualVolume y) (performerAnnualVolume x)
      then x :: y :: rest
      else y :: insertByVolume x rest
  end.

Definition sortByVolume (xs : list Performer) : list Performer :=
  fold_right insertByVolume [] xs.

Record NetworkStats := {
  totalMembers : nat;
  statsActiveMembers : nat;
  monthlyActiveMembers : nat;
  annuallyActiveMembers : nat;
  totalVolume : Q;
  monthlyVolume : Q;
  annualVolume : Q;
  avgDepth : option Q;
  statsPassiveIncomePool : Q;
  statsCompanyFund : Q;
  topPerformers : list Performer
}.

(** [mapF]: all the depths, when every loop has ended. *)
Fixpoint allDepths (fuel : nat) (users allUsers : list User)
  : option (list nat) :=
  match users with
  | [] => Some []
  | u :: rest =>
      match calculateUserDepth fuel u allUsers,
            allDepths fuel rest allUsers with
      | Some d, Some ds => Some (d :: ds)
      | _, _ => None
      end
  end.

(** [avgDepth] is [None] for the [NaN] that the division of 0 by 0
    gives on an empty directory. *)
Definition getMonolineNetworkStats (fuel : nat) (users : list User)
  : option NetworkStats :=
  let t :=
    fold_left tallyStep users
      {| tallyActive := 0; tallyMonthly := 0; tallyAnnual := 0;
         tallyMonthlyVolume := 0; tallyAnnualVolume := 0 |} in
  match allDepths fuel users users with
  | None => None
  | Some depths =>
      let total := fold_left (fun sum depth => sum + ofNat depth) depths 0 in
      let estimatedMonthlySales := tallyMonthlyVolume t / 20 in
      Some {| totalMembers := length users;
              statsActiveMembers := tallyActive t;
              monthlyActiveMembers := tallyMonthly t;
              annuallyActiveMembers := tallyAnnual t;
              totalVolume := tallyAnnualVolume t;
              monthlyVolume := tallyMonthlyVolume t;
              annualVolume := tallyAnnualVolume t;
              avgDepth :=
                match depths with
                | [] => None
                | _ :: _ => Some (total / ofNat (length depths))
                end;
              statsPassiveIncomePool := estimatedMonthlySales * (1 # 10);
              statsCompanyFund := estimatedMonthlySales * 9;
              topPerformers :=
                firstn 10 (sortByVolume (map performerOf users)) |}
  end.

(** [Array.from(new Set(xs))]: the first occurrence of every string. *)
Fixpoint distinct (seen xs : list string) : list string :=
  match xs with
  | [] => []
  | x :: rest =>
      if existsb (String.eqb x) seen then distinct seen rest
      else x :: distinct (x :: seen) rest
  end.

Record CommissionBreakdown := {
  breakdownDirectSponsor : Q;
  breakdownDepthCommissions : Q;
  breakdownPassivePool : Q;
  breakdownCompanyFund : Q
}.

(** The result of [simulateSalesTransaction] without its [summary] text. *)
Record Simulation := {
  saleAmount : Q;
  commissionBreakdown : CommissionBreakdown;
  affectedUsers : list string;
  companyRevenue : Q
}.

(** [for (let i = 0; i < productUnits; i++) total += x] *)
Fixpoint addTimes (units : nat) (total x : Q) : Q :=
  match units with
  | O => total
  | S fewer => addTimes fewer (total + x) x
  end.

(** The turns of [for (let i = 0; i < productUnits; i++)]: one for every
    [i = 0, 1, 2, ...] below [productUnits], which is any number. *)
Definition loopTurns (productUnits : Q) : nat :=
  Z.to_nat (Qceiling productUnits).

(** [productUnits] defaults to 1. *)
Definition simulateSalesTransaction (buyerId' : string)
    (productUnits : option Q) (allUsers : list User)
  : Completion Simulation :=
  let units := match productUnits with Some n => n | None => 1 end in
  let saleAmount' := units * 20 in
  match calculateMonolineCommissions buyerId' (Some 20) allUsers None with
  | Throw m => Throw m
  | Return commissionResults =>
      let totalCompanyFund :=
        addTimes (loopTurns units) 0 (companyFundAmount commissionResults) in
      Return
        {| saleAmount := saleAmount';
           commissionBreakdown :=
             {| breakdownDirectSponsor := units * 3;
                breakdownDepthCommissions := units * (79 # 10);
                breakdownPassivePool := units * (1 # 10);
                breakdownCompanyFund := totalCompanyFund |};
           affectedUsers :=
             distinct [] (map recipientId (transactions commissionResults));
           companyRevenue := totalCompanyFund |}
  end.

End MonolineCommissionService.

(** ** CommissionService *)

Module CommissionService.

Inductive CommissionKind :=
| kind_sponsor | kind_career | kind_leadership | kind_passive.

(** A [CommissionCalculation] without its [timestamp]. *)
Record CommissionCalculation := {
  commissionUserId : string;
  commissionKind : CommissionKind;
  commissionAmount : Q;
  commissionPercentage : Q;
  sourceUserId : string;
  sourcePackage : string;
  commissionLevel : nat
}.

Inductive BonusKind :=
| bonus_package | bonus_team | bonus_performance | bonus_monthly.

(** A [BonusCalculation] without its [details] text and [timestamp]. *)
Record BonusCalculation := {
  bonusUserId : string;
  bonusKind : BonusKind;
  bonusAmount : Q;
  bonusPercentage' : Q;
  sourceAmount : Q
}.

(** The fields of a [MembershipPackage] the calculation reads. *)
Record MembershipPackage := {
  packageId : string;
  price : Q;
  bonusPercentage : Q
}.

Fixpoint getSponsorChain (user : User) (allUsers : list User) (levels : nat)
  : list User :=
  match levels with
  | O => []
  | S more =>
      match sponsorId user with
      | Some sid =>
          if truthy_str sid then
            match findById allUsers sid with
            | Some sponsor => sponsor :: getSponsorChain sponsor allUsers more
            | None => []
            end
          else []
      | None => []
      end
  end.

Definition careerCommissionRates : list Q :=
  [ 5 # 100; 3 # 100; 2 # 100; 1 # 100; 1 # 100 ].

(** The entry pushed for the direct sponsor, when there is one. *)
Definition sponsorCommissions (purchasingUser : User)
    (membershipPackage : MembershipPackage) (allUsers : list User)
  : list CommissionCalculation :=
  match sponsorId purchasingUser with
  | Some sid =>
      if truthy_str sid then
        match findById allUsers sid with
        | Some sponsor =>
            [ {| commissionUserId := id sponsor;
                 commissionKind := kind_sponsor;
                 commissionAmount := price membershipPackage * (10 # 100);
                 commissionPercentage := 10;
                 sourceUserId := id purchasingUser;
                 sourcePackage := packageId membershipPackage;
                 commissionLevel := 1 |} ]
        | None => []
        end
      else []
  | None => []
  end.

(** One call of the [forEach] callback over the sponsor chain. *)
Definition careerStep (purchasingUser : User)
    (membershipPackage : MembershipPackage)
    (commissions : list CommissionCalculation) (entry : nat * User)
  : list CommissionCalculation :=
  let '(index, sponsor) := entry in
  match nth_error careerCommissionRates index with
  | Some rate =>
      commissions ++
        [ {| commissionUserId := id sponsor;
             commissionKind := kind_career;
             commissionAmount := price membershipPackage * rate;
             commissionPercentage := rate * 100;
             sourceUserId := id purchasingUser;
             sourcePackage := packageId membershipPackage;
             commissionLevel := index + 2 |} ]
  | None => commissions
  end.

Definition calculatePackagePurchaseCommissions (purchasingUser : User)
    (membershipPackage : MembershipPackage) (allUsers : list User)
  : list CommissionCalculation :=
  let packageAmount := price membershipPackage in
  let commissions0 :=
    sponsorCommissions purchasingUser membershipPackage allUsers in
  let sponsorChain := getSponsorChain purchasingUser allUsers 5 in
  let commissions1 :=
    fold_left (careerStep purchasingUser membershipPackage)
              (MonolineCommissionService.indexed sponsorChain) commissions0 in
  let packageBonus :=
    packageAmount * (bonusPercentage membershipPackage / 100) in
  commissions1 ++
    [ {| commissionUserId := id purchasingUser;
         commissionKind := kind_passive;
         commissionAmount := packageBonus;
         commissionPercentage := bonusPercentage membershipPackage;
         sourceUserId := id purchasingUser;
         sourcePackage := packageId membershipPackage;
         commissionLevel := 0 |} ].

(** [xs.reduce((sum, c) => sum + c.amount, 0)] *)
Definition sumCommissions (xs : list CommissionCalculation) : Q :=
  fold_left (fun sum c => sum + commissionAmount c) xs 0.

Definition sumBonuses (xs : list BonusCalculation) : Q :=
  fold_left (fun sum b => sum + bonusAmount b) xs 0.

Definition isKind (k : CommissionKind) (c : CommissionCalculation) : bool :=
  match k, commissionKind c with
  | kind_sponsor, kind_sponsor => true
  | kind_career, kind_career => true
  | kind_leadership, kind_leadership => true
  | kind_passive, kind_passive => true
  | _, _ => false
  end.

(** The body of the [map] callback of [applyCommissionsToWallet]. *)
Definition applyToUser (wanted : string)
    (commissions : list CommissionCalculation)
    (bonuses : list BonusCalculation) (user : User) : User :=
  if String.eqb (id user) wanted then
    let userCommissions :=
      filter (fun c => String.eqb (commissionUserId c) wanted) commissions in
    let userBonuses :=
      filter (fun b => String.eqb (bonusUserId b) wanted) bonuses in
    let totalCommissionAmount := sumCommissions userCommissions in
    let totalBonusAmount := sumBonuses userBonuses in
    let w := wallet user in
    {| id := id user; memberId := memberId user; email := email user;
       sponsorId := sponsorId user; leftChild := leftChild user;
       rightChild := rightChild user; isActive := isActive user;
       careerLevel := careerLevel user;
       totalInvestment := totalInvestment user;
       wallet :=
         {| balance := balance w + totalCommissionAmount + totalBonusAmount;
            totalEarnings :=
              totalEarnings w + totalCommissionAmount + totalBonusAmount;
            sponsorBonus :=
              sponsorBonus w
              + sumCommissions (filter (isKind kind_sponsor) userCommissions);
            careerBonus :=
              careerBonus w
              + sumCommissions (filter (isKind kind_career) userCommissions);
            passiveIncome :=
              passiveIncome w
              + sumCommissions (filter (isKind kind_passive) userCommissions);
            leadershipBonus := leadershipBonus w + totalBonusAmount |};
       monthlySalesVolume := monthlySalesVolume user;
       annualSalesVolume := annualSalesVolume user |}
  else user.

Definition applyCommissionsToWallet (wanted : string)
    (commissions : list CommissionCalculation)
    (bonuses : list BonusCalculation) (users : list User) : list User :=
  map (applyToUser wanted commissions bonuses) users.

End CommissionService.

(** ** Utilities ([server/lib/utils.ts]) *)

Module Utils.

Record BinaryBalance := {
  total : Q;
  balance : Q;
  balancePercentage : Q;
  isBalanced : bool
}.

Definition calculateBinaryBalance (leftCount rightCount : Q) : BinaryBalance :=
  let total' := leftCount + rightCount in
  let balance' := Qabs (leftCount - rightCount) in
  let balancePercentage' :=
    if negb (Qle_bool total' 0) then (balance' / total') * 100 else 0 in
  {| total := total';
     balance := balance';
     balancePercentage := balancePercentage';
     isBalanced := negb (Qle_bool 20 balancePercentage') |}.

(** A JavaScript string, as its UTF-16 code units. *)
Definition JsString := list N.

Definition hyphen : N := 45.

(** [s.replace(/c/g, d)] for single code units [c] and [d]. *)
Definition replaceUnit (c d : N) (s : JsString) : JsString :=
  map (fun x => if N.eqb x c then d else x) s.

(** The class [[a-z0-9]]. *)
Definition isSlugUnit (x : N) : bool :=
  ((97 <=? x) && (x <=? 122) || (48 <=? x) && (x <=? 57))%N.

(** [s.replace(/[^a-z0-9]/g, "-")] *)
Definition hyphenate (s : JsString) : JsString :=
  map (fun x => if isSlugUnit x then x else hyphen) s.

(** [s.replace(/-+/g, "-")] *)
Fixpoint collapseHyphens (s : JsString) : JsString :=
  match s with
  | [] => []
  | x :: rest =>
      if N.eqb x hyphen then
        match rest with
        | y :: _ =>
            if N.eqb y hyphen then collapseHyphens rest
            else x :: collapseHyphens rest
        | [] => [x]
        end
      else x :: collapseHyphens rest
  end.

(** [s.replace(/^-|-$/g, "")]: a hyphen at the start goes, then a hyphen
    at the end of what is left. *)
Definition dropLeadingHyphen (s : JsString) : JsString :=
  match s with
  | x :: rest => if N.eqb x hyphen then rest else s
  | [] => []
  end.

Fixpoint dropTrailingHyphen (s : JsString) : JsString :=
  match s with
  | [] => []
  | [x] => if N.eqb x hyphen then [] else [x]
  | x :: rest => x :: dropTrailingHyphen rest
  end.

Definition trimHyphens (s : JsString) : JsString :=
  dropTrailingHyphen (dropLeadingHyphen s).

Section Slug.

(** [String.prototype.toLowerCase], which is the engine's. *)
Variable toLowerCase : JsString -> JsString.

(** The six letters replaced are g-breve (287), u-umlaut (252),
    s-cedilla (351), dotless i (305), o-umlaut (246) and c-cedilla
    (231). *)
Definition generateSlug (text : JsString) : JsString :=
  trimHyphens
    (collapseHyphens
       (hyphenate
          (replaceUnit 231 99
             (replaceUnit 246 111
                (replaceUnit 305 105
                   (replaceUnit 351 115
                      (replaceUnit 252 117
                         (replaceUnit 287 103 (toLowerCase text))))))))).

End Slug.

End Utils.

(** ** Career table ([shared/mlm-types.ts]) *)

Module MlmTypes.

(** An entry of [CAREER_LEVELS]: the career record that members carry,
    with the fields that only the table is read for.  The texts
    [description] and [requirements] are left out. *)
Record CareerEntry := {
  career : CareerLevel;
  minInvestment : Q;
  minDirectReferrals : Q;
  bonus : Q
}.

Definition entry (n : Z) (name : string) (minInv minRef rate passive bonus' : Q)
  : CareerEntry :=
  {| career := {| cl_id := n; cl_name := name; commissionRate := rate;
                  passiveIncomeRate := passive |};
     minInvestment := minInv; minDirectReferrals := minRef;
     bonus := bonus' |}.

Definition entryLevel : CareerEntry := entry 1 "Nefs-i Emmare" 0 0 2 0 0.

Definition CAREER_LEVELS : list CareerEntry :=
  [ entryLevel;
    entry 2 "Nefs-i Levvame" 500 2 3 (5 # 10) 50;
    entry 3 "Nefs-i Mülhime" 1500 4 4 1 150;
    entry 4 "Nefs-i Mutmainne" 3000 10 5 (15 # 10) 300;
    entry 5 "Nefs-i Râziye" 5000 2 6 2 500;
    entry 6 "Nefs-i Mardiyye" 10000 50 8 3 1000;
    entry 7 "Nefs-i Kâmile" 25000 3 12 4 2500 ].

Definition meets (investment directReferrals : Q) (e : CareerEntry) : bool :=
  geq investment (minInvestment e)
  && geq directReferrals (minDirectReferrals e).

Definition getCareerLevel (investment directReferrals : Q) : CareerEntry :=
  fold_left
    (fun level careerLevel' =>
       if meets investment directReferrals careerLevel' then careerLevel'
       else level)
    CAREER_LEVELS entryLevel.

End MlmTypes.

(** ** MLMDatabase *)

Module MLMDatabase.

(** *** The store

    Only the collections the commission and placement code reads or
    writes are kept.  The transaction ledger is not modelled:
    [createTransaction] appears through its effect on the wallets.
    [ProductPurchase] has the fields [distributeProductCommissions] reads
    from its argument: [id], [userId], [sponsorId], [amount] and
    [commissionsDistributed]. *)

Record ProductPurchase := {
  pp_id : string;
  pp_userId : string;
  pp_sponsorId : option string;
  pp_amount : Q;
  commissionsDistributed : bool
}.

Record ProductCommission := {
  pc_purchaseId : string;
  pc_userId : string;
  pc_amount : Q;
  pc_type : string;
  pc_level : nat
}.

Record Db := {
  users : list User;
  productPurchases : list ProductPurchase;
  productCommissions : list ProductCommission
}.

Definition withUsers (db : Db) (us : list User) : Db :=
  {| users := us;
     productPurchases := productPurchases db;
     productCommissions := productCommissions db |}.

Definition adminEmail : string := "psikologabdulkadirkan@gmail.com".

Definition getUserById (db : Db) (wanted : string) : option User :=
  findById (users db) wanted.

Definition getUserByEmail (db : Db) (wanted : string) : option User :=
  find (fun u => String.eqb (email u) wanted) (users db).

(** [findIndex] followed by the assignment to that index. *)
Fixpoint updateFirst {A : Type} (p : A -> bool) (f : A -> A) (xs : list A)
  : list A :=
  match xs with
  | [] => []
  | x :: rest => if p x then f x :: rest else x :: updateFirst p f rest
  end.

(** [updates] is the spread [{...old, ...updates}] as a function of the
    old record. *)
Definition updateUser (db : Db) (wanted : string) (updates : User -> User)
  : Db :=
  withUsers db
    (updateFirst (fun u => String.eqb (id u) wanted) updates (users db)).

Definition withWallet (w : Wallet) (old : User) : User :=
  {| id := id old; memberId := memberId old; email := email old;
     sponsorId := sponsorId old; leftChild := leftChild old;
     rightChild := rightChild old; isActive := isActive old;
     careerLevel := careerLevel old;
     totalInvestment := totalInvestment old;
     wallet := w;
     monthlySalesVolume := monthlySalesVolume old;
     annualSalesVolume := annualSalesVolume old |}.

Definition withLeftChild (c : string) (old : User) : User :=
  {| id := id old; memberId := memberId old; email := email old;
     sponsorId := sponsorId old; leftChild := Some c;
     rightChild := rightChild old; isActive := isActive old;
     careerLevel := careerLevel old;
     totalInvestment := totalInvestment old;
     wallet := wallet old;
     monthlySalesVolume := monthlySalesVolume old;
     annualSalesVolume := annualSalesVolume old |}.

Definition withRightChild (c : string) (old : User) : User :=
  {| id := id old; memberId := memberId old; email := email old;
     sponsorId := sponsorId old; leftChild := leftChild old;
     rightChild := Some c; isActive := isActive old;
     careerLevel := careerLevel old;
     totalInvestment := totalInvestment old;
     wallet := wallet old;
     monthlySalesVolume := monthlySalesVolume old;
     annualSalesVolume := annualSalesVolume old |}.

Definition withSponsorId (s : string) (old : User) : User :=
  {| id := id old; memberId := memberId old; email := email old;
     sponsorId := Some s; leftChild := leftChild old;
     rightChild := rightChild old; isActive := isActive old;
     careerLevel := careerLevel old;
     totalInvestment := totalInvestment old;
     wallet := wallet old;
     monthlySalesVolume := monthlySalesVolume old;
     annualSalesVolume := annualSalesVolume old |}.

(** *** Transactions and wallets *)

Inductive TransactionType :=
| deposit | withdrawal | commission | bonus | transfer | payment.

Inductive TransactionStatus := pending | completed | rejected.

Record Transaction := {
  userId : string;
  type : TransactionType;
  amount : Q;
  status : TransactionStatus
}.

Definition creditWallet (w : Wallet) (a : Q) : Wallet :=
  {| balance := balance w + a;
     totalEarnings := totalEarnings w + a;
     sponsorBonus := sponsorBonus w;
     careerBonus := careerBonus w;
     passiveIncome := passiveIncome w;
     leadershipBonus := leadershipBonus w |}.

Definition debitWallet (w : Wallet) (a : Q) : Wallet :=
  {| balance := balance w - a;
     totalEarnings := totalEarnings w;
     sponsorBonus := sponsorBonus w;
     careerBonus := careerBonus w;
     passiveIncome := passiveIncome w;
     leadershipBonus := leadershipBonus w |}.

Definition updateUserWallet (db : Db) (wanted : string) (a : Q)
    (t : TransactionType) : Db :=
  match getUserById db wanted with
  | None => db
  | Some user =>
      let w :=
        match t with
        | deposit | commission | bonus => creditWallet (wallet user) a
        | withdrawal => debitWallet (wallet user) a
        | transfer | payment => wallet user
        end in
      updateUser db wanted (fun _ => withWallet w user)
  end.

Definition createTransaction (db : Db) (transaction : Transaction) : Db :=
  match status transaction with
  | completed =>
      updateUserWallet db (userId transaction) (amount transaction)
                       (type transaction)
  | pending | rejected => db
  end.

(** *** Classic percentage engine *)

(** How the store hands out records: as copies ([file_backed]) or as the
    stored objects themselves ([in_memory]). *)
Inductive Adapter := file_backed | in_memory.

(** The wallet that the record [user], fetched earlier, shows now;
    [refetched] is the same lookup made again in the current store.  The
    wallet object of a member is shared by all copies of its record that
    [updateUser] makes. *)
Definition walletSeen (adapter : Adapter) (refetched : option User)
    (user : User) : Wallet :=
  match adapter, refetched with
  | in_memory, Some current => wallet current
  | _, _ => wallet user
  end.

Definition gt0 (x : Q) : bool := negb (Qle_bool x 0).

Definition commissionRates : list Q :=
  [ 8 # 100; 6 # 100; 5 # 100; 3 # 100; 2 # 100; 15 # 1000; 5 # 1000 ].

(** What the callback of [distributeBinaryCommissions] starts for one
    upline member without awaiting it: [createTransaction] with a
    completed commission of [startedAmount] for the member, and
    [updateUser] with the wallet of the record it holds, career bonus
    and balance raised by that amount. *)
Record StartedCommission := {
  startedFor : string;
  startedLevel : nat;
  startedAmount : Q
}.

(** [while (level <= 7)] of [traverseUpline]; [remaining] counts the
    iterations left, [level] is the loop variable.  The callback is
    synchronous: it hands back what it has started and its boolean.  The
    loop reads the [sponsorId] and [isActive] of the records, which no
    store call of the engine writes, so the members it visits are those
    of the store it starts from; the result lists what was started, in
    that order. *)
Fixpoint traverseUplineFrom (remaining : nat)
    (callback : User -> nat -> option StartedCommission * bool)
    (db : Db) (currentUserId : string) (level : nat)
  : list StartedCommission :=
  match remaining with
  | O => []
  | S fewer =>
      match getUserById db currentUserId with
      | None => []
      | Some currentUser =>
          match sponsorId currentUser with
          | None => []
          | Some sid =>
              if truthy_str sid then
                match getUserById db sid with
                | None => []
                | Some uplineUser =>
                    let '(started, shouldContinue) :=
                      callback uplineUser level in
                    let sofar :=
                      match started with Some c => [c] | None => [] end in
                    if shouldContinue
                    then sofar ++ traverseUplineFrom fewer callback db
                                    (id uplineUser) (S level)
                    else sofar
                end
              else []
          end
      end
  end.

Definition traverseUpline (db : Db) (wanted : string)
    (callback : User -> nat -> option StartedCommission * bool)
  : list StartedCommission :=
  traverseUplineFrom 7 callback db wanted 1.


Definition addPassiveIncome (w : Wallet) (a : Q) : Wallet :=
  {| balance := balance w + a;
     totalEarnings := totalEarnings w;
     sponsorBonus := sponsorBonus w;
     careerBonus := careerBonus w;
     passiveIncome := passiveIncome w + a;
     leadershipBonus := leadershipBonus w |}.


(** The callback of [distributeBinaryCommissions]. *)
Definition binaryCallback (a : Q) (uplineUser : User) (level : nat)
  : option StartedCommission * bool :=
  if (7 <? level)%nat || negb (isActive uplineUser) then (None, false)
  else
    let commissionRate :=
      or_num (nth_error commissionRates (level - 1)) 0 in
    let commission' := a * commissionRate in
    if gt0 commission' then
      (Some {| startedFor := id uplineUser;
               startedLevel := level;
               startedAmount := commission' |},
       true)
    else (None, true).

(** The store calls the walk has started when it returns. *)
Definition distributeBinaryCommissions (db : Db) (a : Q) (wanted : string)
  : list StartedCommission :=
  traverseUpline db wanted (binaryCallback a).

(** [(amount * baseRate * levelMultiplier) / 100] with
    [levelMultiplier = levels / 7]. *)
Definition passiveAmountOf (a : Q) (sponsor : User) (levels : nat) : Q :=
  let baseRate := passiveIncomeRate (careerLevel sponsor) in
  let levelMultiplier := ofNat levels / 7 in
  (a * baseRate * levelMultiplier) / 100.

(** The body of [if (passiveAmount > 0)]. *)
Definition payPassiveIncome (adapter : Adapter) (db : Db) (sponsor : User)
    (passiveAmount : Q) : Db :=
  let db1 :=
    createTransaction db
      {| userId := id sponsor; type := commission;
         amount := passiveAmount; status := completed |} in
  let w := walletSeen adapter (getUserById db1 (id sponsor)) sponsor in
  updateUser db1 (id sponsor)
    (withWallet (addPassiveIncome w passiveAmount)).

Fixpoint distributePassiveIncome (adapter : Adapter) (db : Db) (a : Q)
    (wanted : string) (levels : nat) : Db :=
  match levels with
  | O => db
  | S fewer =>
      match getUserById db wanted with
      | None => db
      | Some user =>
          match sponsorId user with
          | None => db
          | Some sid =>
              if truthy_str sid then
                match getUserById db sid with
                | None => db
                | Some sponsor =>
                    if isActive sponsor
                       && gt0 (passiveIncomeRate (careerLevel sponsor))
                    then
                      let passiveAmount :=
                        passiveAmountOf a sponsor levels in
                      let db2 :=
                        if gt0 passiveAmount
                        then payPassiveIncome adapter db sponsor
                                              passiveAmount
                        else db in
                      distributePassiveIncome adapter db2 a (id sponsor)
                                              fewer
                    else db
                end
              else db
          end
      end
  end.





(** *** Tree statistics

    The recursion over the sponsor relation has no bound in the source.
    [fuel] bounds the nesting of calls; [None] stands for a run that
    has not come back within it.  [Caches] is the content of the two
    time-stamped caches that is still fresh when the call is made; an
    entry written during the call holds what the call would compute
    again, so the snapshot is only read. *)

Definition bindF {A B : Type} (c : option A) (k : A -> option B)
  : option B :=
  match c with Some a => k a | None => None end.

Notation "x <- c ;; k" := (bindF c (fun x => k))
  (at level 61, c at next level, right associativity).

(** [Promise.all(xs.map(f))] *)
Fixpoint mapF {A B : Type} (f : A -> option B) (xs : list A)
  : option (list B) :=
  match xs with
  | [] => Some []
  | x :: rest => y <- f x ;; ys <- mapF f rest ;; Some (y :: ys)
  end.

Record Caches := {
  teamSizeCache : string -> option nat;
  teamVolumeCache : string -> option PrimFloat.float
}.

Definition emptyCaches : Caches :=
  {| teamSizeCache := fun _ => None; teamVolumeCache := fun _ => None |}.

Definition getDirectReferrals (db : Db) (wanted : string) : list User :=
  filter (fun user =>
            match sponsorId user with
            | Some s => String.eqb s wanted
            | None => false
            end) (users db).

Definition sumNat (xs : list nat) : nat := fold_left Nat.add xs 0%nat.

(** [xs.reduce((sum, x) => sum + x, 0)] on binary64 numbers. *)
Definition sumNumbers (xs : list PrimFloat.float) : PrimFloat.float :=
  fold_left PrimFloat.add xs PrimFloat.zero.

Fixpoint getTotalTeamSize (fuel : nat) (db : Db) (caches : Caches)
    (wanted : string) : option nat :=
  match fuel with
  | O => None
  | S f =>
      match teamSizeCache caches wanted with
      | Some size => Some size
      | None =>
          let directReferrals := getDirectReferrals db wanted in
          sizes <- mapF (fun referral =>
                           getTotalTeamSize f db caches (id referral))
                        directReferrals ;;
          Some (length directReferrals + sumNat sizes)%nat
      end
  end.

(** The volumes are added up in binary64, in the order of the source:
    the volumes of the direct referrals from 0, and that sum to the
    investment of the member. *)
Fixpoint getTeamVolume (fuel : nat) (db : Db) (caches : Caches)
    (wanted : string) : option PrimFloat.float :=
  match fuel with
  | O => None
  | S f =>
      match teamVolumeCache caches wanted with
      | Some volume => Some volume
      | None =>
          match getUserById db wanted with
          | None => Some PrimFloat.zero
          | Some user =>
              let totalVolume := numberOf (totalInvestment user) in
              match getDirectReferrals db wanted with
              | [] => Some totalVolume
              | directReferrals =>
                  volumes <- mapF (fun referral =>
                                     getTeamVolume f db caches (id referral))
                                  directReferrals ;;
                  Some (PrimFloat.add totalVolume (sumNumbers volumes))
              end
          end
      end
  end.

Fixpoint getAllTeamMembers (fuel : nat) (db : Db) (wanted : string)
  : option (list User) :=
  match fuel with
  | O => None
  | S f =>
      let directReferrals := getDirectReferrals db wanted in
      subTeams <- mapF (fun referral =>
                          getAllTeamMembers f db (id referral))
                       directReferrals ;;
      Some (directReferrals ++ concat subTeams)
  end.

(** [Math.max(...depths)] on a non-empty list of counts. *)
Definition maxOf (depths : list nat) : nat := fold_left Nat.max depths 0%nat.

Fixpoint calculateMaxDepth (fuel : nat) (db : Db) (wanted : string)
    (currentDepth : nat) : option nat :=
  match fuel with
  | O => None
  | S f =>
      match getDirectReferrals db wanted with
      | [] => Some currentDepth
      | directReferrals =>
          depths <- mapF (fun referral =>
                            calculateMaxDepth f db (id referral)
                                              (S currentDepth))
                         directReferrals ;;
          Some (maxOf depths)
      end
  end.

(** The fields of the statistics record that the placement code reads;
    [careerDistribution] and [recentGrowth] are left out. *)
Record LegStats := {
  teamSize : nat;
  volume : PrimFloat.float;
  activeMembers : nat;
  maxDepth : nat;
  avgInvestment : PrimFloat.float
}.

Definition calculateAdvancedLegStats (fuel : nat) (db : Db)
    (wanted : string) : option (nat * nat * PrimFloat.float) :=
  teamMembers <- getAllTeamMembers fuel db wanted ;;
  let activeMembers' := length (filter isActive teamMembers) in
  maxDepth' <- calculateMaxDepth fuel db wanted 0 ;;
  let totalInvestment' :=
    fold_left (fun sum member =>
                 PrimFloat.add sum (numberOf (totalInvestment member)))
              teamMembers PrimFloat.zero in
  let avgInvestment' :=
    if (0 <? length teamMembers)%nat
    then PrimFloat.div totalInvestment' (numberOfNat (length teamMembers))
    else PrimFloat.zero in
  Some (activeMembers', maxDepth', avgInvestment').

Definition getDetailedLegStats (fuel : nat) (db : Db) (caches : Caches)
    (wanted : string) : option LegStats :=
  teamSize' <- getTotalTeamSize fuel db caches wanted ;;
  volume' <- getTeamVolume fuel db caches wanted ;;
  adv <- calculateAdvancedLegStats fuel db wanted ;;
  let '(activeMembers', maxDepth', avgInvestment') := adv in
  Some {| teamSize := teamSize';
          volume := volume';
          activeMembers := activeMembers';
          maxDepth := maxDepth';
          avgInvestment := avgInvestment' |}.

Section LegScore.

Import PrimFloat.
#[local] Set Warnings "-inexact-float".

(** The four weights and the four divisors are binary64 constants, and
    the sum is taken from left to right. *)
Definition calculateLegScore (stats : LegStats) : float :=
  let sizeWeight := 0.4%float in
  let volumeWeight := 0.3%float in
  let activeWeight := 0.2%float in
  let depthWeight := 0.1%float in
  let normalizedSize := (numberOfNat (teamSize stats) / 100)%float in
  let normalizedVolume := (volume stats / 10000)%float in
  let normalizedActive := (numberOfNat (activeMembers stats) / 100)%float in
  let normalizedDepth := (numberOfNat (maxDepth stats) / 10)%float in
  (normalizedSize * sizeWeight + normalizedVolume * volumeWeight
   + normalizedActive * activeWeight + normalizedDepth * depthWeight)%float.

End LegScore.

(** *** Binary placement *)

Inductive Algorithm := size_based | volume_based | balanced | depth_first.

Inductive Side := side_left | side_right.

Record Position := { parentId : string; position : Side; depth : nat }.

Record ScoredPosition := { place : Position; score : Q }.

(** [{ ...result, depth: result.depth + 1 }] *)
Definition deeper (result : ScoredPosition) : ScoredPosition :=
  {| place := {| parentId := parentId (place result);
                 position := position (place result);
                 depth := S (depth (place result)) |};
     score := score result |}.

(** [slot ? await this.getUserById(slot) : null] *)
Definition resolveChild (db : Db) (slot : option string) : option User :=
  match slot with
  | Some c => if truthy_str c then getUserById db c else None
  | None => None
  end.

(** The [switch (algorithm)] of [findWeakestLeg] for one leg. *)
Definition legScoreFor (algorithm : Algorithm) (stats : LegStats)
  : PrimFloat.float :=
  match algorithm with
  | size_based => numberOfNat (teamSize stats)
  | volume_based => volume stats
  | depth_first => numberOfNat (maxDepth stats)
  | balanced => calculateLegScore stats
  end.

Definition openSlot (wanted : string) (side : Side) : ScoredPosition :=
  {| place := {| parentId := wanted; position := side; depth := 1 |};
     score := 0 |}.

(** The inner [option] is the [null] result. *)
Fixpoint findWeakestLeg (fuel : nat) (db : Db) (caches : Caches)
    (wanted : string) (algorithm : Algorithm)
  : option (option ScoredPosition) :=
  match fuel with
  | O => None
  | S f =>
      match getUserById db wanted with
      | None => Some None
      | Some user =>
          match resolveChild db (leftChild user),
                resolveChild db (rightChild user) with
          | None, None => Some (Some (openSlot wanted side_left))
          | None, Some _ => Some (Some (openSlot wanted side_left))
          | Some _, None => Some (Some (openSlot wanted side_right))
          | Some leftChild', Some rightChild' =>
              leftStats <- getDetailedLegStats f db caches (id leftChild') ;;
              rightStats <-
                getDetailedLegStats f db caches (id rightChild') ;;
              let leftScore := legScoreFor algorithm leftStats in
              let rightScore := legScoreFor algorithm rightStats in
              if PrimFloat.leb leftScore rightScore then
                result <- findWeakestLeg f db caches (id leftChild')
                                         algorithm ;;
                Some (option_map deeper result)
              else
                result <- findWeakestLeg f db caches (id rightChild')
                                         algorithm ;;
                Some (option_map deeper result)
          end
      end
  end.

(** The slot a candidate on [side] of [wanted] at [d] stands for. *)
Definition candidate (wanted : string) (side : Side) (d : nat) : Position :=
  {| parentId := wanted; position := side; depth := d |}.

(** [findAvailablePositions]: the recursion stops once [currentDepth]
    passes [maxDepth], so the levels left to visit are its measure. *)
Equations? findAvailablePositions (db : Db) (startUserId : string)
    (maxDepth' currentDepth : nat) : list Position
    by wf (S maxDepth' - currentDepth)%nat lt :=
  findAvailablePositions db startUserId maxDepth' currentDepth
    with le_lt_dec currentDepth maxDepth' => {
    | right _ => [];
    | left _ with getUserById db startUserId => {
      | None => [];
      | Some user =>
          (match leftChild user with
           | Some l =>
               if truthy_str l
               then findAvailablePositions db l maxDepth' (S currentDepth)
               else [candidate startUserId side_left currentDepth]
           | None => [candidate startUserId side_left currentDepth]
           end)
          ++
          (match rightChild user with
           | Some r =>
               if truthy_str r
               then findAvailablePositions db r maxDepth' (S currentDepth)
               else [candidate startUserId side_right currentDepth]
           | None => [candidate startUserId side_right currentDepth]
           end) } }.
Proof. all: destruct currentDepth; lia. Defined.

Inductive PreferredSide := prefer_left | prefer_right | prefer_auto.

Record Preferences := {
  algorithm : option Algorithm;
  pref_maxDepth : option nat;
  preferredSide : option PreferredSide;
  considerCareerLevel : bool;
  avoidOverloading : bool
}.

(** [{}] *)
Definition noPreferences : Preferences :=
  {| algorithm := None; pref_maxDepth := None; preferredSide := None;
     considerCareerLevel := false; avoidOverloading := false |}.

(** The [algorithm] field of a placement result. *)
Inductive AlgorithmLabel :=
| label_none
| label_preferred_side
| label_of (a : Algorithm).

(** The [message] field of a placement result; the texts are
    [SponsorNotFound]: Sponsor bulunamadi.
    [PlacedOnPreferredSide s]: Kullanici <s> tarafa yerlestirildi.
    [NoSuitablePosition]: Uygun yerlestirme pozisyonu bulunamadi.
    [Placed s d]: Kullanici basariyla <s> tarafa yerlestirildi
    (Derinlik: <d>).
    [PlacementError]: Yerlestirme sirasinda hata olustu. *)
Inductive Message :=
| SponsorNotFound
| PlacedOnPreferredSide (s : Side)
| NoSuitablePosition
| Placed (s : Side) (d : nat)
| PlacementError.

Record PlacementStats := {
  leftSize : nat; rightSize : nat;
  leftVolume : PrimFloat.float; rightVolume : PrimFloat.float
}.

Record PlacementResult := {
  success : bool;
  placement : option Position;
  message : Message;
  resultAlgorithm : option AlgorithmLabel;
  stats : option PlacementStats
}.

(** [preferences.maxDepth || 7] *)
Definition maxDepthOf (preferences : Preferences) : nat :=
  match pref_maxDepth preferences with
  | Some (S n) => S n
  | Some O | None => 7%nat
  end.

(** [preferences.algorithm || "balanced"] *)
Definition algorithmOf (preferences : Preferences) : Algorithm :=
  match algorithm preferences with Some a => a | None => balanced end.

Definition executeBinaryPlacement (db : Db) (newUserId parent : string)
    (side : Side) : Completion Db :=
  match getUserById db parent with
  | None => Throw "Parent user not found"
  | Some _ =>
      let updates :=
        match side with
        | side_left => withLeftChild newUserId
        | side_right => withRightChild newUserId
        end in
      let db1 := updateUser db parent updates in
      Return (updateUser db1 newUserId (withSponsorId parent))
  end.

Definition getPlacementStats (fuel : nat) (db : Db) (caches : Caches)
    (parent : string) : option (option PlacementStats) :=
  match getUserById db parent with
  | None => Some None
  | Some p =>
      let sizeOf slot :=
        match slot with
        | Some c =>
            if truthy_str c then getTotalTeamSize fuel db caches c
            else Some 0%nat
        | None => Some 0%nat
        end in
      let volumeOf slot :=
        match slot with
        | Some c =>
            if truthy_str c then getTeamVolume fuel db caches c
            else Some PrimFloat.zero
        | None => Some PrimFloat.zero
        end in
      ls <- sizeOf (leftChild p) ;;
      rs <- sizeOf (rightChild p) ;;
      lv <- volumeOf (leftChild p) ;;
      rv <- volumeOf (rightChild p) ;;
      Some (Some {| leftSize := ls; rightSize := rs;
                    leftVolume := lv; rightVolume := rv |})
  end.

(** [xs.sort((a, b) => a.score - b.score)]: a stable sort by
    increasing score. *)
Fixpoint insertByScore (x : ScoredPosition) (sorted : list ScoredPosition)
  : list ScoredPosition :=
  match sorted with
  | [] => [x]
  | y :: rest =>
      if Qle_bool (score x) (score y) then x :: y :: rest
      else y :: insertByScore x rest
  end.

Definition sortByScore (xs : list ScoredPosition) : list ScoredPosition :=
  fold_right insertByScore [] xs.

Section Placement.

(** [scorePlacementPosition] is a parameter of the search.  In the source
    it adds to ten times the depth a figure read from the statistics of
    the candidate's parent, and it can leave the rational numbers
    ([Infinity] for an unknown parent, and [careerLevel.level], a field
    the career record does not have); the search is stated for any
    scoring by a number. *)
Variable scorePlacementPosition :
  Db -> Position -> Algorithm -> Preferences -> Q.

Definition findOptimalPlacement (db : Db) (sponsor : string)
    (algorithm' : Algorithm) (maxDepth' : nat)
    (preferences : Preferences) : option ScoredPosition :=
  let candidates := findAvailablePositions db sponsor maxDepth' 1 in
  match candidates with
  | [] => None
  | _ :: _ =>
      let scoredCandidates :=
        map (fun c =>
               {| place := c;
                  score := scorePlacementPosition db c algorithm'
                                                  preferences |})
            candidates in
      hd_error (sortByScore scoredCandidates)
  end.

(** The side asked for, when it is a side and that slot of the sponsor
    is free. *)
Definition freePreferredSide (sponsor : User) (preferences : Preferences)
  : option Side :=
  match preferredSide preferences with
  | Some prefer_left =>
      if truthy_ostr (leftChild sponsor) then None else Some side_left
  | Some prefer_right =>
      if truthy_ostr (rightChild sponsor) then None else Some side_right
  | Some prefer_auto | None => None
  end.

Definition failure (m : Message) (label : option AlgorithmLabel)
  : PlacementResult :=
  {| success := false; placement := None; message := m;
     resultAlgorithm := label; stats := None |}.

(** [placeBinaryUser], given the [enhancedAutoPlacement] it calls. *)
Definition placeBinaryUserWith
    (auto : Db -> string -> string -> Preferences ->
            option (Db * PlacementResult))
    (db : Db) (newUserId : string) (sponsor : option string)
    (preferences : Preferences) : option (Db * PlacementResult) :=
  let sponsor1 :=
    if truthy_ostr sponsor then sponsor
    else match getUserByEmail db adminEmail with
         | Some admin => Some (id admin)
         | None => sponsor
         end in
  match sponsor1 with
  | Some s =>
      if truthy_str s then auto db newUserId s preferences
      else Some (db, failure SponsorNotFound None)
  | None => Some (db, failure SponsorNotFound None)
  end.

Fixpoint enhancedAutoPlacement (fuel : nat) (caches : Caches) (db : Db)
    (newUserId sponsor : string) (preferences : Preferences)
  : option (Db * PlacementResult) :=
  match fuel with
  | O => None
  | S f =>
      match getUserById db sponsor with
      | None => Some (db, failure SponsorNotFound (Some label_none))
      | Some sponsorUser =>
          let algorithm' := algorithmOf preferences in
          let maxDepth' := maxDepthOf preferences in
          match freePreferredSide sponsorUser preferences with
          | Some side =>
              r <- placeBinaryUserWith (enhancedAutoPlacement f caches)
                     db newUserId (Some sponsor) noPreferences ;;
              Some (fst r,
                    {| success := true;
                       placement := Some (candidate sponsor side 1);
                       message := PlacedOnPreferredSide side;
                       resultAlgorithm := Some label_preferred_side;
                       stats := None |})
          | None =>
              match findOptimalPlacement db sponsor algorithm' maxDepth'
                                         preferences with
              | None =>
                  Some (db, failure NoSuitablePosition
                                    (Some (label_of algorithm')))
              | Some found =>
                  match executeBinaryPlacement db newUserId
                          (parentId (place found))
                          (position (place found)) with
                  | Throw _ =>
                      Some (db, failure PlacementError
                                        (Some (label_of algorithm')))
                  | Return db1 =>
                      stats' <- getPlacementStats f db1 caches
                                  (parentId (place found)) ;;
                      Some (db1,
                            {| success := true;
                               placement := Some (place found);
                               message :=
                                 Placed (position (place found))
                                        (depth (place found));
                               resultAlgorithm :=
                                 Some (label_of algorithm');
                               stats := stats' |})
                  end
              end
          end
      end
  end.

Definition placeBinaryUser (fuel : nat) (caches : Caches)
  : Db -> string -> option string -> Preferences ->
    option (Db * PlacementResult) :=
  placeBinaryUserWith (enhancedAutoPlacement fuel caches).

End Placement.

(** *** Removal and manual placement

    The audit log entries and the caches that the manual placement
    clears are outside the store kept here. *)

(** [findIndex] followed by [splice(index, 1)]; [None] for the index -1. *)
Fixpoint spliceFirst {A : Type} (p : A -> bool) (xs : list A)
  : option (list A) :=
  match xs with
  | [] => None
  | x :: rest =>
      if p x then Some rest else option_map (cons x) (spliceFirst p rest)
  end.

Definition deleteUser (db : Db) (wanted : string) : Db * bool :=
  match spliceFirst (fun user => String.eqb (id user) wanted) (users db) with
  | None => (db, false)
  | Some remaining => (withUsers db remaining, true)
  end.

(** [parent[targetField]] *)
Definition slotOf (side : Side) (u : User) : option string :=
  match side with
  | side_left => leftChild u
  | side_right => rightChild u
  end.

(** [updates[targetField] = userId] *)
Definition withSlot (side : Side) (c : string) : User -> User :=
  match side with
  | side_left => withLeftChild c
  | side_right => withRightChild c
  end.

(** [{ leftChild: undefined }] and [{ rightChild: undefined }] *)
Definition withoutLeftChild (old : User) : User :=
  {| id := id old; memberId := memberId old; email := email old;
     sponsorId := sponsorId old; leftChild := None;
     rightChild := rightChild old; isActive := isActive old;
     careerLevel := careerLevel old;
     totalInvestment := totalInvestment old;
     wallet := wallet old;
     monthlySalesVolume := monthlySalesVolume old;
     annualSalesVolume := annualSalesVolume old |}.

Definition withoutRightChild (old : User) : User :=
  {| id := id old; memberId := memberId old; email := email old;
     sponsorId := sponsorId old; leftChild := leftChild old;
     rightChild := None; isActive := isActive old;
     careerLevel := careerLevel old;
     totalInvestment := totalInvestment old;
     wallet := wallet old;
     monthlySalesVolume := monthlySalesVolume old;
     annualSalesVolume := annualSalesVolume old |}.

(** The [message] of a manual placement or move:
    [RecordsNotFound]: Kullanici veya ust sponsor bulunamadi.
    [SlotTaken]: the position is already taken.
    [Done]: the placement or move went through. *)
Inductive AdminMessage := RecordsNotFound | SlotTaken | Done.

Record AdminResult := { adminSuccess : bool; adminMessage : AdminMessage }.

Definition adminPlaceUserInBinary (db : Db) (userId' parent : string)
    (side : Side) : Db * AdminResult :=
  match getUserById db userId', getUserById db parent with
  | Some _, Some parentUser =>
      if truthy_ostr (slotOf side parentUser) then
        (db, {| adminSuccess := false; adminMessage := SlotTaken |})
      else
        let db1 := updateUser db parent (withSlot side userId') in
        let db2 := updateUser db1 userId' (withSponsorId parent) in
        (db2, {| adminSuccess := true; adminMessage := Done |})
  | _, _ => (db, {| adminSuccess := false; adminMessage := RecordsNotFound |})
  end.

(** [slot === userId] for an optional field. *)
Definition holds (slot : option string) (wanted : string) : bool :=
  match slot with Some c => String.eqb c wanted | None => false end.

(** The removal of the member from the slot of the current sponsor. *)
Definition vacate (db : Db) (user : User) (userId' : string) : Db :=
  match sponsorId user with
  | Some sid =>
      if truthy_str sid then
        match getUserById db sid with
        | Some currentParent =>
            let updates :=
              if holds (leftChild currentParent) userId'
              then withoutLeftChild
              else if holds (rightChild currentParent) userId'
                   then withoutRightChild
                   else fun old => old in
            updateUser db (id currentParent) updates
        | None => db
        end
      else db
  | None => db
  end.

Definition adminMoveUser (db : Db) (userId' newParentId : string)
    (newPosition : Side) : Db * AdminResult :=
  match getUserById db userId', getUserById db newParentId with
  | Some user, Some newParent =>
      if truthy_ostr (slotOf newPosition newParent) then
        (db, {| adminSuccess := false; adminMessage := SlotTaken |})
      else
        let db1 := vacate db user userId' in
        let db2 := updateUser db1 newParentId (withSlot newPosition userId') in
        let db3 := updateUser db2 userId' (withSponsorId newParentId) in
        (db3, {| adminSuccess := true; adminMessage := Done |})
  | _, _ => (db, {| adminSuccess := false; adminMessage := RecordsNotFound |})
  end.

(** *** Product commissions *)







End MLMDatabase.

(** ** Route handlers

    A handler is a function of the store and of the fields of the
    request body; it gives the store it leaves and the status of the
    response. *)

Module Routes.

Import MLMDatabase.

(** [transferFunds]; [amount] is the number sent in the body. *)
Definition transferFunds (db : Db) (fromUserId toUserEmail : string)
    (amount' : Q) : Db * nat :=
  match getUserById db fromUserId, getUserByEmail db toUserEmail with
  | Some fromUser, Some toUser =>
      if negb (Qle_bool amount' (balance (wallet fromUser))) then
        (db, 400%nat)
      else
        let db1 :=
          createTransaction db
            {| userId := fromUserId; type := transfer;
               amount := - amount'; status := completed |} in
        let db2 :=
          createTransaction db1
            {| userId := id toUser; type := transfer;
               amount := amount'; status := completed |} in
        (db2, 200%nat)
  | _, _ => (db, 404%nat)
  end.

(** The record the [/sale] loop reads for a transaction: with the
    file-backed store, the one of the list fetched before the loop; with
    the in-memory store that list is the stored array, so the record as
    the loop has left it. *)
Definition recipientSeen (adapter : Adapter) (allUsers : list User)
    (db : Db) (wanted : string) : option User :=
  match adapter with
  | file_backed => findById allUsers wanted
  | in_memory => findById (users db) wanted
  end.

(** One turn of the [for ... of] loop over [result.transactions]. *)
Definition saleStep (adapter : Adapter) (allUsers : list User) (db : Db)
    (transaction : MonolineCommissionService.MonolineCommissionTransaction)
  : Db :=
  match recipientSeen adapter allUsers db
          (MonolineCommissionService.recipientId transaction) with
  | Some recipient =>
      let updatedUser :=
        MonolineCommissionService.processCommissionTransaction
          transaction recipient in
      updateUser db (id updatedUser) (fun _ => updatedUser)
  | None => db
  end.

(** The [/sale] handler on the members; [stored] is the commission
    structure of the saved settings, when there is one.  The passive
    pool counter and the commission log, which it also writes, are
    outside the store kept here. *)
Definition sale (adapter : Adapter) (db : Db) (buyerId' : string)
    (productPrice' : Q)
    (stored : option MonolineCommissionService.MonolineCommissionStructure)
  : Db * nat :=
  if negb (truthy_str buyerId') || negb (truthy_num productPrice') then
    (db, 400%nat)
  else
    let allUsers := users db in
    let commissionStructure :=
      match stored with
      | Some s => s
      | None => MonolineCommissionService.getDefaultCommissionStructure
      end in
    match MonolineCommissionService.calculateMonolineCommissions
            buyerId' (Some productPrice') allUsers
            (Some commissionStructure) with
    | Throw _ => (db, 500%nat)
    | Return result =>
        (fold_left (saleStep adapter allUsers)
                   (MonolineCommissionService.transactions result) db,
         200%nat)
    end.

(** The outcome of the handler that distributes the passive income
    pool: the store and the pool it leaves, and the two figures of its
    response.  The pool is a counter of the store, read by
    [getPassiveIncomePoolAmount] before the call and given here as
    [currentPoolAmount]. *)
Record PoolDistribution := {
  storeAfter : Db;
  poolAfter : Q;
  distributedAmount : Q;
  successfulRecipients : nat
}.

(** [updatedUser] of the distribution loop. *)
Definition withPassiveShare (a : Q) (user : User) : User :=
  let w := wallet user in
  withWallet
    {| balance := balance w + a;
       totalEarnings := totalEarnings w + a;
       sponsorBonus := sponsorBonus w;
       careerBonus := careerBonus w;
       passiveIncome := passiveIncome w + a;
       leadershipBonus := leadershipBonus w |}
    user.

(** One turn of the loop over [distribution.recipients]; the members are
    looked up in [activeUsers], the array filtered before the loop. *)
Definition payRecipient (activeUsers : list User) (acc : Db * Q * nat)
    (recipient : MonolineCommissionService.Recipient) : Db * Q * nat :=
  let '(db, distributed, paid) := acc in
  match findById activeUsers
          (MonolineCommissionService.r_userId recipient) with
  | Some user =>
      if gt0 (MonolineCommissionService.r_amount recipient) then
        (updateUser db (id user)
           (fun _ =>
              withPassiveShare
                (MonolineCommissionService.r_amount recipient) user),
         distributed + MonolineCommissionService.r_amount recipient,
         S paid)
      else acc
  | None => acc
  end.

(** The [/admin/distribute-passive-income] handler.  The record of the
    distribution, which it also stores, is outside the store kept
    here. *)
Definition distributePassiveIncomePool (db : Db) (currentPoolAmount : Q)
  : PoolDistribution :=
  let allUsers := users db in
  let activeUsers := filter isActive allUsers in
  let untouched :=
    {| storeAfter := db; poolAfter := currentPoolAmount;
       distributedAmount := 0; successfulRecipients := 0 |} in
  if Qle_bool currentPoolAmount 0 then untouched
  else
    match activeUsers with
    | [] => untouched
    | _ :: _ =>
        let distribution :=
          MonolineCommissionService.calculatePassiveIncomeDistribution
            currentPoolAmount activeUsers in
        let '(db', distributed, paid) :=
          fold_left (payRecipient activeUsers)
                    (MonolineCommissionService.recipients distribution)
                    (db, 0, 0%nat) in
        {| storeAfter := db'; poolAfter := 0;
           distributedAmount := distributed;
           successfulRecipients := paid |}
    end.

End Routes.

(** ** Vocabulary of the statements *)

(** Amount configured for the level at [index] (0-based), 0 past the table. *)
Definition levelAmount
    (structure : MonolineCommissionService.MonolineCommissionStructure)
    (index : nat) : Q :=
  match nth_error (MonolineCommissionService.depthLevels structure) index with
  | Some (_, l) => MonolineCommissionService.amount l
  | None => 0
  end.

(** Sum of the configured amounts of [n] consecutive levels from [k]. *)
Fixpoint levelSum
    (structure : MonolineCommissionService.MonolineCommissionStructure)
    (k n : nat) : Q :=
  match n with
  | O => 0
  | S m => levelAmount structure k + levelSum structure (S k) m
  end.

(** Paid transactions, passive pool and company fund of a result. *)
Definition accountedFor (r : MonolineCommissionService.CommissionResult) : Q :=
  MonolineCommissionService.sumAmounts
    (MonolineCommissionService.transactions r)
  + MonolineCommissionService.passivePoolAmount r
  + MonolineCommissionService.companyFundAmount r.

(** The filter of the passive-pool split. *)
Definition fullyActive (user : User) : bool :=
  MonolineCommissionService.isFullyActive
    (MonolineCommissionService.checkUserActivity user None).




(** [hops db a k c]: [c] is reached from [a] in [k] steps along occupied
    child slots. *)
Inductive hops (db : MLMDatabase.Db) : string -> nat -> string -> Prop :=
| hops_here (a : string) : hops db a 0 a
| hops_down (a b c : string) (k : nat) (u : User) :
    MLMDatabase.getUserById db a = Some u ->
    (leftChild u = Some b \/ rightChild u = Some b) ->
    truthy_str b = true ->
    hops db b k c ->
    hops db a (S k) c.

(** The slot of [u] on [side] is free. *)
Definition slotFree (u : User) (side : MLMDatabase.Side) : Prop :=
  match side with
  | MLMDatabase.side_left => truthy_ostr (leftChild u) = false
  | MLMDatabase.side_right => truthy_ostr (rightChild u) = false
  end.

(** No slot is free at a member reached from [start] by fewer than
    [bound] steps along occupied slots. *)
Definition noFreeSlotWithin (db : MLMDatabase.Db) (start : string)
    (bound : nat) : Prop :=
  forall (c : string) (k : nat) (u : User) (side : MLMDatabase.Side),
    hops db start k c ->
    (1 + k <= bound)%nat ->
    MLMDatabase.getUserById db c = Some u ->
    ~ slotFree u side.



(** The members of [chain] that stand before its first inactive one. *)
Fixpoint activePrefix (chain : list User) : list User :=
  match chain with
  | [] => []
  | u :: rest => if isActive u then u :: activePrefix rest else []
  end.

(** The depth-bonus commission out of [a] for the upline member at a
    0-based index: the level is the index plus one, the amount is [a]
    times the rate of that level, 0 past the table. *)
Definition depthBonusFor (a : Q) (entry : nat * User)
  : MLMDatabase.StartedCommission :=
  {| MLMDatabase.startedFor := id (snd entry);
     MLMDatabase.startedLevel := S (fst entry);
     MLMDatabase.startedAmount :=
       a * nth (fst entry) MLMDatabase.commissionRates 0 |}.

(** The sponsor record the chain walks read for [user]: the first record
    of [allUsers] whose id is the [sponsorId] of [user]. *)
Definition sponsorOf (allUsers : list User) (user : User) : option User :=
  match sponsorId user with
  | Some sid => if truthy_str sid then findById allUsers sid else None
  | None => None
  end.

(** [chain] climbs from [user], one sponsor at a time. *)
Fixpoint sponsorLine (allUsers : list User) (user : User)
    (chain : list User) : Prop :=
  match chain with
  | [] => True
  | s :: rest => sponsorOf allUsers user = Some s /\ sponsorLine allUsers s rest
  end.

(** What every transaction of a sale by [b] at [price] carries, with
    [us] the members it may be addressed to. *)
Definition wellFormed (b : string) (price : Q) (us : list User)
    (t : MonolineCommissionService.MonolineCommissionTransaction) : Prop :=
  MonolineCommissionService.status t = MonolineCommissionService.pending
  /\ MonolineCommissionService.buyerId t = b
  /\ MonolineCommissionService.tx_productPrice t = price
  /\ exists u, In u us /\ MonolineCommissionService.recipientId t = id u.

(** [p] ranks before [q] in the list of top performers. *)
Definition byAnnualVolume (p q : MonolineCommissionService.Performer)
  : Prop :=
  MonolineCommissionService.performerAnnualVolume q
  <= MonolineCommissionService.performerAnnualVolume p.

(** No two hyphens stand next to each other in [s]. *)
Fixpoint noDoubleHyphen (s : Utils.JsString) : Prop :=
  match s with
  | x :: (y :: _) as rest =>
      ~ (x = Utils.hyphen /\ y = Utils.hyphen) /\ noDoubleHyphen rest
  | _ => True
  end.

(** [a] comes before [b] in the ranking of the placement candidates. *)
Definition byScore (a b : MLMDatabase.ScoredPosition) : Prop :=
  MLMDatabase.score a <= MLMDatabase.score b.

(** ** Sample members

    Records used to run the definitions on concrete directories. *)

Definition emptyWallet : Wallet :=
  {| balance := 0; totalEarnings := 0; sponsorBonus := 0; careerBonus := 0;
     passiveIncome := 0; leadershipBonus := 0 |}.

Definition careerWithRate (rate : Q) : CareerLevel :=
  {| cl_id := 1; cl_name := "Emmare"; commissionRate := 2;
     passiveIncomeRate := rate |}.

(** A member with an empty wallet, no binary children and the mail address
    [<id>@example.org]. *)
Definition member (id' : string) (sponsor : option string) (active : bool)
    (rate invest : Q) (monthly annual : option Q) : User :=
  {| id := id'; memberId := id'; email := id' ++ "@example.org";
     sponsorId := sponsor; leftChild := None; rightChild := None;
     isActive := active; careerLevel := careerWithRate rate;
     totalInvestment := invest; wallet := emptyWallet;
     monthlySalesVolume := monthly; annualSalesVolume := annual |}.

(** A node of the binary tree: children slots set, everything else plain. *)
Definition node (id' : string) (sponsor l r : option string) (invest : Q)
  : User :=
  {| id := id'; memberId := id'; email := id' ++ "@example.org";
     sponsorId := sponsor; leftChild := l; rightChild := r;
     isActive := true; careerLevel := careerWithRate 0;
     totalInvestment := invest; wallet := emptyWallet;
     monthlySalesVolume := None; annualSalesVolume := None |}.

(** The root member the classic engine pays the system fund to. *)
Definition adminUser : User :=
  {| id := "admin"; memberId := "ak0000001";
     email := MLMDatabase.adminEmail;
     sponsorId := None; leftChild := None; rightChild := None;
     isActive := true; careerLevel := careerWithRate 0;
     totalInvestment := 0; wallet := emptyWallet;
     monthlySalesVolume := None; annualSalesVolume := None |}.

Definition dbOf (us : list User) : MLMDatabase.Db :=
  {| MLMDatabase.users := us;
     MLMDatabase.productPurchases := [];
     MLMDatabase.productCommissions := [] |}.

(** A member that meets the three activity thresholds, and one whose
    monthly sales of 19 miss the threshold of 20. *)
Definition activeMember (id' : string) (sponsor : option string) : User :=
  member id' sponsor true 0 100 (Some 20) (Some 200).

Definition idleMember (id' : string) (sponsor : option string) : User :=
  member id' sponsor true 0 100 (Some 19) (Some 200).

(** A buyer [b] below seven upline members, [s1] (the direct sponsor) to
    [s7]; [s3] and [s6] are not fully active. *)
Definition sampleLine : list User :=
  [ activeMember "b" (Some "s1"%string);
    activeMember "s1" (Some "s2"%string);
    activeMember "s2" (Some "s3"%string);
    idleMember "s3" (Some "s4"%string);
    activeMember "s4" (Some "s5"%string);
    activeMember "s5" (Some "s6"%string);
    idleMember "s6" (Some "s7"%string);
    activeMember "s7" None ].





(** A member [u] whose sponsor [s1] is inactive; above [s1] stands [s2],
    active with a passive rate of 5.  [activeUpline] is the same directory
    with [s1] active. *)
Definition brokenUpline : MLMDatabase.Db :=
  dbOf [ member "u" (Some "s1"%string) true 0 100 None None;
         member "s1" (Some "s2"%string) false 5 100 None None;
         member "s2" None true 5 100 None None;
         adminUser ].

Definition activeUpline : MLMDatabase.Db :=
  dbOf [ member "u" (Some "s1"%string) true 0 100 None None;
         member "s1" (Some "s2"%string) true 5 100 None None;
         member "s2" None true 5 100 None None;
         adminUser ].

(** A member [u] below the active [s1], whose sponsor [s2] is inactive;
    above [s2] stands the active [s3]. *)
Definition brokenAtSecond : MLMDatabase.Db :=
  dbOf [ member "u" (Some "s1"%string) true 0 100 None None;
         member "s1" (Some "s2"%string) true 5 100 None None;
         member "s2" (Some "s3"%string) false 5 100 None None;
         member "s3" None true 5 100 None None;
         adminUser ].


(** A binary tree: [r] has the children [a] (left) and [b] (right); [a]
    sponsors [a1] and [a2], [b] sponsors nobody and has both slots free. *)
Definition sampleTree : MLMDatabase.Db :=
  dbOf [ node "r" None (Some "a"%string) (Some "b"%string) 0;
         node "a" (Some "r"%string) (Some "a1"%string) (Some "a2"%string) 0;
         node "b" (Some "r"%string) None None 0;
         node "a1" (Some "a"%string) None None 0;
         node "a2" (Some "a"%string) None None 0 ].

(** A binary tree whose two legs tie at 0.03 in exact arithmetic: the
    left leg [a] has a team of two ([a1], and [a2] below [a1]), one of
    them active, over two levels; the right leg [b] has a team of four
    direct referrals, two of them active.  Nobody has invested. *)
Definition unevenTree : MLMDatabase.Db :=
  dbOf [ node "r" None (Some "a"%string) (Some "b"%string) 0;
         node "a" (Some "r"%string) (Some "a1"%string) None 0;
         node "b" (Some "r"%string) (Some "b1"%string) None 0;
         member "a1" (Some "a"%string) true 0 0 None None;
         member "a2" (Some "a1"%string) false 0 0 None None;
         member "b1" (Some "b"%string) true 0 0 None None;
         member "b2" (Some "b"%string) true 0 0 None None;
         member "b3" (Some "b"%string) false 0 0 None None;
         member "b4" (Some "b"%string) false 0 0 None None ].

(** Both slots of [r] taken and a search bound of one level. *)
Definition oneLevel : MLMDatabase.Preferences :=
  {| MLMDatabase.algorithm := None;
     MLMDatabase.pref_maxDepth := Some 1%nat;
     MLMDatabase.preferredSide := None;
     MLMDatabase.considerCareerLevel := false;
     MLMDatabase.avoidOverloading := false |}.

(** A scoring that rates every candidate alike. *)
Definition flatScore (_ : MLMDatabase.Db) (_ : MLMDatabase.Position)
    (_ : MLMDatabase.Algorithm) (_ : MLMDatabase.Preferences) : Q := 0.

(** A directory in which the member [loop] is recorded as their own
    sponsor. *)
Definition selfSponsored : list User :=
  [ activeMember "a" None; activeMember "loop" (Some "loop"%string) ].

(** * Properties *)

Import MonolineCommissionService.

(** ** Numbers *)

Lemma truthy_num_false (x : Q) : truthy_num x = false -> x == 0.
Proof.
  unfold truthy_num. intros H. apply negb_false_iff in H.
  now apply Qeq_bool_iff.
Qed.

Lemma truthy_num_true (x : Q) : ~ x == 0 -> truthy_num x = true.
Proof.
  unfold truthy_num. intros H. apply negb_true_iff.
  destruct (Qeq_bool x 0) eqn:E; [|reflexivity].
  apply Qeq_bool_iff in E. contradiction.
Qed.

(** [x || 0] is [x] up to the representation of zero. *)
Lemma or_num_zero (o : option Q) : or_num o 0 == valueOr0 o.
Proof.
  destruct o as [x|]; simpl; [|reflexivity].
  destruct (truthy_num x) eqn:E; [reflexivity|].
  symmetry. now apply truthy_num_false.
Qed.

Lemma geq_iff (a b : Q) : geq a b = true <-> b <= a.
Proof. unfold geq. apply Qle_bool_iff. Qed.

Lemma geq_compat (a a' b : Q) : a == a' -> geq a b = geq a' b.
Proof.
  intros E. unfold geq.
  destruct (Qle_bool b a) eqn:H1, (Qle_bool b a') eqn:H2; try reflexivity.
  - apply Qle_bool_iff in H1. rewrite E in H1.
    apply Qle_bool_iff in H1. congruence.
  - apply Qle_bool_iff in H2. rewrite <- E in H2.
    apply Qle_bool_iff in H2. congruence.
Qed.

(** ** Activity evaluator *)

Lemma monthlyOf_stored (user : User) :
  monthlyOf user None == valueOr0 (monthlySalesVolume user).
Proof. unfold monthlyOf. simpl. apply or_num_zero. Qed.

Lemma annualOf_stored (user : User) :
  annualOf user None == valueOr0 (annualSalesVolume user).
Proof. unfold annualOf. simpl. apply or_num_zero. Qed.

Lemma initialOf_stored (user : User) : initialOf user == totalInvestment user.
Proof. unfold initialOf. apply (or_num_zero (Some (totalInvestment user))). Qed.

(** C4. For every member record and every threshold triple the evaluator
    returns four booleans obtained with inclusive comparisons: monthly
    active iff the monthly sales reach the monthly threshold, annually
    active iff the annual sales reach the annual threshold, initial
    purchase iff the lifetime investment reaches the initial threshold,
    fully active iff all three hold.  The thresholds of the code are 20,
    200 and 100; monthly sales of 19 give [isMonthlyActive = false] and
    monthly sales of exactly 20 give [true]. *)
Theorem checkUserActivity_inclusive_thresholds :
  forall (requirements : MembershipRequirements) (user : User),
    let r := checkUserActivityWith requirements user None in
    (isMonthlyActive r = true <->
       minimumAmount (monthlyActivity requirements)
       <= valueOr0 (monthlySalesVolume user))
    /\ (isAnnuallyActive r = true <->
          minimumAmount (annualActivity requirements)
          <= valueOr0 (annualSalesVolume user))
    /\ (hasInitialPurchase r = true <->
          minimumAmount (initialPurchase requirements)
          <= totalInvestment user)
    /\ (isFullyActive r = true <->
          isMonthlyActive r = true /\ isAnnuallyActive r = true
          /\ hasInitialPurchase r = true)
    /\ checkUserActivity user None
       = checkUserActivityWith
           {| initialPurchase := {| minimumAmount := 100; minimumUnits := 5 |};
              monthlyActivity := {| minimumAmount := 20; minimumUnits := 1 |};
              annualActivity := {| minimumAmount := 200; minimumUnits := 10 |} |}
           user None
    /\ (forall x, monthlySalesVolume user = Some x -> x == 19 ->
          isMonthlyActive (checkUserActivity user None) = false)
    /\ (forall x, monthlySalesVolume user = Some x -> x == 20 ->
          isMonthlyActive (checkUserActivity user None) = true).
Proof.
  intros requirements user r. subst r. cbn [checkUserActivityWith
    isMonthlyActive isAnnuallyActive hasInitialPurchase isFullyActive].
  repeat split.
  - intros H. apply geq_iff in H. now rewrite monthlyOf_stored in H.
  - intros H. apply geq_iff. now rewrite monthlyOf_stored.
  - intros H. apply geq_iff in H. now rewrite annualOf_stored in H.
  - intros H. apply geq_iff. now rewrite annualOf_stored.
  - intros H. apply geq_iff in H. now rewrite initialOf_stored in H.
  - intros H. apply geq_iff. now rewrite initialOf_stored.
  - apply andb_true_iff in H. destruct H as [H _].
    apply andb_true_iff in H. tauto.
  - apply andb_true_iff in H. destruct H as [H _].
    apply andb_true_iff in H. tauto.
  - apply andb_true_iff in H. tauto.
  - intros (H1 & H2 & H3). now rewrite H1, H2, H3.
  - intros x Hx E. unfold checkUserActivity. cbn [checkUserActivityWith
      isMonthlyActive getMembershipRequirements monthlyActivity minimumAmount].
    rewrite (geq_compat _ 19).
    + reflexivity.
    + rewrite monthlyOf_stored, Hx. exact E.
  - intros x Hx E. unfold checkUserActivity. cbn [checkUserActivityWith
      isMonthlyActive getMembershipRequirements monthlyActivity minimumAmount].
    rewrite (geq_compat _ 20).
    + reflexivity.
    + rewrite monthlyOf_stored, Hx. exact E.
Qed.

Lemma checkUserActivity_boundary_witness :
  isMonthlyActive
    (checkUserActivity (member "m" None true 0 100 (Some 19) (Some 200)) None)
  = false
  /\ isMonthlyActive
       (checkUserActivity (member "m" None true 0 100 (Some 20) (Some 200))
                          None)
     = true.
Proof.
  split.
  - apply (checkUserActivity_inclusive_thresholds getMembershipRequirements
             (member "m" None true 0 100 (Some 19) (Some 200))) with (x := 19);
      reflexivity.
  - apply (checkUserActivity_inclusive_thresholds getMembershipRequirements
             (member "m" None true 0 100 (Some 20) (Some 200))) with (x := 20);
      reflexivity.
Defined.

(** C10. An override whose figures are zero is ignored: the evaluator
    returns the same four booleans as without an override, because a zero
    falls through [||] to the stored volume; a non-zero override is the
    figure that is compared. *)
Theorem checkUserActivity_zero_override_ignored :
  forall (user : User) (salesData : SalesData),
    (monthlySales salesData == 0 -> annualSales salesData == 0 ->
       checkUserActivity user (Some salesData) = checkUserActivity user None)
    /\ (~ monthlySales salesData == 0 ->
          monthlyOf user (Some salesData) = monthlySales salesData)
    /\ (~ annualSales salesData == 0 ->
          annualOf user (Some salesData) = annualSales salesData).
Proof.
  intros user salesData. repeat split.
  - intros Hm Ha.
    unfold checkUserActivity, checkUserActivityWith, monthlyOf, annualOf.
    cbn [option_map or_num].
    assert (Em : truthy_num (monthlySales salesData) = false).
    { unfold truthy_num. apply negb_false_iff. now apply Qeq_bool_iff. }
    assert (Ea : truthy_num (annualSales salesData) = false).
    { unfold truthy_num. apply negb_false_iff. now apply Qeq_bool_iff. }
    rewrite Em, Ea. reflexivity.
  - intros H. unfold monthlyOf. cbn [option_map or_num].
    now rewrite (truthy_num_true _ H).
  - intros H. unfold annualOf. cbn [option_map or_num].
    now rewrite (truthy_num_true _ H).
Qed.

Lemma checkUserActivity_zero_override_witness :
  checkUserActivity (member "m" None true 0 100 (Some 50) (Some 300))
                    (Some {| monthlySales := 0; annualSales := 0 |})
  = checkUserActivity (member "m" None true 0 100 (Some 50) (Some 300)) None
  /\ monthlyOf (member "m" None true 0 100 (Some 50) (Some 300))
               (Some {| monthlySales := 5; annualSales := 7 |}) = 5
  /\ annualOf (member "m" None true 0 100 (Some 50) (Some 300))
              (Some {| monthlySales := 5; annualSales := 7 |}) = 7.
Proof.
  split; [|split].
  - apply (checkUserActivity_zero_override_ignored
             (member "m" None true 0 100 (Some 50) (Some 300))
             {| monthlySales := 0; annualSales := 0 |}); reflexivity.
  - apply (checkUserActivity_zero_override_ignored
             (member "m" None true 0 100 (Some 50) (Some 300))
             {| monthlySales := 5; annualSales := 7 |}).
    intros H; discriminate H.
  - apply (checkUserActivity_zero_override_ignored
             (member "m" None true 0 100 (Some 50) (Some 300))
             {| monthlySales := 5; annualSales := 7 |}).
    intros H; discriminate H.
Defined.

(** ** Monoline engine: where the price goes *)

Lemma sumAmounts_app (txs : list MonolineCommissionTransaction)
    (t : MonolineCommissionTransaction) :
  sumAmounts (txs ++ [t]) == sumAmounts txs + tx_amount t.
Proof. unfold sumAmounts. rewrite fold_left_app. simpl. reflexivity. Qed.

(** What the transactions and the forfeited amount hold together after one
    callback. *)
Lemma depthStep_total (structure : MonolineCommissionStructure)
    (buyer : string) (price : Q)
    (acc : list MonolineCommissionTransaction * Q) (k : nat) (u : User) :
  let r := depthStep structure buyer price acc (k, u) in
  sumAmounts (fst r) + snd r
  == sumAmounts (fst acc) + snd acc + levelAmount structure k.
Proof.
  unfold depthStep, levelAmount.
  destruct (nth_error (depthLevels structure) k) as [[lvl levelBonus]|].
  - destruct (isFullyActive (checkUserActivity u None)); cbn [fst snd].
    + rewrite sumAmounts_app. cbn [tx_amount]. ring.
    + ring.
  - cbn. ring.
Qed.

Lemma depthFold_total (structure : MonolineCommissionStructure)
    (buyer : string) (price : Q) (chain : list User) :
  forall (k : nat) (acc : list MonolineCommissionTransaction * Q),
    let r := fold_left (depthStep structure buyer price)
                       (combine (seq k (length chain)) chain) acc in
    sumAmounts (fst r) + snd r
    == sumAmounts (fst acc) + snd acc + levelSum structure k (length chain).
Proof.
  induction chain as [|u chain IH]; intros k acc; cbn [length seq combine
    fold_left levelSum].
  - ring.
  - cbv zeta in IH. rewrite IH.
    rewrite (depthStep_total structure buyer price acc k u). ring.
Qed.

Lemma getUplineChain_length (user : User) (allUsers : list User) (n : nat) :
  (length (getUplineChain user allUsers n) <= n)%nat.
Proof.
  revert user. induction n as [|n IH]; intros user; simpl; [lia|].
  destruct (sponsorId user) as [sid|]; simpl; [|lia].
  destruct (truthy_str sid); simpl; [|lia].
  destruct (findById allUsers sid) as [sponsor|]; simpl; [|lia].
  specialize (IH sponsor). lia.
Qed.

(** The sponsor bonus is created exactly when the upline chain starts. *)
Lemma sponsorTransactions_total (structure : MonolineCommissionStructure)
    (buyer : User) (b : string) (price : Q) (allUsers : list User) (n : nat) :
  sumAmounts (sponsorTransactions structure buyer b price allUsers)
  == match getUplineChain buyer allUsers (S n) with
     | [] => 0
     | _ :: _ => amount (directSponsorBonus structure)
     end.
Proof.
  unfold sponsorTransactions. cbn [getUplineChain].
  destruct (sponsorId buyer) as [sid|]; [|reflexivity].
  destruct (truthy_str sid); [|reflexivity].
  destruct (findById allUsers sid); [|reflexivity].
  unfold sumAmounts. simpl. ring.
Qed.

(** The result computed for a buyer that is found, and what its parts add
    up to. *)
Lemma monoline_result_of_found_buyer :
  forall (wanted : string) (price : option Q) (allUsers : list User)
         (commissionStructure : option MonolineCommissionStructure)
         (buyer : User),
    findById allUsers wanted = Some buyer ->
    let structure :=
      match commissionStructure with
      | Some s => s
      | None => getDefaultCommissionStructure
      end in
    let chain := getUplineChain buyer allUsers 7 in
    exists r : CommissionResult,
      calculateMonolineCommissions wanted price allUsers commissionStructure
      = Return r
      /\ totalDistributed r = sumAmounts (transactions r)
      /\ passivePoolAmount r = amount (passiveIncomePool structure)
      /\ companyFundAmount r
         = amount (companyFund structure) + inactiveCommissionsToCompany r
      /\ sumAmounts (transactions r) + inactiveCommissionsToCompany r
         == match chain with
            | [] => 0
            | _ :: _ => amount (directSponsorBonus structure)
            end
            + levelSum structure 0 (length chain)
      /\ accountedFor r
         == amount (companyFund structure)
            + amount (passiveIncomePool structure)
            + match chain with
              | [] => 0
              | _ :: _ => amount (directSponsorBonus structure)
              end
            + levelSum structure 0 (length chain).
Proof.
  intros wanted price allUsers commissionStructure buyer Hbuyer
         structure chain.
  unfold calculateMonolineCommissions. rewrite Hbuyer.
  fold structure.
  set (p := match price with Some p => p | None => 20 end).
  unfold indexed. fold chain.
  pose proof (depthFold_total structure wanted p chain 0
                (sponsorTransactions structure buyer wanted p allUsers, 0))
    as Hfold.
  cbv zeta in Hfold.
  destruct (fold_left (depthStep structure wanted p)
              (combine (seq 0 (length chain)) chain)
              (sponsorTransactions structure buyer wanted p allUsers, 0))
    as [txs inactive] eqn:Efold.
  cbn [fst snd] in Hfold.
  rewrite (sponsorTransactions_total structure buyer wanted p allUsers 6)
    in Hfold.
  fold chain in Hfold.
  eexists. split; [reflexivity|].
  unfold accountedFor.
  cbn [transactions passivePoolAmount companyFundAmount totalDistributed
       inactiveCommissionsToCompany].
  split; [reflexivity|]. split; [reflexivity|]. split; [reflexivity|].
  assert (Hpaid :
    sumAmounts txs + inactive
    == match chain with
       | [] => 0
       | _ :: _ => amount (directSponsorBonus structure)
       end + levelSum structure 0 (length chain)).
  { rewrite Hfold. ring. }
  split; [exact Hpaid|].
  transitivity (amount (companyFund structure)
                + amount (passiveIncomePool structure)
                + (sumAmounts txs + inactive)).
  - ring.
  - rewrite Hpaid. ring.
Qed.








(** ** Monoline engine: a buyer that is not in the snapshot *)

(** C9 (amended). A buyer id that is not in the snapshot makes
    [calculateMonolineCommissions] throw [Error('Buyer not found')] to its
    caller; for a buyer that is found the call returns a result, whether
    or not the sponsor and the upline members are found. *)
Theorem monoline_buyer_not_found_throws :
  forall (wanted : string) (price : option Q) (allUsers : list User)
         (commissionStructure : option MonolineCommissionStructure),
    (findById allUsers wanted = None ->
       calculateMonolineCommissions wanted price allUsers commissionStructure
       = Throw "Buyer not found")
    /\ (forall buyer : User, findById allUsers wanted = Some buyer ->
          exists r : CommissionResult,
            calculateMonolineCommissions wanted price allUsers
                                         commissionStructure
            = Return r).
Proof.
  intros wanted price allUsers commissionStructure. split.
  - intros H. unfold calculateMonolineCommissions. now rewrite H.
  - intros buyer H.
    destruct (monoline_result_of_found_buyer wanted price allUsers
                commissionStructure buyer H) as (r & Hr & _).
    exists r. exact Hr.
Qed.

Lemma monoline_buyer_not_found_witness :
  calculateMonolineCommissions "ghost" (Some 20) sampleLine None
  = Throw "Buyer not found"
  /\ exists r : CommissionResult,
       calculateMonolineCommissions "s7" (Some 20) sampleLine None = Return r.
Proof.
  split.
  - apply (monoline_buyer_not_found_throws "ghost" (Some 20) sampleLine None).
    reflexivity.
  - apply (monoline_buyer_not_found_throws "s7" (Some 20) sampleLine None)
      with (buyer := activeMember "s7" None).
    reflexivity.
Defined.

(** C9, as stated, fails: with a buyer id absent from the snapshot the
    call does not return a result, it throws. *)
Lemma monoline_buyer_not_found_counterexample :
  findById sampleLine "ghost" = None
  /\ ~ (exists r : CommissionResult,
          calculateMonolineCommissions "ghost" (Some 20) sampleLine None
          = Return r).
Proof.
  split; [reflexivity|].
  intros [r H]. discriminate H.
Qed.

(** ** Passive pool *)

Lemma ofNat_pos (n : nat) : (0 < n)%nat -> 0 < ofNat n.
Proof.
  intros H. unfold ofNat, Qlt. simpl. lia.
Qed.

(** C7. The pool is split among the members of the snapshot that are
    fully active: the record counts them, lists exactly them in order,
    each with the same amount and status pending; with at least one
    recipient the amount is the pool divided by their number and the
    amounts add up to the pool; with none the amount is 0 and the list of
    recipients is empty. *)
Theorem passive_pool_even_split :
  forall (totalPoolAmount : Q) (allUsers : list User),
    let d := calculatePassiveIncomeDistribution totalPoolAmount allUsers in
    totalPool d = totalPoolAmount
    /\ activeMembers d = length (filter fullyActive allUsers)
    /\ length (recipients d) = activeMembers d
    /\ map r_userId (recipients d) = map id (filter fullyActive allUsers)
    /\ Forall (fun r => r_amount r = amountPerMember d
                        /\ r_status r = r_pending) (recipients d)
    /\ ((0 < activeMembers d)%nat ->
          amountPerMember d == totalPoolAmount / ofNat (activeMembers d)
          /\ amountPerMember d * ofNat (activeMembers d) == totalPoolAmount)
    /\ (activeMembers d = 0%nat ->
          amountPerMember d = 0 /\ recipients d = []).
Proof.
  intros totalPoolAmount allUsers d. subst d.
  unfold calculatePassiveIncomeDistribution.
  fold fullyActive.
  change (filter (fun user => isFullyActive (checkUserActivity user None))
                 allUsers)
    with (filter fullyActive allUsers).
  cbn [totalPool activeMembers recipients amountPerMember].
  set (act := filter fullyActive allUsers).
  split; [reflexivity|]. split; [reflexivity|].
  split; [apply length_map|].
  split; [now rewrite map_map|].
  split.
  - apply Forall_forall. intros r Hr. apply in_map_iff in Hr.
    destruct Hr as (u & <- & _). split; reflexivity.
  - split.
    + intros Hpos. apply Nat.ltb_lt in Hpos as Hb. rewrite Hb.
      fold (ofNat (length act)). split; [reflexivity|].
      field. intros E. pose proof (ofNat_pos _ Hpos) as P.
      rewrite E in P. now apply Qlt_irrefl in P.
    + intros Hz. rewrite Hz. cbn [Nat.ltb Nat.leb].
      split; [reflexivity|].
      apply length_zero_iff_nil in Hz. now rewrite Hz.
Qed.

Lemma passive_pool_even_split_witness :
  amountPerMember (calculatePassiveIncomeDistribution 10 sampleLine)
  * ofNat 6 == 10
  /\ amountPerMember (calculatePassiveIncomeDistribution 10 []) = 0
  /\ recipients (calculatePassiveIncomeDistribution 10 []) = [].
Proof.
  split.
  - apply (passive_pool_even_split 10 sampleLine). vm_compute. lia.
  - apply (passive_pool_even_split 10 []). reflexivity.
Defined.

(** ** Lookups in a list updated in place *)

Lemma find_updateFirst {A : Type} (p : A -> bool) (f : A -> A)
    (xs : list A) :
  (forall x, p x = true -> p (f x) = true) ->
  find p (MLMDatabase.updateFirst p f xs) = option_map f (find p xs).
Proof.
  intros Hp. induction xs as [|x xs IH]; simpl; [reflexivity|].
  destruct (p x) eqn:E; simpl.
  - now rewrite (Hp x E).
  - now rewrite E.
Qed.

Lemma find_updateFirst_other {A : Type} (p q : A -> bool) (f : A -> A)
    (xs : list A) :
  (forall x, p x = true -> q x = false /\ q (f x) = false) ->
  find q (MLMDatabase.updateFirst p f xs) = find q xs.
Proof.
  intros Hpq. induction xs as [|x xs IH]; simpl; [reflexivity|].
  destruct (p x) eqn:E; simpl.
  - destruct (Hpq x E) as [H1 H2]. now rewrite H1, H2.
  - now rewrite IH.
Qed.

(** ** Monoline engine: the upline chain *)

Lemma findById_found (us : list User) (k : string) (u : User) :
  findById us k = Some u -> In u us /\ id u = k.
Proof.
  unfold findById. intros H. apply find_some in H. destruct H as [Hin He].
  split; [exact Hin | now apply String.eqb_eq].
Qed.

Lemma sponsorOf_found (us : list User) (user s : User) :
  sponsorOf us user = Some s -> In s us /\ sponsorId user = Some (id s).
Proof.
  unfold sponsorOf. destruct (sponsorId user) as [sid|]; [|discriminate].
  destruct (truthy_str sid); [|discriminate]. intros H.
  apply findById_found in H. destruct H as [Hin <-]. now split.
Qed.

Lemma getUplineChain_step (user : User) (allUsers : list User) (n : nat) :
  getUplineChain user allUsers (S n) =
  match sponsorOf allUsers user with
  | Some sponsor => sponsor :: getUplineChain sponsor allUsers n
  | None => []
  end.
Proof.
  unfold sponsorOf. simpl. destruct (sponsorId user) as [sid|]; [|reflexivity].
  destruct (truthy_str sid); reflexivity.
Qed.

Lemma last_cons {A : Type} (l : list A) :
  forall x d : A, last (x :: l) d = last l x.
Proof.
  induction l as [|a l IH]; intros x d; [reflexivity|].
  change (last (x :: a :: l) d) with (last (a :: l) d).
  now rewrite (IH a d), (IH a x).
Qed.

Lemma getUplineChain_members (allUsers : list User) (n : nat) :
  forall user u, In u (getUplineChain user allUsers n) -> In u allUsers.
Proof.
  induction n as [|n IH]; intros user u; [intros []|].
  rewrite getUplineChain_step.
  destruct (sponsorOf allUsers user) as [s|] eqn:E; [|intros []].
  intros [<-|H]; [now apply sponsorOf_found in E | now apply (IH s)].
Qed.

(** X1. The upline chain climbs the sponsor links one at a time: its
    first member is the sponsor record of the user, each further member
    the sponsor record of the one before.  It is cut at [maxLevels]
    members; when it is shorter, the member it ends at (the user, for an
    empty chain) has no sponsor on record. *)
Theorem getUplineChain_follows_sponsors
    (user : User) (allUsers : list User) (maxLevels : nat) :
  let chain := getUplineChain user allUsers maxLevels in
  sponsorLine allUsers user chain
  /\ (length chain = maxLevels
      \/ sponsorOf allUsers (last chain user) = None).
Proof.
  cbv zeta. revert user. induction maxLevels as [|n IH]; intros user.
  - split; [exact I | left; reflexivity].
  - rewrite getUplineChain_step.
    destruct (sponsorOf allUsers user) as [s|] eqn:E.
    + destruct (IH s) as [Hl Hd]. split; [now split|].
      destruct Hd as [Hd|Hd]; [left; simpl; now rewrite Hd|right].
      now rewrite last_cons.
    + split; [exact I | right; exact E].
Qed.

(** X2. Asking for fewer levels gives a prefix of the longer chain: the
    chain of [m] levels is the first [m] members of the chain of [m + k]
    levels. *)
Theorem getUplineChain_prefix
    (user : User) (allUsers : list User) (m k : nat) :
  getUplineChain user allUsers m
  = firstn m (getUplineChain user allUsers (m + k)).
Proof.
  revert user. induction m as [|m IH]; intros user; [reflexivity|].
  cbn [Nat.add]. rewrite !getUplineChain_step.
  destruct (sponsorOf allUsers user) as [s|]; [|reflexivity].
  cbn [firstn]. f_equal. apply IH.
Qed.

(** ** Monoline engine: depth of a member *)

Lemma calculateUserDepthFrom_step (fuel depth : nat) (u : User)
    (allUsers : list User) :
  calculateUserDepthFrom (S fuel) depth u allUsers =
  match sponsorOf allUsers u with
  | Some s => calculateUserDepthFrom fuel (S depth) s allUsers
  | None => Some depth
  end.
Proof.
  unfold sponsorOf. simpl. destruct (sponsorId u) as [sid|]; [|reflexivity].
  destruct (truthy_str sid); reflexivity.
Qed.

Lemma calculateUserDepthFrom_chain (allUsers : list User) :
  forall (n : nat) (user : User) (depth : nat),
    (length (getUplineChain user allUsers n) < n)%nat ->
    calculateUserDepthFrom n depth user allUsers
    = Some (depth + length (getUplineChain user allUsers n))%nat.
Proof.
  induction n as [|n IH]; intros user depth H; [simpl in H; lia|].
  rewrite calculateUserDepthFrom_step. rewrite getUplineChain_step in *.
  destruct (sponsorOf allUsers user) as [s|].
  - cbn [length] in *. rewrite IH by lia. f_equal. lia.
  - cbn [length]. f_equal. lia.
Qed.

Lemma calculateUserDepthFrom_unbounded (allUsers : list User) :
  forall (fuel : nat) (user : User) (depth : nat),
    (forall n, length (getUplineChain user allUsers n) = n) ->
    calculateUserDepthFrom fuel depth user allUsers = None.
Proof.
  induction fuel as [|fuel IH]; intros user depth H; [reflexivity|].
  rewrite calculateUserDepthFrom_step.
  pose proof (H 1%nat) as H1. rewrite getUplineChain_step in H1.
  destruct (sponsorOf allUsers user) as [s|] eqn:E; [|discriminate H1].
  apply IH. intros n. specialize (H (S n)).
  rewrite getUplineChain_step, E in H. cbn [length] in H. lia.
Qed.

(** A member recorded as their own sponsor has a chain of every length. *)
Lemma own_sponsor_unbounded (allUsers : list User) (u : User) :
  sponsorOf allUsers u = Some u ->
  forall n, length (getUplineChain u allUsers n) = n.
Proof.
  intros E n. induction n as [|n IH]; [reflexivity|].
  rewrite getUplineChain_step, E. cbn [length]. now rewrite IH.
Qed.

Lemma calculateUserDepth_counts_upline_aux
    (user : User) (allUsers : list User) (n : nat) :
  (length (getUplineChain user allUsers n) < n)%nat ->
  calculateUserDepth n user allUsers
  = Some (length (getUplineChain user allUsers n)).
Proof.
  intros H. unfold calculateUserDepth.
  rewrite calculateUserDepthFrom_chain by exact H. reflexivity.
Qed.

(** X3. When the upline of a member ends within [n] levels, the depth
    loop returns within [n] turns, and the depth is the number of members
    of the upline chain. *)
Theorem calculateUserDepth_counts_upline
    (user : User) (allUsers : list User) (n : nat) :
  (length (getUplineChain user allUsers n) < n)%nat ->
  calculateUserDepth n user allUsers
  = Some (length (getUplineChain user allUsers n)).
Proof. apply calculateUserDepth_counts_upline_aux. Qed.

Lemma calculateUserDepth_counts_upline_witness :
  (length (getUplineChain (activeMember "b" (Some "s1"%string))
                          sampleLine 8) < 8)%nat
  /\ calculateUserDepth 8 (activeMember "b" (Some "s1"%string)) sampleLine
     = Some 7%nat.
Proof.
  split; [vm_compute; lia|].
  apply (calculateUserDepth_counts_upline
           (activeMember "b" (Some "s1"%string)) sampleLine 8).
  vm_compute. lia.
Defined.

Lemma allDepths_stuck (fuel : nat) (allUsers : list User) :
  forall (users : list User) (u : User),
    In u users ->
    calculateUserDepth fuel u allUsers = None ->
    allDepths fuel users allUsers = None.
Proof.
  induction users as [|a users IH]; intros u Hin Hn; [destruct Hin|].
  simpl. destruct Hin as [->|Hin].
  - now rewrite Hn.
  - destruct (calculateUserDepth fuel a allUsers); [|reflexivity].
    now rewrite (IH u Hin Hn).
Qed.

(** X4. The network statistics never come back for a directory in which
    the sponsor links from some member do not end (a member recorded as
    their own sponsor, or a longer cycle): the depth loop of that member
    runs for ever. *)
Theorem getMonolineNetworkStats_stuck_on_cycle
    (users : list User) (u : User) (fuel : nat) :
  In u users ->
  (forall n, length (getUplineChain u users n) = n) ->
  getMonolineNetworkStats fuel users = None.
Proof.
  intros Hin Hloop. unfold getMonolineNetworkStats.
  rewrite (allDepths_stuck fuel users users u Hin); [reflexivity|].
  now apply calculateUserDepthFrom_unbounded.
Qed.

Lemma getMonolineNetworkStats_stuck_on_cycle_witness :
  In (activeMember "loop" (Some "loop"%string)) selfSponsored
  /\ getMonolineNetworkStats 1000 selfSponsored = None.
Proof.
  split; [right; left; reflexivity|].
  apply (getMonolineNetworkStats_stuck_on_cycle
           selfSponsored (activeMember "loop" (Some "loop"%string)) 1000).
  - right; left; reflexivity.
  - apply own_sponsor_unbounded. reflexivity.
Defined.

(** ** Monoline engine: the transactions of a sale *)

Lemma sponsorTransactions_sponsorOf (structure : MonolineCommissionStructure)
    (buyer : User) (b : string) (price : Q) (allUsers : list User) :
  sponsorTransactions structure buyer b price allUsers =
  match sponsorOf allUsers buyer with
  | Some sponsor =>
      [ {| buyerId := b;
           tx_productPrice := price;
           commissionType := direct_sponsor;
           recipientId := id sponsor;
           level := None;
           tx_percentage := percentage (directSponsorBonus structure);
           tx_amount := amount (directSponsorBonus structure);
           status := pending |} ]
  | None => []
  end.
Proof.
  unfold sponsorTransactions, sponsorOf.
  destruct (sponsorId buyer) as [sid|]; [|reflexivity].
  destruct (truthy_str sid); reflexivity.
Qed.

Lemma wellFormed_incl (b : string) (price : Q) (us us' : list User)
    (t : MonolineCommissionTransaction) :
  (forall u, In u us -> In u us') ->
  wellFormed b price us t -> wellFormed b price us' t.
Proof.
  intros Hincl (H1 & H2 & H3 & u & Hin & Hu).
  repeat split; try assumption. exists u. split; [now apply Hincl|exact Hu].
Qed.

Lemma depthStep_emits (structure : MonolineCommissionStructure)
    (b : string) (price : Q)
    (acc : list MonolineCommissionTransaction * Q) (i : nat) (u : User) :
  exists l,
    fst (depthStep structure b price acc (i, u)) = fst acc ++ l
    /\ (length l <= 1)%nat
    /\ Forall (wellFormed b price [u]) l.
Proof.
  unfold depthStep.
  destruct (nth_error (depthLevels structure) i) as [[lvl lb]|].
  - destruct (isFullyActive (checkUserActivity u None)).
    + eexists. split; [reflexivity|]. split; [simpl; lia|].
      constructor; [|constructor].
      repeat split. exists u. split; [now left|reflexivity].
    + exists []. cbn [fst]. rewrite app_nil_r. repeat split; auto.
  - exists []. rewrite app_nil_r. repeat split; auto.
Qed.

Lemma depthFold_emits (structure : MonolineCommissionStructure)
    (b : string) (price : Q) (chain : list User) :
  forall (k : nat) (acc : list MonolineCommissionTransaction * Q),
  exists l,
    fst (fold_left (depthStep structure b price)
                   (combine (seq k (length chain)) chain) acc)
    = fst acc ++ l
    /\ (length l <= length chain)%nat
    /\ Forall (wellFormed b price chain) l.
Proof.
  induction chain as [|u chain IH]; intros k acc.
  - exists []. cbn. rewrite app_nil_r. repeat split; auto.
  - cbn [length seq combine fold_left].
    destruct (depthStep_emits structure b price acc k u) as (l1 & E1 & L1 & F1).
    destruct (IH (S k) (depthStep structure b price acc (k, u)))
      as (l2 & E2 & L2 & F2).
    exists (l1 ++ l2). rewrite E2, E1, app_assoc. split; [reflexivity|].
    split; [rewrite length_app; simpl; lia|].
    apply Forall_app. split.
    + eapply Forall_impl; [|exact F1]. intros t. apply wellFormed_incl.
      intros x [<-|[]]. now left.
    + eapply Forall_impl; [|exact F2]. intros t. apply wellFormed_incl.
      intros x Hx. now right.
Qed.

(** X5. A sale produces at most eight transactions: one for the direct
    sponsor and one for each of at most seven upline levels.  Each is
    pending, carries the buyer and the price of the call, and is addressed
    to a member of the directory that was passed in. *)
Theorem monoline_transactions_well_formed
    (b : string) (price : Q) (allUsers : list User)
    (structure : MonolineCommissionStructure) (r : CommissionResult) :
  calculateMonolineCommissions b (Some price) allUsers (Some structure)
  = Return r ->
  (length (transactions r) <= 8)%nat
  /\ Forall (wellFormed b price allUsers) (transactions r).
Proof.
  unfold calculateMonolineCommissions.
  destruct (findById allUsers b) as [buyer|]; [|discriminate].
  unfold indexed.
  destruct (depthFold_emits structure b price
              (getUplineChain buyer allUsers 7) 0
              (sponsorTransactions structure buyer b price allUsers, 0))
    as (l & E & L & F).
  destruct (fold_left _ _ _) as [txs inactive] eqn:Efold.
  intros H. injection H as <-. cbn [transactions].
  cbn [fst] in E. subst txs.
  pose proof (getUplineChain_length buyer allUsers 7) as L7.
  rewrite sponsorTransactions_sponsorOf.
  destruct (sponsorOf allUsers buyer) as [s|] eqn:Es.
  - split; [rewrite length_app; simpl; lia|].
    apply Forall_app. split.
    + constructor; [|constructor]. repeat split.
      exists s. split; [now apply sponsorOf_found in Es|reflexivity].
    + eapply Forall_impl; [|exact F]. intros t. apply wellFormed_incl.
      apply getUplineChain_members.
  - split; [simpl; lia|]. simpl.
    eapply Forall_impl; [|exact F]. intros t. apply wellFormed_incl.
    apply getUplineChain_members.
Qed.

Lemma monoline_transactions_well_formed_witness :
  exists r,
    calculateMonolineCommissions "b" (Some 20) sampleLine
      (Some getDefaultCommissionStructure) = Return r
    /\ (length (transactions r) <= 8)%nat
    /\ Forall (wellFormed "b" 20 sampleLine) (transactions r).
Proof.
  eexists. split; [reflexivity|].
  apply (monoline_transactions_well_formed "b" 20 sampleLine
           getDefaultCommissionStructure).
  reflexivity.
Defined.

Lemma depthStep_active_first (structure : MonolineCommissionStructure)
    (b : string) (price : Q)
    (acc : list MonolineCommissionTransaction * Q) (u : User) :
  fullyActive u = true ->
  depthStep structure b price acc (0%nat, u)
  = (fst acc ++
       [ {| buyerId := b;
            tx_productPrice := price;
            commissionType := depth_level 1;
            recipientId := id u;
            level := Some 1%nat;
            tx_percentage := percentage (level1 (depthCommissions structure));
            tx_amount := amount (level1 (depthCommissions structure));
            status := pending |} ],
     snd acc).
Proof.
  unfold fullyActive, depthStep. cbn [nth_error depthLevels].
  now intros ->.
Qed.

Lemma monoline_sponsor_transactions
    (b : string) (price : Q) (allUsers : list User)
    (structure : MonolineCommissionStructure) (buyer sponsor : User) :
  findById allUsers b = Some buyer ->
  sponsorOf allUsers buyer = Some sponsor ->
  fullyActive sponsor = true ->
  exists (r : CommissionResult) (rest : list MonolineCommissionTransaction),
    calculateMonolineCommissions b (Some price) allUsers (Some structure)
    = Return r
    /\ transactions r
       = {| buyerId := b;
            tx_productPrice := price;
            commissionType := direct_sponsor;
            recipientId := id sponsor;
            level := None;
            tx_percentage := percentage (directSponsorBonus structure);
            tx_amount := amount (directSponsorBonus structure);
            status := pending |}
         :: {| buyerId := b;
               tx_productPrice := price;
               commissionType := depth_level 1;
               recipientId := id sponsor;
               level := Some 1%nat;
               tx_percentage :=
                 percentage (level1 (depthCommissions structure));
               tx_amount := amount (level1 (depthCommissions structure));
               status := pending |}
         :: rest
    /\ Forall (wellFormed b price (getUplineChain sponsor allUsers 6)) rest.
Proof.
  intros Hb Hs Hact. unfold calculateMonolineCommissions. rewrite Hb.
  rewrite sponsorTransactions_sponsorOf, Hs.
  change 7%nat with (S 6). rewrite getUplineChain_step, Hs.
  unfold indexed. cbn [length seq combine fold_left].
  rewrite (depthStep_active_first structure b price _ sponsor Hact).
  cbn [fst snd app].
  match goal with
  | |- context [fold_left ?f ?l ?a] =>
      destruct (depthFold_emits structure b price
                  (getUplineChain sponsor allUsers 6) 1 a) as (l' & E & _ & F)
  end.
  destruct (fold_left _ _ _) as [txs inactive] eqn:Efold.
  cbn [fst] in E. subst txs.
  eexists. exists l'. split; [reflexivity|]. split; [reflexivity|exact F].
Qed.

(** X6. A fully active direct sponsor is paid twice for one sale: the
    list of transactions opens with the direct sponsor bonus and goes on
    with the first depth level, both addressed to the sponsor (3.00 and
    2.50 with the default structure). *)
Theorem monoline_sponsor_paid_twice
    (b : string) (price : Q) (allUsers : list User)
    (structure : MonolineCommissionStructure) (buyer sponsor : User) :
  findById allUsers b = Some buyer ->
  sponsorOf allUsers buyer = Some sponsor ->
  fullyActive sponsor = true ->
  exists (r : CommissionResult) (rest : list MonolineCommissionTransaction),
    calculateMonolineCommissions b (Some price) allUsers (Some structure)
    = Return r
    /\ transactions r
       = {| buyerId := b;
            tx_productPrice := price;
            commissionType := direct_sponsor;
            recipientId := id sponsor;
            level := None;
            tx_percentage := percentage (directSponsorBonus structure);
            tx_amount := amount (directSponsorBonus structure);
            status := pending |}
         :: {| buyerId := b;
               tx_productPrice := price;
               commissionType := depth_level 1;
               recipientId := id sponsor;
               level := Some 1%nat;
               tx_percentage :=
                 percentage (level1 (depthCommissions structure));
               tx_amount := amount (level1 (depthCommissions structure));
               status := pending |}
         :: rest.
Proof.
  intros Hb Hs Hact.
  destruct (monoline_sponsor_transactions b price allUsers structure
              buyer sponsor Hb Hs Hact) as (r & rest & Hr & Ht & _).
  now exists r, rest.
Qed.

Lemma monoline_sponsor_paid_twice_witness :
  exists (r : CommissionResult) (rest : list MonolineCommissionTransaction),
    calculateMonolineCommissions "b" (Some 20) sampleLine
      (Some getDefaultCommissionStructure) = Return r
    /\ map (fun t => (recipientId t, tx_amount t)) (transactions r)
       = ("s1"%string, 3) :: ("s1"%string, 250 # 100)
         :: map (fun t => (recipientId t, tx_amount t)) rest.
Proof.
  destruct (monoline_sponsor_paid_twice "b" 20 sampleLine
              getDefaultCommissionStructure
              (activeMember "b" (Some "s1"%string))
              (activeMember "s1" (Some "s2"%string))
              eq_refl eq_refl eq_refl) as (r & rest & Hr & Ht).
  exists r, rest. split; [exact Hr|]. rewrite Ht. reflexivity.
Defined.

Lemma depthStep_price (structure : MonolineCommissionStructure)
    (b : string) (p1 p2 : Q)
    (a1 a2 : list MonolineCommissionTransaction * Q) (e : nat * User) :
  map tx_amount (fst a1) = map tx_amount (fst a2) ->
  map recipientId (fst a1) = map recipientId (fst a2) ->
  snd a1 = snd a2 ->
  let r1 := depthStep structure b p1 a1 e in
  let r2 := depthStep structure b p2 a2 e in
  map tx_amount (fst r1) = map tx_amount (fst r2)
  /\ map recipientId (fst r1) = map recipientId (fst r2)
  /\ snd r1 = snd r2.
Proof.
  intros Ha Hr Hs. destruct e as [i u]. unfold depthStep.
  destruct (nth_error (depthLevels structure) i) as [[lvl lb]|];
    [|now repeat split].
  destruct (isFullyActive (checkUserActivity u None)); cbn [fst snd].
  - rewrite !map_app, Ha, Hr. now repeat split.
  - rewrite Hs. now repeat split.
Qed.

Lemma depthFold_price (structure : MonolineCommissionStructure)
    (b : string) (p1 p2 : Q) (es : list (nat * User)) :
  forall a1 a2 : list MonolineCommissionTransaction * Q,
    map tx_amount (fst a1) = map tx_amount (fst a2) ->
    map recipientId (fst a1) = map recipientId (fst a2) ->
    snd a1 = snd a2 ->
    let r1 := fold_left (depthStep structure b p1) es a1 in
    let r2 := fold_left (depthStep structure b p2) es a2 in
    map tx_amount (fst r1) = map tx_amount (fst r2)
    /\ map recipientId (fst r1) = map recipientId (fst r2)
    /\ snd r1 = snd r2.
Proof.
  induction es as [|e es IH]; intros a1 a2 Ha Hr Hs; [now repeat split|].
  cbn [fold_left].
  destruct (depthStep_price structure b p1 p2 a1 a2 e Ha Hr Hs)
    as (Ha' & Hr' & Hs').
  now apply IH.
Qed.

Lemma sumAmounts_map (txs : list MonolineCommissionTransaction) :
  sumAmounts txs = fold_left Qplus (map tx_amount txs) 0.
Proof.
  unfold sumAmounts. generalize 0.
  induction txs as [|t txs IH]; intros q; [reflexivity|].
  cbn [fold_left map]. apply IH.
Qed.

(** X7. The price of the product never enters the amounts: two sales by
    the same buyer in the same directory under the same structure pay the
    same amounts to the same recipients and leave the same totals,
    whatever the two prices are; a sale at 100 pays what a sale at 20
    pays. *)
Theorem monoline_amounts_ignore_price
    (b : string) (p1 p2 : Q) (allUsers : list User)
    (structure : option MonolineCommissionStructure) :
  match calculateMonolineCommissions b (Some p1) allUsers structure,
        calculateMonolineCommissions b (Some p2) allUsers structure with
  | Return r1, Return r2 =>
      map tx_amount (transactions r1) = map tx_amount (transactions r2)
      /\ map recipientId (transactions r1)
         = map recipientId (transactions r2)
      /\ totalDistributed r1 = totalDistributed r2
      /\ passivePoolAmount r1 = passivePoolAmount r2
      /\ companyFundAmount r1 = companyFundAmount r2
  | Throw m1, Throw m2 => m1 = m2
  | _, _ => False
  end.
Proof.
  unfold calculateMonolineCommissions.
  destruct (findById allUsers b) as [buyer|]; [|reflexivity].
  set (s := match structure with
            | Some s => s
            | None => getDefaultCommissionStructure
            end).
  pose proof (depthFold_price s b p1 p2
                (indexed (getUplineChain buyer allUsers 7))
                (sponsorTransactions s buyer b p1 allUsers, 0)
                (sponsorTransactions s buyer b p2 allUsers, 0)) as H.
  cbv zeta in H.
  destruct (fold_left (depthStep s b p1) _ _) as [t1 i1].
  destruct (fold_left (depthStep s b p2) _ _) as [t2 i2].
  cbn [fst snd] in H.
  destruct H as (Ha & Hr & Hs).
  - rewrite !sponsorTransactions_sponsorOf.
    now destruct (sponsorOf allUsers buyer).
  - rewrite !sponsorTransactions_sponsorOf.
    now destruct (sponsorOf allUsers buyer).
  - reflexivity.
  - cbn [transactions totalDistributed passivePoolAmount companyFundAmount].
    rewrite !sumAmounts_map, Ha, Hs. now repeat split.
Qed.

(** ** Monoline engine: membership and activity *)

(** X8. The validation of a first purchase and the activity evaluator
    agree: an amount passes [validateInitialMembership] exactly when a
    member with that amount as total investment has the initial purchase
    in [checkUserActivity], whatever the sales figures. *)
Theorem validateInitialMembership_agrees_with_activity
    (user : User) (salesData : option SalesData) :
  isValid (validateInitialMembership (totalInvestment user))
  = hasInitialPurchase (checkUserActivity user salesData).
Proof.
  unfold validateInitialMembership, checkUserActivity, checkUserActivityWith.
  cbn [isValid hasInitialPurchase]. unfold initialOf, or_num.
  destruct (truthy_num (totalInvestment user)) eqn:E; [reflexivity|].
  apply geq_compat. now apply truthy_num_false.
Qed.

(** ** Monoline engine: network statistics *)

Lemma filter_length_le_all {A : Type} (p : A -> bool) (l : list A) :
  (length (filter p l) <= length l)%nat.
Proof.
  induction l as [|x l IH]; [simpl; lia|].
  simpl. destruct (p x); simpl; lia.
Qed.

Lemma filter_length_le_impl {A : Type} (p q : A -> bool) (l : list A) :
  (forall x, p x = true -> q x = true) ->
  (length (filter p l) <= length (filter q l))%nat.
Proof.
  intros H. induction l as [|x l IH]; [simpl; lia|].
  simpl. destruct (p x) eqn:E.
  - rewrite (H x E). simpl. lia.
  - destruct (q x); simpl; lia.
Qed.

Lemma tally_fold (users : list User) :
  forall t : Tally,
    let t' := fold_left tallyStep users t in
    tallyActive t' = (tallyActive t + length (filter fullyActive users))%nat
    /\ tallyMonthly t'
       = (tallyMonthly t
          + length (filter (fun u => isMonthlyActive
                                       (checkUserActivity u None)) users))%nat
    /\ tallyAnnual t'
       = (tallyAnnual t
          + length (filter (fun u => isAnnuallyActive
                                       (checkUserActivity u None)) users))%nat.
Proof.
  induction users as [|u users IH]; intros t.
  - cbn. repeat split; lia.
  - cbn [fold_left filter]. cbv zeta in IH.
    destruct (IH (tallyStep t u)) as (Ha & Hm & Hy).
    rewrite Ha, Hm, Hy. unfold tallyStep, fullyActive.
    cbn [tallyActive tallyMonthly tallyAnnual].
    destruct (isFullyActive (checkUserActivity u None));
      destruct (isMonthlyActive (checkUserActivity u None));
      destruct (isAnnuallyActive (checkUserActivity u None));
      cbn [length]; repeat split; lia.
Qed.

Lemma allDepths_total (n : nat) (allUsers : list User) :
  forall users : list User,
    Forall (fun u => (length (getUplineChain u allUsers n) < n)%nat) users ->
    allDepths n users allUsers
    = Some (map (fun u => length (getUplineChain u allUsers n)) users).
Proof.
  induction users as [|u users IH]; intros H; [reflexivity|].
  inversion H as [|? ? Hu Hrest]; subst.
  cbn [allDepths map].
  rewrite (calculateUserDepth_counts_upline_aux u allUsers n Hu).
  now rewrite (IH Hrest).
Qed.

Lemma fullyActive_monthly (u : User) :
  fullyActive u = true -> isMonthlyActive (checkUserActivity u None) = true.
Proof.
  unfold fullyActive, checkUserActivity, checkUserActivityWith.
  cbn [isFullyActive isMonthlyActive]. intros H.
  apply andb_prop in H as [H _]. now apply andb_prop in H as [H _].
Qed.

Lemma fullyActive_annually (u : User) :
  fullyActive u = true -> isAnnuallyActive (checkUserActivity u None) = true.
Proof.
  unfold fullyActive, checkUserActivity, checkUserActivityWith.
  cbn [isFullyActive isAnnuallyActive]. intros H.
  apply andb_prop in H as [H _]. now apply andb_prop in H as [_ H].
Qed.

(** X9. For a directory whose sponsor links all end within [n] levels
    the statistics come back, and their counters are consistent: the
    active members are the fully active ones, as counted by the passive
    pool split; they are at most the monthly active and at most the
    annually active members, which are at most all members.  The total
    volume is the annual volume; the monthly volume divided by 20, the
    estimated number of sales, gives the passive pool estimate when
    multiplied by 0.1 and the company fund estimate when multiplied by
    9; and the average depth is missing exactly for the empty
    directory. *)
Theorem getMonolineNetworkStats_counts (n : nat) (users : list User) :
  Forall (fun u => (length (getUplineChain u users n) < n)%nat) users ->
  exists s : NetworkStats,
    getMonolineNetworkStats n users = Some s
    /\ totalMembers s = length users
    /\ statsActiveMembers s = length (filter fullyActive users)
    /\ (statsActiveMembers s <= monthlyActiveMembers s)%nat
    /\ (monthlyActiveMembers s <= totalMembers s)%nat
    /\ (statsActiveMembers s <= annuallyActiveMembers s)%nat
    /\ (annuallyActiveMembers s <= totalMembers s)%nat
    /\ totalVolume s = annualVolume s
    /\ statsPassiveIncomePool s = monthlyVolume s / 20 * (1 # 10)
    /\ statsCompanyFund s = monthlyVolume s / 20 * 9
    /\ (avgDepth s = None <-> users = []).
Proof.
  intros H. unfold getMonolineNetworkStats.
  rewrite (allDepths_total n users users H).
  eexists. split; [reflexivity|].
  cbn [totalMembers statsActiveMembers monthlyActiveMembers
       annuallyActiveMembers totalVolume annualVolume monthlyVolume
       statsCompanyFund statsPassiveIncomePool avgDepth].
  destruct (tally_fold users
              {| tallyActive := 0; tallyMonthly := 0; tallyAnnual := 0;
                 tallyMonthlyVolume := 0; tallyAnnualVolume := 0 |})
    as (Ha & Hm & Hy).
  cbv zeta in Ha, Hm, Hy. rewrite Ha, Hm, Hy.
  cbn [tallyActive tallyMonthly tallyAnnual Nat.add].
  split; [reflexivity|]. split; [reflexivity|].
  split; [apply filter_length_le_impl, fullyActive_monthly|].
  split; [apply filter_length_le_all|].
  split; [apply filter_length_le_impl, fullyActive_annually|].
  split; [apply filter_length_le_all|].
  split; [reflexivity|].
  split; [reflexivity|]. split; [reflexivity|].
  destruct users as [|u users]; cbn [map]; split; intros E;
    try reflexivity; discriminate E.
Qed.

Lemma getMonolineNetworkStats_counts_witness :
  exists s : NetworkStats,
    getMonolineNetworkStats 8 sampleLine = Some s
    /\ totalMembers s = 8%nat
    /\ statsActiveMembers s = 6%nat
    /\ (statsActiveMembers s <= monthlyActiveMembers s)%nat.
Proof.
  destruct (getMonolineNetworkStats_counts 8 sampleLine)
    as (s & Hs & Ht & Ha & Hm & _).
  - unfold sampleLine. repeat constructor.
  - exists s. split; [exact Hs|]. split; [exact Ht|].
    split; [rewrite Ha; reflexivity|exact Hm].
Defined.

Lemma insertByVolume_perm (x : Performer) (l : list Performer) :
  Permutation (insertByVolume x l) (x :: l).
Proof.
  induction l as [|y l IH]; [apply Permutation_refl|].
  cbn [insertByVolume].
  destruct (Qle_bool (performerAnnualVolume y) (performerAnnualVolume x)).
  - apply Permutation_refl.
  - eapply perm_trans; [apply perm_skip, IH | apply perm_swap].
Qed.

Lemma sortByVolume_perm (l : list Performer) :
  Permutation (sortByVolume l) l.
Proof.
  induction l as [|x l IH]; [apply perm_nil|].
  unfold sortByVolume in *. cbn [fold_right].
  eapply perm_trans; [apply insertByVolume_perm | now apply perm_skip].
Qed.

Lemma insertByVolume_sorted (x : Performer) (l : list Performer) :
  StronglySorted byAnnualVolume l ->
  StronglySorted byAnnualVolume (insertByVolume x l).
Proof.
  induction l as [|y l IH]; intros Hs.
  - repeat constructor.
  - cbn [insertByVolume]. inversion Hs as [|? ? Hl Hy]; subst.
    destruct (Qle_bool (performerAnnualVolume y) (performerAnnualVolume x))
      eqn:E.
    + apply Qle_bool_iff in E. constructor; [exact Hs|].
      constructor; [exact E|].
      eapply Forall_impl; [|exact Hy]. intros z Hz.
      unfold byAnnualVolume in *.
      now apply Qle_trans with (performerAnnualVolume y).
    + constructor; [now apply IH|].
      assert (Hxy : byAnnualVolume y x).
      { unfold byAnnualVolume. apply Qlt_le_weak, Qnot_le_lt.
        intros Hle. apply Qle_bool_iff in Hle. congruence. }
      eapply Permutation_Forall;
        [apply Permutation_sym, insertByVolume_perm|].
      now constructor.
Qed.

Lemma sortByVolume_sorted (l : list Performer) :
  StronglySorted byAnnualVolume (sortByVolume l).
Proof.
  induction l as [|x l IH]; [constructor|].
  unfold sortByVolume in *. cbn [fold_right].
  now apply insertByVolume_sorted.
Qed.

(** X10. The top performers are the members in the order of decreasing
    annual sales volume, cut after ten: the list together with the
    members left out is a rearrangement of all members that is sorted by
    decreasing annual volume, and it has ten entries, or as many as there
    are members when these are fewer. *)
Theorem topPerformers_ranked
    (fuel : nat) (users : list User) (s : NetworkStats) :
  getMonolineNetworkStats fuel users = Some s ->
  exists rest : list Performer,
    Permutation (topPerformers s ++ rest) (map performerOf users)
    /\ StronglySorted byAnnualVolume (topPerformers s ++ rest)
    /\ length (topPerformers s) = Nat.min 10 (length users).
Proof.
  unfold getMonolineNetworkStats.
  destruct (allDepths fuel users users) as [depths|]; [|discriminate].
  intros H.
  assert (Ht : topPerformers s
               = firstn 10 (sortByVolume (map performerOf users)))
    by (injection H as <-; reflexivity).
  rewrite Ht.
  exists (skipn 10 (sortByVolume (map performerOf users))).
  rewrite firstn_skipn. split; [apply sortByVolume_perm|].
  split; [apply sortByVolume_sorted|].
  rewrite length_firstn.
  rewrite (Permutation_length (sortByVolume_perm (map performerOf users))).
  now rewrite length_map.
Qed.

Lemma topPerformers_ranked_witness :
  exists (s : NetworkStats) (rest : list Performer),
    getMonolineNetworkStats 8 sampleLine = Some s
    /\ Permutation (topPerformers s ++ rest) (map performerOf sampleLine)
    /\ length (topPerformers s) = 8%nat.
Proof.
  eexists.
  destruct (topPerformers_ranked 8 sampleLine _ eq_refl)
    as (rest & Hp & _ & Hl).
  exists rest. split; [reflexivity|]. split; [exact Hp|exact Hl].
Defined.

(** ** Monoline engine: simulation of a sale *)

Lemma loopTurns_spec (units : Q) (i : nat) :
  (i < loopTurns units)%nat <-> ofNat i < units.
Proof.
  unfold loopTurns, ofNat. split; intros H.
  - apply Qle_lt_trans with (inject_Z (Qceiling units - 1)).
    + rewrite <- Zle_Qle. lia.
    + apply Qceiling_lt.
  - assert (Hc : inject_Z (Z.of_nat i) < inject_Z (Qceiling units)).
    { eapply Qlt_le_trans; [exact H | apply Qle_ceiling]. }
    rewrite <- Zlt_Qlt in Hc. lia.
Qed.

Lemma distinct_spec (xs : list string) :
  forall seen : list string,
    NoDup (distinct seen xs)
    /\ forall x, In x (distinct seen xs) <-> In x xs /\ ~ In x seen.
Proof.
  induction xs as [|y xs IH]; intros seen.
  - split; [constructor|]. intros x. simpl. tauto.
  - cbn [distinct]. destruct (existsb (String.eqb y) seen) eqn:E.
    + destruct (IH seen) as [Hn Hi]. split; [exact Hn|].
      intros x. rewrite Hi. split.
      * intros [H1 H2]. split; [now right|exact H2].
      * intros [[<-|H1] H2]; [|now split].
        exfalso. apply H2. apply existsb_exists in E.
        destruct E as (z & Hz & Hyz). apply String.eqb_eq in Hyz.
        now subst z.
    + destruct (IH (y :: seen)) as [Hn Hi]. split.
      * constructor; [|exact Hn]. intros Hy. apply Hi in Hy.
        apply (proj2 Hy). now left.
      * intros x. cbn [In]. rewrite Hi. cbn [In]. split.
        -- intros [<-|[H1 H2]].
           ++ split; [now left|]. intros Hy.
              assert (existsb (String.eqb y) seen = true) as Ht.
              { apply existsb_exists. exists y. split; [exact Hy|].
                apply String.eqb_refl. }
              congruence.
           ++ split; [now right|]. intros Hx. apply H2. now right.
        -- intros [[<-|H1] H2]; [now left|].
           destruct (string_dec y x) as [<-|Hne]; [now left|].
           right. split; [exact H1|]. intros [Hx|Hx]; [now apply Hne|].
           now apply H2.
Qed.

(** X11. A simulated sale takes any number of units: the sale amount is
    that number times 20, and the loop over the units takes one turn for
    every [i = 0, 1, 2, ...] below the number, so part of a unit counts
    as a whole turn and a number that is not positive gives no turn.
    The company revenue, which the breakdown repeats as its company
    fund, is the company fund of one sale, withheld commissions
    included, added to 0 once per turn.  The affected users are the
    recipients of the transactions, each listed once. *)
Theorem simulateSalesTransaction_totals
    (b : string) (units : Q) (allUsers : list User)
    (r : CommissionResult) :
  calculateMonolineCommissions b (Some 20) allUsers None = Return r ->
  exists (s : Simulation) (turns : nat),
    simulateSalesTransaction b (Some units) allUsers = Return s
    /\ saleAmount s = units * 20
    /\ (forall i : nat, (i < turns)%nat <-> ofNat i < units)
    /\ companyRevenue s = addTimes turns 0 (companyFundAmount r)
    /\ breakdownCompanyFund (commissionBreakdown s) = companyRevenue s
    /\ NoDup (affectedUsers s)
    /\ (forall x, In x (affectedUsers s)
                  <-> In x (map recipientId (transactions r))).
Proof.
  intros H. unfold simulateSalesTransaction. rewrite H.
  eexists. exists (loopTurns units). split; [reflexivity|].
  cbn [companyRevenue commissionBreakdown breakdownCompanyFund
       saleAmount affectedUsers].
  split; [reflexivity|].
  split; [intros i; apply loopTurns_spec|].
  split; [reflexivity|]. split; [reflexivity|].
  destruct (distinct_spec (map recipientId (transactions r)) []) as [Hn Hi].
  split; [exact Hn|].
  intros x. rewrite Hi. cbn [In]. tauto.
Qed.

Lemma simulateSalesTransaction_totals_witness :
  exists (s : Simulation) (r : CommissionResult),
    simulateSalesTransaction "b" (Some (5 # 2)) sampleLine = Return s
    /\ saleAmount s == 50
    /\ companyRevenue s
       = 0 + companyFundAmount r + companyFundAmount r + companyFundAmount r
    /\ affectedUsers s
       = [ "s1"; "s2"; "s4"; "s5"; "s7" ]%string.
Proof.
  destruct (simulateSalesTransaction_totals "b" (5 # 2) sampleLine _ eq_refl)
    as (s & turns & Hs & Hsale & Hturns & Hrev & _).
  assert (Ht : turns = 3%nat).
  { destruct (Nat.lt_trichotomy turns 3) as [Hlt | [Heq | Hgt]];
      [| exact Heq |].
    - exfalso. assert (H2 : (2 < turns)%nat)
        by (apply Hturns; reflexivity). lia.
    - exfalso. assert (H3 : ofNat 3 < 5 # 2) by (apply Hturns; lia).
      vm_compute in H3. discriminate H3. }
  subst turns. exists s. eexists.
  split; [exact Hs|]. split; [rewrite Hsale; reflexivity|].
  split; [exact Hrev|].
  vm_compute in Hs. injection Hs as <-. reflexivity.
Defined.

(** ** Package purchases ([CommissionService]) *)

Section PackageCommissions.

Import CommissionService.

Lemma getSponsorChain_step (user : User) (allUsers : list User) (n : nat) :
  getSponsorChain user allUsers (S n) =
  match sponsorOf allUsers user with
  | Some sponsor => sponsor :: getSponsorChain sponsor allUsers n
  | None => []
  end.
Proof.
  unfold sponsorOf. simpl. destruct (sponsorId user) as [sid|]; [|reflexivity].
  destruct (truthy_str sid); reflexivity.
Qed.

Lemma getSponsorChain_length (allUsers : list User) (n : nat) :
  forall user, (length (getSponsorChain user allUsers n) <= n)%nat.
Proof.
  induction n as [|n IH]; intros user; [simpl; lia|].
  rewrite getSponsorChain_step.
  destruct (sponsorOf allUsers user) as [s|]; [|simpl; lia].
  cbn [length]. specialize (IH s). lia.
Qed.

Lemma sponsorCommissions_sponsorOf (purchasingUser : User)
    (membershipPackage : MembershipPackage) (allUsers : list User) :
  sponsorCommissions purchasingUser membershipPackage allUsers =
  match sponsorOf allUsers purchasingUser with
  | Some sponsor =>
      [ {| commissionUserId := id sponsor;
           commissionKind := kind_sponsor;
           commissionAmount := price membershipPackage * (10 # 100);
           commissionPercentage := 10;
           sourceUserId := id purchasingUser;
           sourcePackage := packageId membershipPackage;
           commissionLevel := 1 |} ]
  | None => []
  end.
Proof.
  unfold sponsorCommissions, sponsorOf.
  destruct (sponsorId purchasingUser) as [sid|]; [|reflexivity].
  destruct (truthy_str sid); reflexivity.
Qed.

Lemma getSponsorChain_members (allUsers : list User) (n : nat) :
  forall user, Forall (fun u => In u allUsers)
                      (getSponsorChain user allUsers n).
Proof.
  induction n as [|n IH]; intros user; [constructor|].
  rewrite getSponsorChain_step.
  destruct (sponsorOf allUsers user) as [s|] eqn:E; [|constructor].
  constructor; [now apply sponsorOf_found in E | apply IH].
Qed.

Lemma careerStep_fold (P : CommissionCalculation -> Prop)
    (purchasingUser : User) (membershipPackage : MembershipPackage)
    (allUsers : list User) :
  (forall (index : nat) (sponsor : User) (rate : Q),
      In sponsor allUsers ->
      nth_error careerCommissionRates index = Some rate ->
      P {| commissionUserId := id sponsor;
           commissionKind := kind_career;
           commissionAmount := price membershipPackage * rate;
           commissionPercentage := rate * 100;
           sourceUserId := id purchasingUser;
           sourcePackage := packageId membershipPackage;
           commissionLevel := index + 2 |}) ->
  forall (entries : list (nat * User)) (commissions : list CommissionCalculation),
    Forall (fun e => In (snd e) allUsers) entries ->
    Forall P commissions ->
    Forall P (fold_left (careerStep purchasingUser membershipPackage)
                        entries commissions)
    /\ (length (fold_left (careerStep purchasingUser membershipPackage)
                          entries commissions)
        <= length commissions + length entries)%nat.
Proof.
  intros HP entries.
  induction entries as [|[index sponsor] entries IH];
    intros commissions He Hc.
  - cbn. split; [exact Hc | lia].
  - inversion He as [|? ? Hs Hrest]; subst. cbn [fold_left snd] in *.
    unfold careerStep at 2 4.
    destruct (nth_error careerCommissionRates index) as [rate|] eqn:E.
    + destruct (IH (commissions ++
                      [ {| commissionUserId := id sponsor;
                           commissionKind := kind_career;
                           commissionAmount := price membershipPackage * rate;
                           commissionPercentage := rate * 100;
                           sourceUserId := id purchasingUser;
                           sourcePackage := packageId membershipPackage;
                           commissionLevel := index + 2 |} ]) Hrest)
        as [H1 H2].
      * apply Forall_app. split; [exact Hc|].
        constructor; [now apply HP | constructor].
      * split; [exact H1|]. rewrite length_app in H2. cbn [length] in *. lia.
    + destruct (IH commissions Hrest Hc) as [H1 H2].
      split; [exact H1|]. cbn [length]. lia.
Qed.

Lemma indexed_members {A : Type} (P : A -> Prop) (xs : list A) :
  Forall P xs ->
  Forall (fun e => P (snd e)) (MonolineCommissionService.indexed xs)
  /\ length (MonolineCommissionService.indexed xs) = length xs.
Proof.
  unfold MonolineCommissionService.indexed. intros H.
  generalize 0%nat. induction H as [|x xs Hx Hxs IH]; intros k.
  - cbn. split; [constructor | reflexivity].
  - cbn [length seq combine]. destruct (IH (S k)) as [H1 H2].
    split; [constructor; [exact Hx | exact H1] | now rewrite H2].
Qed.

(** X12. A package purchase gives the upline at most six commissions,
    followed by one entry for the buyer, the package bonus.  Every
    commission of the upline names the buyer and the package as its
    source, is addressed to a member of the directory, and is either the
    sponsor commission, the price multiplied by 0.10, or a career
    commission, the price multiplied by one of the five career rates. *)
Theorem package_purchase_upline_share
    (purchasingUser : User) (membershipPackage : MembershipPackage)
    (allUsers : list User) :
  exists uplineEntries : list CommissionCalculation,
    calculatePackagePurchaseCommissions purchasingUser membershipPackage
                                        allUsers
    = uplineEntries ++
        [ {| commissionUserId := id purchasingUser;
             commissionKind := kind_passive;
             commissionAmount :=
               price membershipPackage
               * (bonusPercentage membershipPackage / 100);
             commissionPercentage := bonusPercentage membershipPackage;
             sourceUserId := id purchasingUser;
             sourcePackage := packageId membershipPackage;
             commissionLevel := 0 |} ]
    /\ (length uplineEntries <= 6)%nat
    /\ Forall
         (fun c =>
            sourceUserId c = id purchasingUser
            /\ sourcePackage c = packageId membershipPackage
            /\ (exists u, In u allUsers /\ commissionUserId c = id u)
            /\ ((commissionKind c = kind_sponsor
                 /\ commissionAmount c
                    = price membershipPackage * (10 # 100))
                \/ (commissionKind c = kind_career
                    /\ exists rate : Q,
                         In rate careerCommissionRates
                         /\ commissionAmount c
                            = price membershipPackage * rate)))
         uplineEntries.
Proof.
  unfold calculatePackagePurchaseCommissions.
  eexists. split; [reflexivity|].
  set (P := fun c : CommissionCalculation => _ /\ _).
  pose proof (getSponsorChain_members allUsers 5 purchasingUser) as Hm.
  pose proof (getSponsorChain_length allUsers 5 purchasingUser) as Hl.
  destruct (indexed_members (fun u => In u allUsers) _ Hm) as [Hi Hil].
  assert (H0 : Forall P (sponsorCommissions purchasingUser membershipPackage
                                            allUsers)
               /\ (length (sponsorCommissions purchasingUser membershipPackage
                                              allUsers) <= 1)%nat).
  { rewrite sponsorCommissions_sponsorOf.
    destruct (sponsorOf allUsers purchasingUser) as [s|] eqn:E;
      [|split; [constructor | cbn; lia]].
    apply sponsorOf_found in E as [Hin _].
    split; [|cbn; lia]. constructor; [|constructor].
    unfold P. cbn. repeat split; try reflexivity.
    - now exists s.
    - left. split; reflexivity. }
  destruct H0 as [H0 H0l].
  assert (HP : forall (index : nat) (sponsor : User) (rate : Q),
             In sponsor allUsers ->
             nth_error careerCommissionRates index = Some rate ->
             P {| commissionUserId := id sponsor;
                  commissionKind := kind_career;
                  commissionAmount := price membershipPackage * rate;
                  commissionPercentage := rate * 100;
                  sourceUserId := id purchasingUser;
                  sourcePackage := packageId membershipPackage;
                  commissionLevel := index + 2 |}).
  { intros index sponsor rate Hin Hrate. unfold P. cbn.
    repeat split; try reflexivity.
    - now exists sponsor.
    - right. split; [reflexivity|]. exists rate. split; [|reflexivity].
      exact (nth_error_In careerCommissionRates index Hrate). }
  destruct (careerStep_fold P purchasingUser membershipPackage allUsers HP
              (MonolineCommissionService.indexed
                 (getSponsorChain purchasingUser allUsers 5))
              (sponsorCommissions purchasingUser membershipPackage allUsers)
              Hi H0) as [H1 H2].
  split; [lia | exact H1].
Qed.

(** X13. The direct sponsor of the buyer is paid twice for a package: the
    list of commissions opens with the sponsor commission of 10 percent
    and goes on with the first career commission of 5 percent, labelled
    level 2, both addressed to the sponsor. *)
Theorem package_purchase_sponsor_paid_twice
    (purchasingUser sponsor : User) (membershipPackage : MembershipPackage)
    (allUsers : list User) :
  sponsorOf allUsers purchasingUser = Some sponsor ->
  exists rest : list CommissionCalculation,
    calculatePackagePurchaseCommissions purchasingUser membershipPackage
                                        allUsers
    = {| commissionUserId := id sponsor;
         commissionKind := kind_sponsor;
         commissionAmount := price membershipPackage * (10 # 100);
         commissionPercentage := 10;
         sourceUserId := id purchasingUser;
         sourcePackage := packageId membershipPackage;
         commissionLevel := 1 |}
      :: {| commissionUserId := id sponsor;
            commissionKind := kind_career;
            commissionAmount := price membershipPackage * (5 # 100);
            commissionPercentage := (5 # 100) * 100;
            sourceUserId := id purchasingUser;
            sourcePackage := packageId membershipPackage;
            commissionLevel := 2 |}
      :: rest.
Proof.
  intros Hs. unfold calculatePackagePurchaseCommissions.
  rewrite sponsorCommissions_sponsorOf.
  change 5%nat with (S 4). rewrite getSponsorChain_step, Hs.
  unfold MonolineCommissionService.indexed.
  cbn [length seq combine fold_left].
  unfold careerStep at 2. cbn [nth_error careerCommissionRates app Nat.add].
  match goal with
  | |- context [fold_left ?f ?l ?a] =>
      assert (Hpre : exists more, fold_left f l a = a ++ more)
  end.
  { generalize (seq 1 (length (getSponsorChain sponsor allUsers 4))).
    generalize (getSponsorChain sponsor allUsers 4).
    match goal with |- forall l l0, exists more, fold_left _ _ ?a = _ =>
      generalize a end.
    intros a l. revert a.
    induction l as [|u l IH]; intros a ns.
    - exists []. destruct ns; cbn; now rewrite app_nil_r.
    - destruct ns as [|k ns]; [exists []; cbn; now rewrite app_nil_r|].
      cbn [combine fold_left].
      destruct (IH (careerStep purchasingUser membershipPackage a (k, u)) ns)
        as (more & ->).
      unfold careerStep.
      destruct (nth_error careerCommissionRates k).
      + eexists. rewrite <- app_assoc. reflexivity.
      + now exists more. }
  destruct Hpre as (more & ->).
  eexists. cbn [app]. reflexivity.
Qed.

Lemma package_purchase_sponsor_paid_twice_witness :
  exists rest : list CommissionCalculation,
    map (fun c => (commissionUserId c, commissionAmount c))
        (calculatePackagePurchaseCommissions
           (activeMember "b" (Some "s1"%string))
           {| packageId := "gold"; price := 100; bonusPercentage := 5 |}
           sampleLine)
    = ("s1"%string, 100 * (10 # 100)) :: ("s1"%string, 100 * (5 # 100))
      :: map (fun c => (commissionUserId c, commissionAmount c)) rest.
Proof.
  destruct (package_purchase_sponsor_paid_twice
              (activeMember "b" (Some "s1"%string))
              (activeMember "s1" (Some "s2"%string))
              {| packageId := "gold"; price := 100; bonusPercentage := 5 |}
              sampleLine eq_refl) as (rest & Hr).
  exists rest. rewrite Hr. reflexivity.
Defined.

(** ** Applying package commissions to wallets ([CommissionService]) *)

Lemma filter_without_leadership (k : CommissionKind) (wanted : string)
    (commissions : list CommissionCalculation) :
  k <> kind_leadership ->
  filter (isKind k)
    (filter (fun c => String.eqb (commissionUserId c) wanted)
       (filter (fun c => negb (isKind kind_leadership c)) commissions))
  = filter (isKind k)
      (filter (fun c => String.eqb (commissionUserId c) wanted) commissions).
Proof.
  intros Hk. induction commissions as [|c l IH]; [reflexivity|].
  cbn [filter].
  destruct (isKind kind_leadership c) eqn:El; cbn [negb filter].
  - destruct (String.eqb (commissionUserId c) wanted); [|exact IH].
    cbn [filter].
    assert (E : isKind k c = false).
    { unfold isKind in *. destruct k, (commissionKind c);
        try reflexivity; try discriminate El. now contradiction Hk. }
    now rewrite E.
  - destruct (String.eqb (commissionUserId c) wanted); [|exact IH].
    cbn [filter]. destruct (isKind k c); [now rewrite IH | exact IH].
Qed.

(** X14. [applyCommissionsToWallet] keeps every record in its place and
    leaves the records of other members as they are.  In a record of the
    member named, balance and total earnings are raised by the sum of
    the commissions and then by the sum of the bonuses addressed to that
    member, the leadership bonus by the sum of these bonuses, and the
    sponsor bonus, career bonus and passive income by the sums of these
    commissions of their kind.  A commission of kind leadership reaches
    balance and total earnings only: the four other fields come out the
    same when the commissions of that kind are taken off the list. *)
Theorem applyCommissionsToWallet_accounting
    (wanted : string) (commissions : list CommissionCalculation)
    (bonuses : list BonusCalculation) (users : list User)
    (i : nat) (u : User) :
  nth_error users i = Some u ->
  exists u' : User,
    nth_error (applyCommissionsToWallet wanted commissions bonuses users) i
    = Some u'
    /\ id u' = id u
    /\ (id u <> wanted -> u' = u)
    /\ (id u = wanted ->
        let mine :=
          filter (fun c => String.eqb (commissionUserId c) wanted)
                 commissions in
        let myBonuses :=
          filter (fun b => String.eqb (bonusUserId b) wanted) bonuses in
        balance (wallet u')
        = balance (wallet u) + sumCommissions mine + sumBonuses myBonuses
        /\ totalEarnings (wallet u')
           = totalEarnings (wallet u) + sumCommissions mine
             + sumBonuses myBonuses
        /\ leadershipBonus (wallet u')
           = leadershipBonus (wallet u) + sumBonuses myBonuses
        /\ sponsorBonus (wallet u')
           = sponsorBonus (wallet u)
             + sumCommissions (filter (isKind kind_sponsor) mine)
        /\ careerBonus (wallet u')
           = careerBonus (wallet u)
             + sumCommissions (filter (isKind kind_career) mine)
        /\ passiveIncome (wallet u')
           = passiveIncome (wallet u)
             + sumCommissions (filter (isKind kind_passive) mine)
        /\ exists v : User,
             nth_error
               (applyCommissionsToWallet wanted
                  (filter (fun c => negb (isKind kind_leadership c))
                          commissions)
                  bonuses users) i
             = Some v
             /\ sponsorBonus (wallet v) = sponsorBonus (wallet u')
             /\ careerBonus (wallet v) = careerBonus (wallet u')
             /\ passiveIncome (wallet v) = passiveIncome (wallet u')
             /\ leadershipBonus (wallet v) = leadershipBonus (wallet u')).
Proof.
  intros Hu. unfold applyCommissionsToWallet.
  rewrite !nth_error_map, Hu. cbn [option_map].
  eexists. split; [reflexivity|]. unfold applyToUser.
  destruct (String.eqb (id u) wanted) eqn:E.
  - cbn [id wallet balance totalEarnings sponsorBonus careerBonus
         passiveIncome leadershipBonus].
    split; [reflexivity|]. split.
    + intros Hne. apply String.eqb_eq in E. contradiction.
    + intros _. cbv zeta. repeat (split; [reflexivity|]).
      eexists. split; [reflexivity|].
      cbn [wallet sponsorBonus careerBonus passiveIncome leadershipBonus].
      rewrite !filter_without_leadership by discriminate.
      repeat split; reflexivity.
  - split; [reflexivity|]. split; [reflexivity|].
    intros He. apply String.eqb_neq in E. contradiction.
Qed.

Lemma applyCommissionsToWallet_accounting_witness :
  exists u' : User,
    nth_error
      (applyCommissionsToWallet "s1"
         [ {| commissionUserId := "s1"; commissionKind := kind_leadership;
              commissionAmount := 7; commissionPercentage := 0;
              sourceUserId := "b"; sourcePackage := "gold";
              commissionLevel := 1 |} ]
         [] sampleLine) 1
    = Some u'
    /\ balance (wallet u') == 7
    /\ sponsorBonus (wallet u') == 0
    /\ careerBonus (wallet u') == 0
    /\ passiveIncome (wallet u') == 0
    /\ leadershipBonus (wallet u') == 0.
Proof.
  destruct (applyCommissionsToWallet_accounting "s1"
              [ {| commissionUserId := "s1"; commissionKind := kind_leadership;
                   commissionAmount := 7; commissionPercentage := 0;
                   sourceUserId := "b"; sourcePackage := "gold";
                   commissionLevel := 1 |} ]
              [] sampleLine 1 (activeMember "s1" (Some "s2"%string)) eq_refl)
    as (u' & Hn & _ & _ & _).
  exists u'. split; [exact Hn|].
  vm_compute in Hn. injection Hn as <-. repeat split; reflexivity.
Defined.

End PackageCommissions.

(** ** Utilities: the balance of the two legs *)

Lemma Qabs_difference_le_sum (l r : Q) :
  0 <= l -> 0 <= r -> Qabs (l - r) <= l + r.
Proof.
  intros Hl Hr. apply Qabs_case; intros _; lra.
Qed.

Lemma calculateBinaryBalance_core (l r : Q) :
  0 <= l -> 0 <= r ->
  let b := Utils.calculateBinaryBalance l r in
  0 <= Utils.balancePercentage b
  /\ Utils.balancePercentage b <= 100
  /\ (Utils.isBalanced b = true
      <-> 5 * Qabs (l - r) < l + r \/ l + r == 0).
Proof.
  intros Hl Hr. cbv zeta. unfold Utils.calculateBinaryBalance.
  cbn [Utils.balancePercentage Utils.isBalanced].
  pose proof (Qabs_nonneg (l - r)) as Hg.
  pose proof (Qabs_difference_le_sum l r Hl Hr) as Hgt.
  set (g := Qabs (l - r)) in *. set (t := l + r) in *.
  destruct (Qle_bool t 0) eqn:E; cbn [negb].
  - apply Qle_bool_iff in E.
    split; [lra|]. split; [lra|].
    split; [intros _; right; subst t; lra | reflexivity].
  - assert (Ht : 0 < t).
    { apply Qnot_le_lt. intros Hle. apply Qle_bool_iff in Hle. congruence. }
    assert (Hdiv : 0 <= g / t).
    { apply Qle_shift_div_l; [exact Ht|]. lra. }
    assert (Hone : g / t <= 1).
    { apply Qle_shift_div_r; [exact Ht|]. lra. }
    split; [lra|]. split; [lra|].
    rewrite negb_true_iff. split.
    + intros Hb. left.
      apply Qnot_le_lt. intros Hle.
      assert (H20 : 20 <= g / t * 100).
      { assert (Hq : (1 # 5) <= g / t).
        { apply Qle_shift_div_l; [exact Ht|]. lra. }
        lra. }
      apply Qle_bool_iff in H20. congruence.
    + intros [Hlt|Hz]; [|lra].
      destruct (Qle_bool 20 (g / t * 100)) eqn:E20; [|reflexivity].
      apply Qle_bool_iff in E20.
      assert (Hq : g / t < 1 # 5).
      { apply Qlt_shift_div_r; [exact Ht|]. lra. }
      lra.
Qed.

Lemma calculateBinaryBalance_percentage_sym (l r : Q) :
  Utils.balancePercentage (Utils.calculateBinaryBalance r l)
  == Utils.balancePercentage (Utils.calculateBinaryBalance l r).
Proof.
  unfold Utils.calculateBinaryBalance. cbn [Utils.balancePercentage].
  assert (Hsum : r + l == l + r) by ring.
  assert (Hb : Qle_bool (r + l) 0 = Qle_bool (l + r) 0).
  { destruct (Qle_bool (r + l) 0) eqn:E1, (Qle_bool (l + r) 0) eqn:E2;
      try reflexivity.
    - apply Qle_bool_iff in E1. rewrite Hsum in E1.
      apply Qle_bool_iff in E1. congruence.
    - apply Qle_bool_iff in E2. rewrite <- Hsum in E2.
      apply Qle_bool_iff in E2. congruence. }
  rewrite Hb. destruct (Qle_bool (l + r) 0); cbn [negb]; [reflexivity|].
  rewrite (Qabs_Qminus r l), Hsum. reflexivity.
Qed.

(** X15. For two counts that are not negative, the imbalance of the two
    legs lies between 0 and 100 percent, and the legs count as balanced
    exactly when five times the difference of the counts is below their
    sum, or when both are empty.  Exchanging the two legs changes neither
    the percentage nor the verdict. *)
Theorem calculateBinaryBalance_range (l r : Q) :
  0 <= l -> 0 <= r ->
  let b := Utils.calculateBinaryBalance l r in
  0 <= Utils.balancePercentage b
  /\ Utils.balancePercentage b <= 100
  /\ (Utils.isBalanced b = true
      <-> 5 * Qabs (l - r) < l + r \/ l + r == 0)
  /\ Utils.balancePercentage (Utils.calculateBinaryBalance r l)
     == Utils.balancePercentage b
  /\ Utils.isBalanced (Utils.calculateBinaryBalance r l)
     = Utils.isBalanced b.
Proof.
  intros Hl Hr. cbv zeta.
  destruct (calculateBinaryBalance_core l r Hl Hr) as (H0 & H100 & Hiff).
  destruct (calculateBinaryBalance_core r l Hr Hl) as (_ & _ & Hiff').
  cbv zeta in *.
  split; [exact H0|]. split; [exact H100|]. split; [exact Hiff|].
  split; [apply calculateBinaryBalance_percentage_sym|].
  assert (Hsym : 5 * Qabs (r - l) < r + l \/ r + l == 0
                 <-> 5 * Qabs (l - r) < l + r \/ l + r == 0).
  { rewrite (Qabs_Qminus r l).
    split; intros [H|H]; (left; lra) || (right; lra). }
  destruct (Utils.isBalanced (Utils.calculateBinaryBalance l r)) eqn:B1;
    destruct (Utils.isBalanced (Utils.calculateBinaryBalance r l)) eqn:B2;
    try reflexivity.
  - apply Hiff', Hsym. now apply Hiff.
  - symmetry. apply Hiff, Hsym. now apply Hiff'.
Qed.

Lemma calculateBinaryBalance_range_witness :
  Utils.balancePercentage (Utils.calculateBinaryBalance 6 4) <= 100
  /\ Utils.isBalanced (Utils.calculateBinaryBalance 4 6)
     = Utils.isBalanced (Utils.calculateBinaryBalance 6 4).
Proof.
  destruct (calculateBinaryBalance_range 6 4) as (_ & H100 & _ & _ & Hs).
  - vm_compute. discriminate.
  - vm_compute. discriminate.
  - split; [exact H100|exact Hs].
Defined.

(** ** Utilities: slugs *)

Lemma collapseHyphens_head (s : Utils.JsString) :
  hd_error (Utils.collapseHyphens s) = hd_error s.
Proof.
  induction s as [|x rest IH]; [reflexivity|].
  cbn [Utils.collapseHyphens].
  destruct (N.eqb x Utils.hyphen) eqn:Ex; [|reflexivity].
  destruct rest as [|y r]; [reflexivity|].
  destruct (N.eqb y Utils.hyphen) eqn:Ey; [|reflexivity].
  rewrite IH. apply N.eqb_eq in Ex, Ey. cbn. congruence.
Qed.

Lemma collapseHyphens_keeps (P : N -> Prop) (s : Utils.JsString) :
  Forall P s -> Forall P (Utils.collapseHyphens s).
Proof.
  induction s as [|x rest IH]; intros H; [constructor|].
  inversion H as [|? ? Hx Hrest]; subst.
  cbn [Utils.collapseHyphens].
  destruct (N.eqb x Utils.hyphen).
  - destruct rest as [|y r]; [now constructor|].
    destruct (N.eqb y Utils.hyphen); [now apply IH|].
    constructor; [exact Hx | now apply IH].
  - constructor; [exact Hx | now apply IH].
Qed.

Lemma noDoubleHyphen_cons (x : N) (s : Utils.JsString) :
  noDoubleHyphen s ->
  (x = Utils.hyphen -> hd_error s <> Some Utils.hyphen) ->
  noDoubleHyphen (x :: s).
Proof.
  intros Hs Hx. destruct s as [|y r]; [exact I|].
  split; [|exact Hs]. intros [E1 E2]. apply (Hx E1). cbn. now rewrite E2.
Qed.

Lemma collapseHyphens_noDouble (s : Utils.JsString) :
  noDoubleHyphen (Utils.collapseHyphens s).
Proof.
  induction s as [|x rest IH]; [exact I|].
  cbn [Utils.collapseHyphens].
  destruct (N.eqb x Utils.hyphen) eqn:Ex.
  - destruct rest as [|y r]; [exact I|].
    destruct (N.eqb y Utils.hyphen) eqn:Ey; [exact IH|].
    apply noDoubleHyphen_cons; [exact IH|]. intros _.
    rewrite collapseHyphens_head. cbn. intros E. injection E as E.
    apply N.eqb_neq in Ey. contradiction.
  - apply noDoubleHyphen_cons; [exact IH|]. intros E.
    apply N.eqb_neq in Ex. contradiction.
Qed.

Lemma noDoubleHyphen_tail (x : N) (s : Utils.JsString) :
  noDoubleHyphen (x :: s) -> noDoubleHyphen s.
Proof. destruct s as [|y r]; [intros _; exact I | intros [_ H]; exact H]. Qed.

Lemma dropTrailingHyphen_shape (y : N) (r : Utils.JsString) :
  Utils.dropTrailingHyphen (y :: r) = []
  \/ exists rest, Utils.dropTrailingHyphen (y :: r) = y :: rest.
Proof.
  destruct r as [|z r'].
  - cbn. destruct (N.eqb y Utils.hyphen); [now left | right; now exists []].
  - right. eexists. reflexivity.
Qed.

Lemma dropTrailingHyphen_keeps (P : N -> Prop) (s : Utils.JsString) :
  Forall P s -> Forall P (Utils.dropTrailingHyphen s).
Proof.
  induction s as [|x rest IH]; intros H; [constructor|].
  inversion H as [|? ? Hx Hrest]; subst.
  destruct rest as [|y r].
  - cbn. destruct (N.eqb x Utils.hyphen); [constructor | now constructor].
  - change (Forall P (x :: Utils.dropTrailingHyphen (y :: r))).
    constructor; [exact Hx | now apply IH].
Qed.

Lemma dropTrailingHyphen_noDouble (s : Utils.JsString) :
  noDoubleHyphen s -> noDoubleHyphen (Utils.dropTrailingHyphen s).
Proof.
  induction s as [|x rest IH]; intros H; [exact I|].
  destruct rest as [|y r].
  - cbn. now destruct (N.eqb x Utils.hyphen).
  - change (noDoubleHyphen (x :: Utils.dropTrailingHyphen (y :: r))).
    destruct H as [Hxy Hrest].
    apply noDoubleHyphen_cons; [now apply IH|]. intros Ex.
    destruct (dropTrailingHyphen_shape y r) as [->|(rest & ->)];
      [discriminate|].
    cbn. intros E. injection E as E. apply Hxy. now split.
Qed.

Lemma dropTrailingHyphen_head (s : Utils.JsString) :
  hd_error s <> Some Utils.hyphen ->
  hd_error (Utils.dropTrailingHyphen s) <> Some Utils.hyphen.
Proof.
  destruct s as [|x rest]; [intros _; discriminate|].
  intros H. destruct (dropTrailingHyphen_shape x rest) as [->|(r & ->)];
    [discriminate | exact H].
Qed.

Lemma dropTrailingHyphen_last (s : Utils.JsString) :
  noDoubleHyphen s ->
  forall d, d <> Utils.hyphen ->
            last (Utils.dropTrailingHyphen s) d <> Utils.hyphen.
Proof.
  induction s as [|x rest IH]; intros H d Hd; [exact Hd|].
  destruct rest as [|y r].
  - cbn. destruct (N.eqb x Utils.hyphen) eqn:Ex; [exact Hd|].
    cbn. now apply N.eqb_neq.
  - change (last (x :: Utils.dropTrailingHyphen (y :: r)) d <> Utils.hyphen).
    destruct H as [Hxy Hrest]. rewrite last_cons.
    destruct (N.eq_dec x Utils.hyphen) as [Ex|Ex]; [|now apply IH].
    assert (Hy : y <> Utils.hyphen) by (intros Ey; apply Hxy; now split).
    destruct (dropTrailingHyphen_shape y r) as [E|(rest & E)].
    + destruct r as [|z r']; [|discriminate E]. cbn in E.
      apply N.eqb_neq in Hy. rewrite Hy in E. discriminate E.
    + specialize (IH Hrest 0%N). rewrite E in *.
      rewrite last_cons. rewrite last_cons in IH. apply IH.
      unfold Utils.hyphen. discriminate.
Qed.

(** X16. Whatever the text and whatever lower-casing does to it, a slug
    consists of the letters a to z, the digits and hyphens only; no two
    hyphens stand next to each other, and the slug neither starts nor
    ends with a hyphen. *)
Theorem generateSlug_shape
    (toLowerCase : Utils.JsString -> Utils.JsString)
    (text : Utils.JsString) :
  let slug := Utils.generateSlug toLowerCase text in
  Forall (fun x => Utils.isSlugUnit x = true \/ x = Utils.hyphen) slug
  /\ noDoubleHyphen slug
  /\ hd_error slug <> Some Utils.hyphen
  /\ last slug 0%N <> Utils.hyphen.
Proof.
  cbv zeta. unfold Utils.generateSlug, Utils.trimHyphens.
  match goal with
  | |- context [Utils.hyphenate ?t] => generalize t
  end.
  intros t.
  set (P := fun x => Utils.isSlugUnit x = true \/ x = Utils.hyphen).
  assert (Hok : Forall P (Utils.collapseHyphens (Utils.hyphenate t))).
  { apply collapseHyphens_keeps. unfold Utils.hyphenate.
    apply Forall_forall. intros x Hx. apply in_map_iff in Hx.
    destruct Hx as (y & <- & _). unfold P.
    destruct (Utils.isSlugUnit y) eqn:E; [now left | now right]. }
  pose proof (collapseHyphens_noDouble (Utils.hyphenate t)) as Hnd.
  set (c := Utils.collapseHyphens (Utils.hyphenate t)) in *.
  assert (Hlead : Forall P (Utils.dropLeadingHyphen c)
                  /\ noDoubleHyphen (Utils.dropLeadingHyphen c)
                  /\ hd_error (Utils.dropLeadingHyphen c)
                     <> Some Utils.hyphen).
  { destruct c as [|x rest]; [repeat split; [constructor|discriminate]|].
    cbn [Utils.dropLeadingHyphen].
    destruct (N.eqb x Utils.hyphen) eqn:Ex.
    - apply N.eqb_eq in Ex.
      split; [now inversion Hok|].
      split; [now apply noDoubleHyphen_tail in Hnd|].
      destruct rest as [|y r]; [discriminate|].
      cbn. intros E. injection E as E. destruct Hnd as [Hxy _].
      apply Hxy. now split.
    - split; [exact Hok|]. split; [exact Hnd|].
      cbn. intros E. injection E as E. apply N.eqb_neq in Ex. contradiction. }
  destruct Hlead as (Hok' & Hnd' & Hhd').
  split; [now apply dropTrailingHyphen_keeps|].
  split; [now apply dropTrailingHyphen_noDouble|].
  split; [now apply dropTrailingHyphen_head|].
  apply dropTrailingHyphen_last; [exact Hnd'|].
  unfold Utils.hyphen. discriminate.
Qed.

(** ** Career table *)

(** X17. The career level returned is an entry of the table: the one
    with the highest id among those whose two thresholds, on investment
    and on direct referrals, are both met, and the entry level when none
    is met. *)
Theorem getCareerLevel_highest_met (investment directReferrals : Q) :
  let r := MlmTypes.getCareerLevel investment directReferrals in
  In r MlmTypes.CAREER_LEVELS
  /\ (MlmTypes.meets investment directReferrals r = true
      \/ r = MlmTypes.entryLevel)
  /\ forall e : MlmTypes.CareerEntry,
       In e MlmTypes.CAREER_LEVELS ->
       MlmTypes.meets investment directReferrals e = true ->
       (cl_id (MlmTypes.career e) <= cl_id (MlmTypes.career r))%Z.
Proof.
  cbv zeta. unfold MlmTypes.getCareerLevel, MlmTypes.CAREER_LEVELS.
  cbn [fold_left].
  repeat match goal with
  | |- context [MlmTypes.meets investment directReferrals ?e] =>
      lazymatch e with
      | MlmTypes.entryLevel => fail
      | MlmTypes.entry _ _ _ _ _ _ _ =>
          let E := fresh "E" in
          destruct (MlmTypes.meets investment directReferrals e) eqn:E
      end
  end;
  destruct (MlmTypes.meets investment directReferrals MlmTypes.entryLevel)
    eqn:Eentry;
  (split; [cbn [In]; tauto|]);
  (split; [first [left; assumption | right; reflexivity]|]);
  intros e He Hm; cbn [In] in He;
  repeat (destruct He as [<-|He]; [try (cbn; lia); congruence|]);
  destruct He.
Qed.

(** ** Classic engine: passive income and depth bonus *)

Import MLMDatabase.

Lemma findById_id (us : list User) (k : string) (u : User) :
  findById us k = Some u -> id u = k.
Proof.
  unfold findById. intros H. apply find_some in H.
  now apply String.eqb_eq.
Qed.

Lemma sponsorOf_on_record (db : Db) (user sponsor : User) :
  sponsorOf (users db) user = Some sponsor ->
  exists sid : string,
    sponsorId user = Some sid /\ truthy_str sid = true
    /\ getUserById db sid = Some sponsor /\ id sponsor = sid
    /\ getUserById db (id sponsor) = Some sponsor.
Proof.
  unfold sponsorOf, getUserById. intros H.
  destruct (sponsorId user) as [sid|]; [|discriminate H].
  destruct (truthy_str sid) eqn:Ht; [|discriminate H].
  exists sid. pose proof (findById_id _ _ _ H) as Hid.
  repeat split; try assumption. now rewrite Hid.
Qed.

Lemma sponsorOf_missing (db : Db) (user : User) :
  sponsorOf (users db) user = None ->
  sponsorId user = None
  \/ (exists sid : string,
        sponsorId user = Some sid
        /\ (truthy_str sid = false \/ getUserById db sid = None)).
Proof.
  unfold sponsorOf, getUserById. intros H.
  destruct (sponsorId user) as [sid|]; [|now left].
  right. exists sid. split; [reflexivity|].
  destruct (truthy_str sid); [now right | now left].
Qed.

Lemma gt0_true (x : Q) : 0 < x -> gt0 x = true.
Proof.
  intros H. unfold gt0. apply negb_true_iff.
  destruct (Qle_bool x 0) eqn:L; [|reflexivity].
  apply Qle_bool_iff in L. exfalso. exact (Qlt_not_le _ _ H L).
Qed.

Lemma gt0_false (x : Q) : x <= 0 -> gt0 x = false.
Proof.
  intros H. unfold gt0. apply negb_false_iff. now apply Qle_bool_iff.
Qed.

(** The rate the callback reads for the level above index [k]. *)
Lemma commissionRate_at (k : nat) :
  or_num (nth_error commissionRates k) 0 = nth k commissionRates 0.
Proof.
  do 8 (destruct k as [|k]; [reflexivity|]). reflexivity.
Qed.

(** The walk pays the upline members one after the other and leaves at
    the first inactive one. *)
Lemma traverseUplineFrom_started (db : Db) (a : Q) :
  forall (remaining k : nat) (current : string) (currentUser : User),
    getUserById db current = Some currentUser ->
    (S k + remaining <= 8)%nat ->
    let chain :=
      activePrefix (getUplineChain currentUser (users db) remaining) in
    traverseUplineFrom remaining (binaryCallback a) db current (S k)
    = filter (fun c => gt0 (startedAmount c))
        (map (depthBonusFor a) (combine (seq k (length chain)) chain)).
Proof.
  induction remaining as [|remaining IH];
    intros k current currentUser Hcur Hk; [reflexivity|].
  cbn [traverseUplineFrom getUplineChain]. rewrite Hcur.
  destruct (sponsorId currentUser) as [sid|]; [|reflexivity].
  destruct (truthy_str sid); [|reflexivity].
  change (getUserById db sid) with (findById (users db) sid).
  destruct (findById (users db) sid) as [uplineUser|] eqn:Hup;
    [|reflexivity].
  pose proof (findById_id _ _ _ Hup) as Hid.
  unfold binaryCallback. cbn [activePrefix].
  assert (Hlevel : (7 <? S k)%nat = false) by (apply Nat.ltb_ge; lia).
  rewrite Hlevel. cbn [orb].
  destruct (isActive uplineUser); cbn [negb]; [|reflexivity].
  cbn [length seq combine map filter depthBonusFor fst snd startedAmount].
  replace (S k - 1)%nat with k by lia.
  rewrite commissionRate_at.
  assert (Hnext : getUserById db (id uplineUser) = Some uplineUser).
  { unfold getUserById. now rewrite Hid. }
  specialize (IH (S k) (id uplineUser) uplineUser Hnext).
  cbv zeta in IH.
  destruct (gt0 (a * nth k commissionRates 0)); cbn [app];
    fold (binaryCallback a); rewrite IH by lia; reflexivity.
Qed.

(** C2 (amended).  The passive-income walk pays nobody and visits nobody
    further up once the sponsor of the current member is missing, is
    inactive or has no positive passive rate.  The depth-bonus walk
    behaves alike: the store calls it starts are those for the members
    of the upline, of up to seven levels, that stand before the first
    inactive one, each for the amount times the rate of its level where
    that is positive, and for nobody above.  The passive-income walk
    goes on to the next level when the sponsor is active with a positive
    rate, whether the computed amount was paid or not. *)
Theorem passive_income_stops_at_ineligible_sponsor :
  forall (adapter : Adapter) (db : Db) (a : Q) (wanted : string)
         (user : User),
    getUserById db wanted = Some user ->
    (match sponsorOf (users db) user with
     | Some sponsor =>
         isActive sponsor = false
         \/ passiveIncomeRate (careerLevel sponsor) <= 0
     | None => True
     end ->
     forall levels : nat,
       distributePassiveIncome adapter db a wanted levels = db)
    /\ distributeBinaryCommissions db a wanted
       = filter (fun c => gt0 (startedAmount c))
           (map (depthBonusFor a)
                (indexed (activePrefix (getUplineChain user (users db) 7))))
    /\ (forall sponsor : User,
          sponsorOf (users db) user = Some sponsor ->
          isActive sponsor = true ->
          0 < passiveIncomeRate (careerLevel sponsor) ->
          forall levels : nat,
            distributePassiveIncome adapter db a wanted (S levels)
            = distributePassiveIncome adapter
                (if gt0 (passiveAmountOf a sponsor (S levels))
                 then payPassiveIncome adapter db sponsor
                        (passiveAmountOf a sponsor (S levels))
                 else db)
                a (id sponsor) levels).
Proof.
  intros adapter db a wanted user Hu. split; [|split].
  - intros Hstop levels. destruct levels as [|levels]; [reflexivity|].
    cbn [distributePassiveIncome]. rewrite Hu.
    destruct (sponsorOf (users db) user) as [sponsor|] eqn:Es.
    + destruct (sponsorOf_on_record db user sponsor Es)
        as (sid & Hs & Ht & Hsp & _).
      rewrite Hs, Ht, Hsp. destruct Hstop as [Hin|Hrate].
      * now rewrite Hin.
      * rewrite (gt0_false _ Hrate). now rewrite andb_false_r.
    + destruct (sponsorOf_missing db user Es)
        as [Hs | (sid & Hs & [Ht | Hsp])].
      * now rewrite Hs.
      * now rewrite Hs, Ht.
      * rewrite Hs, Hsp. now destruct (truthy_str sid).
  - unfold distributeBinaryCommissions, traverseUpline, indexed.
    apply (traverseUplineFrom_started db a 7 0 wanted user Hu). lia.
  - intros sponsor Es Hact Hrate levels.
    destruct (sponsorOf_on_record db user sponsor Es)
      as (sid & Hs & Ht & Hsp & _).
    cbn [distributePassiveIncome]. rewrite Hu, Hs, Ht, Hsp, Hact.
    now rewrite (gt0_true _ Hrate).
Qed.

Lemma passive_income_stops_witness :
  distributePassiveIncome file_backed brokenUpline 50 "u" 7 = brokenUpline
  /\ distributeBinaryCommissions brokenAtSecond 250 "u"
     = [ {| startedFor := "s1"; startedLevel := 1;
            startedAmount := 250 * (8 # 100) |} ].
Proof.
  split.
  - apply (proj1 (passive_income_stops_at_ineligible_sponsor file_backed
                    brokenUpline 50 "u"
                    (member "u" (Some "s1"%string) true 0 100 None None)
                    eq_refl)).
    left. reflexivity.
  - rewrite (proj1 (proj2 (passive_income_stops_at_ineligible_sponsor
                             file_backed brokenAtSecond 250 "u"
                             (member "u" (Some "s1"%string) true 0 100 None
                                     None)
                             eq_refl))).
    reflexivity.
Defined.

(** C2, as stated, fails: [s2] is active with a positive passive rate and
    stands above the inactive [s1]; the passive-income walk from [u]
    leaves the whole store, hence the wallet of [s2], unchanged, under
    either adapter, while with [s1] active [s2] is paid. *)
Lemma passive_income_above_inactive_counterexample :
  (exists s1 s2 : User,
     getUserById brokenUpline "s1" = Some s1 /\ isActive s1 = false
     /\ sponsorId s1 = Some "s2"%string
     /\ getUserById brokenUpline "s2" = Some s2 /\ isActive s2 = true
     /\ 0 < passiveIncomeRate (careerLevel s2))
  /\ (forall adapter : Adapter,
        distributePassiveIncome adapter brokenUpline 50 "u" 7 = brokenUpline)
  /\ (forall adapter : Adapter,
        exists s2 : User,
          getUserById (distributePassiveIncome adapter activeUpline 50 "u" 7)
                      "s2" = Some s2
          /\ 0 < passiveIncome (wallet s2)).
Proof.
  split; [|split].
  - eexists. eexists. repeat split.
  - intros []; reflexivity.
  - intros []; (eexists; split; [reflexivity|]; reflexivity).
Qed.

(** ** Classic engine: the system fund *)

Lemma getUserById_updateUser_same (db : Db) (k : string) (f : User -> User) :
  (forall x, id x = k -> id (f x) = k) ->
  getUserById (updateUser db k f) k = option_map f (getUserById db k).
Proof.
  intros Hf. unfold getUserById, updateUser, withUsers, findById.
  cbn [users]. apply find_updateFirst.
  intros x Hx. apply String.eqb_eq in Hx. apply String.eqb_eq. now apply Hf.
Qed.

Lemma getUserById_updateUser_other (db : Db) (k k' : string)
    (f : User -> User) :
  k' <> k ->
  (forall x, id x = k -> id (f x) = k) ->
  getUserById (updateUser db k f) k' = getUserById db k'.
Proof.
  intros Hne Hf. unfold getUserById, updateUser, withUsers, findById.
  cbn [users]. apply find_updateFirst_other.
  intros x Hx. apply String.eqb_eq in Hx.
  split; apply String.eqb_neq.
  - congruence.
  - rewrite (Hf x Hx). congruence.
Qed.



(** *** The sponsor bonus changes wallets only *)










(** ** Product purchases: the distributed flag *)





(** ** Binary placement: the descent into the weaker leg *)

Section WeakerLeg.

Import PrimFloat.
#[local] Set Warnings "-inexact-float".

(** The comparisons of binary64: a score strictly below another is not
    above or equal to it, and equal scores are below or equal. *)
Lemma SFltb_not_SFleb (x y : SpecFloat.spec_float) :
  SpecFloat.SFltb y x = true -> SpecFloat.SFleb x y = false.
Proof.
  unfold SpecFloat.SFltb, SpecFloat.SFleb.
  destruct x as [sx|sx| |sx mx ex], y as [sy|sy| |sy my ey]; cbn;
    try destruct sx; try destruct sy; cbn; try congruence.
  all: rewrite (Z.compare_antisym ex ey); destruct (ex ?= ey)%Z; cbn;
    try congruence.
  all: change (PosDef.Pos.compare_cont Eq mx my) with (mx ?= my)%positive;
    change (PosDef.Pos.compare_cont Eq my mx) with (my ?= mx)%positive;
    rewrite (Pos.compare_antisym mx my);
    destruct (mx ?= my)%positive; cbn; congruence.
Qed.

Lemma ltb_not_leb (x y : float) :
  PrimFloat.ltb y x = true -> PrimFloat.leb x y = false.
Proof.
  rewrite FloatAxioms.ltb_spec, FloatAxioms.leb_spec.
  apply SFltb_not_SFleb.
Qed.

Lemma eqb_leb (x y : float) :
  PrimFloat.eqb x y = true -> PrimFloat.leb x y = true.
Proof.
  rewrite FloatAxioms.eqb_spec, FloatAxioms.leb_spec.
  unfold SpecFloat.SFeqb, SpecFloat.SFleb.
  destruct (SpecFloat.SFcompare (FloatOps.Prim2SF x) (FloatOps.Prim2SF y))
    as [[ | | ]|]; congruence.
Qed.

(** C5. At a member node, a free child slot is the answer, the left one
    when both are free; with both children present the search goes into
    the left child when its score is lower than or equal to the right
    child's, so also when the two scores are equal, and into the right
    child otherwise, so whenever the right child's score is strictly
    lower; the result is one level deeper.  The score is the team size,
    the volume, the maximal depth or the weighted composite according
    to the algorithm, the composite being the sum of team size over 100
    times 0.4, volume over 10000 times 0.3, active members over 100
    times 0.2 and maximal depth over 10 times 0.1.  Scores are binary64
    numbers, computed and compared as the code does. *)
Theorem findWeakestLeg_descent :
  forall (fuel : nat) (db : Db) (caches : Caches) (wanted : string)
         (algorithm' : Algorithm) (user : User),
    getUserById db wanted = Some user ->
    (resolveChild db (leftChild user) = None ->
       findWeakestLeg (S fuel) db caches wanted algorithm'
       = Some (Some (openSlot wanted side_left)))
    /\ (forall l : User,
          resolveChild db (leftChild user) = Some l ->
          resolveChild db (rightChild user) = None ->
          findWeakestLeg (S fuel) db caches wanted algorithm'
          = Some (Some (openSlot wanted side_right)))
    /\ (forall (l r : User) (leftStats rightStats : LegStats),
          resolveChild db (leftChild user) = Some l ->
          resolveChild db (rightChild user) = Some r ->
          getDetailedLegStats fuel db caches (id l) = Some leftStats ->
          getDetailedLegStats fuel db caches (id r) = Some rightStats ->
          let leftScore := legScoreFor algorithm' leftStats in
          let rightScore := legScoreFor algorithm' rightStats in
          let intoLeft :=
            option_map (option_map deeper)
              (findWeakestLeg fuel db caches (id l) algorithm') in
          let intoRight :=
            option_map (option_map deeper)
              (findWeakestLeg fuel db caches (id r) algorithm') in
          (PrimFloat.leb leftScore rightScore = true ->
           findWeakestLeg (S fuel) db caches wanted algorithm' = intoLeft)
          /\ (PrimFloat.leb leftScore rightScore = false ->
              findWeakestLeg (S fuel) db caches wanted algorithm'
              = intoRight)
          /\ (PrimFloat.eqb leftScore rightScore = true ->
              findWeakestLeg (S fuel) db caches wanted algorithm'
              = intoLeft)
          /\ (PrimFloat.ltb rightScore leftScore = true ->
              findWeakestLeg (S fuel) db caches wanted algorithm'
              = intoRight))
    /\ (forall stats : LegStats,
          legScoreFor size_based stats = numberOfNat (teamSize stats)
          /\ legScoreFor volume_based stats = volume stats
          /\ legScoreFor depth_first stats = numberOfNat (maxDepth stats)
          /\ legScoreFor balanced stats
             = (numberOfNat (teamSize stats) / 100 * 0.4
                + volume stats / 10000 * 0.3
                + numberOfNat (activeMembers stats) / 100 * 0.2
                + numberOfNat (maxDepth stats) / 10 * 0.1)%float).
Proof.
  intros fuel db caches wanted algorithm' user Hu.
  split; [|split; [|split]].
  - intros Hl. cbn [findWeakestLeg]. rewrite Hu, Hl.
    now destruct (resolveChild db (rightChild user)).
  - intros l Hl Hr. cbn [findWeakestLeg]. now rewrite Hu, Hl, Hr.
  - intros l r leftStats rightStats Hl Hr Hls Hrs
           leftScore rightScore intoLeft intoRight.
    assert (Hleft : PrimFloat.leb leftScore rightScore = true ->
                    findWeakestLeg (S fuel) db caches wanted algorithm'
                    = intoLeft).
    { intros Hle. cbn [findWeakestLeg]. rewrite Hu, Hl, Hr, Hls.
      cbn [bindF]. rewrite Hrs. cbn [bindF].
      fold leftScore rightScore. rewrite Hle. subst intoLeft.
      now destruct (findWeakestLeg fuel db caches (id l) algorithm'). }
    assert (Hright : PrimFloat.leb leftScore rightScore = false ->
                     findWeakestLeg (S fuel) db caches wanted algorithm'
                     = intoRight).
    { intros Hgt. cbn [findWeakestLeg]. rewrite Hu, Hl, Hr, Hls.
      cbn [bindF]. rewrite Hrs. cbn [bindF].
      fold leftScore rightScore. rewrite Hgt. subst intoRight.
      now destruct (findWeakestLeg fuel db caches (id r) algorithm'). }
    split; [exact Hleft|]. split; [exact Hright|]. split.
    + intros Heq. apply Hleft. now apply eqb_leb.
    + intros Hlt. apply Hright. now apply ltb_not_leb.
  - intros stats. repeat split.
Qed.

Lemma findWeakestLeg_descent_witness :
  findWeakestLeg 5 unevenTree emptyCaches "r" balanced
  = Some (Some {| place := {| parentId := "b"; position := side_right;
                              depth := 2 |};
                  score := 0 |})
  /\ findWeakestLeg 5 sampleTree emptyCaches "b" balanced
     = Some (Some (openSlot "b" side_left)).
Proof.
  split.
  - destruct (getDetailedLegStats 4 unevenTree emptyCaches "a")
      as [leftStats|] eqn:Ea; [|discriminate Ea].
    destruct (getDetailedLegStats 4 unevenTree emptyCaches "b")
      as [rightStats|] eqn:Eb; [|discriminate Eb].
    rewrite (proj1 (proj2 (proj1 (proj2 (proj2
               (findWeakestLeg_descent 4 unevenTree emptyCaches "r" balanced
                  (node "r" None (Some "a"%string) (Some "b"%string) 0)
                  eq_refl)))
               (node "a" (Some "r"%string) (Some "a1"%string) None 0)
               (node "b" (Some "r"%string) (Some "b1"%string) None 0)
               leftStats rightStats eq_refl eq_refl Ea Eb))).
    + reflexivity.
    + vm_compute in Ea. vm_compute in Eb.
      injection Ea as <-. injection Eb as <-. reflexivity.
  - apply (proj1 (findWeakestLeg_descent 4 sampleTree emptyCaches "b" balanced
                    (node "b" (Some "r"%string) None None 0) eq_refl)).
    reflexivity.
Defined.

End WeakerLeg.

(** ** Binary placement: the bounded search *)

Lemma findAvailablePositions_unfold (db : Db) (start : string)
    (maxDepth' d : nat) :
  findAvailablePositions db start maxDepth' d
  = if le_lt_dec d maxDepth' then
      match getUserById db start with
      | None => []
      | Some user =>
          (match leftChild user with
           | Some l =>
               if truthy_str l
               then findAvailablePositions db l maxDepth' (S d)
               else [candidate start side_left d]
           | None => [candidate start side_left d]
           end)
          ++
          (match rightChild user with
           | Some r =>
               if truthy_str r
               then findAvailablePositions db r maxDepth' (S d)
               else [candidate start side_right d]
           | None => [candidate start side_right d]
           end)
      end
    else [].
Proof.
  simp findAvailablePositions.
  destruct (le_lt_dec d maxDepth'); simpl; [|reflexivity].
  destruct (getUserById db start); reflexivity.
Qed.

Lemma findAvailablePositions_sound (db : Db) (maxDepth' : nat) :
  forall (n : nat) (start : string) (d : nat),
    (S maxDepth' - d <= n)%nat ->
    forall c : Position,
      In c (findAvailablePositions db start maxDepth' d) ->
      (d <= depth c <= maxDepth')%nat
      /\ hops db start (depth c - d) (parentId c)
      /\ exists u : User,
           getUserById db (parentId c) = Some u /\ slotFree u (position c).
Proof.
  induction n as [|n IH]; intros start d Hn c Hin;
    rewrite findAvailablePositions_unfold in Hin;
    destruct (le_lt_dec d maxDepth') as [Hle|Hgt]; try contradiction;
    [lia|].
  destruct (getUserById db start) as [user|] eqn:Hu; [|contradiction].
  assert (Hown : forall side,
            slotFree user side ->
            c = candidate start side d ->
            (d <= depth c <= maxDepth')%nat
            /\ hops db start (depth c - d) (parentId c)
            /\ exists u : User,
                 getUserById db (parentId c) = Some u
                 /\ slotFree u (position c)).
  { intros side Hfree ->. cbn [candidate depth parentId position].
    split; [lia|]. split.
    - rewrite Nat.sub_diag. constructor.
    - exists user. split; assumption. }
  assert (Hrec : forall b,
            (leftChild user = Some b \/ rightChild user = Some b) ->
            truthy_str b = true ->
            In c (findAvailablePositions db b maxDepth' (S d)) ->
            (d <= depth c <= maxDepth')%nat
            /\ hops db start (depth c - d) (parentId c)
            /\ exists u : User,
                 getUserById db (parentId c) = Some u
                 /\ slotFree u (position c)).
  { intros b Hb Ht Hc.
    destruct (IH b (S d) ltac:(lia) c Hc) as (Hd & Hh & Hfree).
    split; [lia|]. split; [|exact Hfree].
    replace (depth c - d)%nat with (S (depth c - S d)) by lia.
    econstructor; eassumption. }
  apply in_app_or in Hin. destruct Hin as [Hin|Hin].
  - destruct (leftChild user) as [l|] eqn:El.
    + destruct (truthy_str l) eqn:Tl.
      * apply (Hrec l); auto.
      * destruct Hin as [<-|[]]. apply (Hown side_left); [|reflexivity].
        unfold slotFree, truthy_ostr. now rewrite El.
    + destruct Hin as [<-|[]]. apply (Hown side_left); [|reflexivity].
      unfold slotFree, truthy_ostr. now rewrite El.
  - destruct (rightChild user) as [r|] eqn:Er.
    + destruct (truthy_str r) eqn:Tr.
      * apply (Hrec r); auto.
      * destruct Hin as [<-|[]]. apply (Hown side_right); [|reflexivity].
        unfold slotFree, truthy_ostr. now rewrite Er.
    + destruct Hin as [<-|[]]. apply (Hown side_right); [|reflexivity].
      unfold slotFree, truthy_ostr. now rewrite Er.
Qed.

Lemma findAvailablePositions_complete (db : Db) (maxDepth' : nat)
    (start c : string) (k : nat) :
  hops db start k c ->
  forall (d : nat) (u : User) (side : Side),
    (d + k <= maxDepth')%nat ->
    getUserById db c = Some u ->
    slotFree u side ->
    In (candidate c side (d + k)) (findAvailablePositions db start maxDepth' d).
Proof.
  induction 1 as [a|a b c k u0 Hu0 Hchild Ht Hhops IH]; intros d u side Hd Hu Hfree.
  - rewrite findAvailablePositions_unfold.
    destruct (le_lt_dec d maxDepth') as [_|Hgt]; [|lia].
    rewrite Hu. rewrite Nat.add_0_r. apply in_or_app.
    destruct side; [left|right]; unfold slotFree, truthy_ostr in Hfree.
    + destruct (leftChild u) as [l|]; [rewrite Hfree|]; now left.
    + destruct (rightChild u) as [r|]; [rewrite Hfree|]; now left.
  - rewrite findAvailablePositions_unfold.
    destruct (le_lt_dec d maxDepth') as [_|Hgt]; [|lia].
    rewrite Hu0.
    replace (d + S k)%nat with (S d + k)%nat by lia.
    specialize (IH (S d) u side ltac:(lia) Hu Hfree).
    apply in_or_app. destruct Hchild as [Hb|Hb]; [left|right];
      rewrite Hb, Ht; exact IH.
Qed.

Lemma maxDepthOf_pos (preferences : Preferences) :
  (1 <= maxDepthOf preferences)%nat.
Proof.
  unfold maxDepthOf. destruct (pref_maxDepth preferences) as [[|n]|]; lia.
Qed.

Lemma noFreeSlot_no_candidates (db : Db) (start : string) (bound : nat) :
  noFreeSlotWithin db start bound <->
  findAvailablePositions db start bound 1 = [].
Proof.
  split.
  - intros Hnone.
    destruct (findAvailablePositions db start bound 1) as [|c cs] eqn:E;
      [reflexivity|].
    exfalso.
    destruct (findAvailablePositions_sound db bound (S bound) start 1
                ltac:(lia) c) as (Hd & Hh & u & Hu & Hfree).
    { rewrite E. now left. }
    apply (Hnone (parentId c) (depth c - 1)%nat u (position c));
      auto; lia.
  - intros Hnil c k u side Hh Hk Hu Hfree.
    pose proof (findAvailablePositions_complete db bound start c k Hh 1 u side
                  Hk Hu Hfree) as Hin.
    rewrite Hnil in Hin. contradiction.
Qed.

(** C8. The enumeration reports only free slots between the starting
    depth and the bound, each at the starting depth plus the number of
    steps from the start to its parent.  When no slot is free within the
    bound, which is when the enumeration is empty, the placement returns
    the store as it was with [success = false], the no-position message
    and the name of the algorithm; an unknown sponsor gives a failure as
    well. *)
Theorem placement_search_bounded :
  forall (scorePlacementPosition :
            Db -> Position -> Algorithm -> Preferences -> Q)
         (db : Db) (start : string),
    (forall (bound d : nat) (c : Position),
       In c (findAvailablePositions db start bound d) ->
       (d <= depth c <= bound)%nat
       /\ hops db start (depth c - d) (parentId c)
       /\ exists u : User,
            getUserById db (parentId c) = Some u
            /\ slotFree u (position c))
    /\ (forall bound : nat,
          noFreeSlotWithin db start bound <->
          findAvailablePositions db start bound 1 = [])
    /\ (forall (fuel : nat) (caches : Caches) (newUserId : string)
               (preferences : Preferences) (sponsorUser : User),
          getUserById db start = Some sponsorUser ->
          noFreeSlotWithin db start (maxDepthOf preferences) ->
          enhancedAutoPlacement scorePlacementPosition (S fuel) caches db
                                newUserId start preferences
          = Some (db,
                  {| success := false;
                     placement := None;
                     message := NoSuitablePosition;
                     resultAlgorithm :=
                       Some (label_of (algorithmOf preferences));
                     stats := None |}))
    /\ (forall (fuel : nat) (caches : Caches) (newUserId : string)
               (preferences : Preferences) (sponsorUser : User),
          truthy_str start = true ->
          getUserById db start = Some sponsorUser ->
          noFreeSlotWithin db start (maxDepthOf preferences) ->
          placeBinaryUser scorePlacementPosition (S fuel) caches db
                          newUserId (Some start) preferences
          = Some (db,
                  {| success := false;
                     placement := None;
                     message := NoSuitablePosition;
                     resultAlgorithm :=
                       Some (label_of (algorithmOf preferences));
                     stats := None |}))
    /\ (forall (fuel : nat) (caches : Caches) (newUserId : string)
               (preferences : Preferences),
          getUserById db start = None ->
          enhancedAutoPlacement scorePlacementPosition (S fuel) caches db
                                newUserId start preferences
          = Some (db,
                  {| success := false;
                     placement := None;
                     message := SponsorNotFound;
                     resultAlgorithm := Some label_none;
                     stats := None |})).
Proof.
  intros scorePlacementPosition db start.
  assert (Hfail :
    forall (fuel : nat) (caches : Caches) (newUserId : string)
           (preferences : Preferences) (sponsorUser : User),
      getUserById db start = Some sponsorUser ->
      noFreeSlotWithin db start (maxDepthOf preferences) ->
      enhancedAutoPlacement scorePlacementPosition (S fuel) caches db
                            newUserId start preferences
      = Some (db,
              {| success := false;
                 placement := None;
                 message := NoSuitablePosition;
                 resultAlgorithm := Some (label_of (algorithmOf preferences));
                 stats := None |})).
  { intros fuel caches newUserId preferences sponsorUser Hs Hnone.
    cbn [enhancedAutoPlacement]. rewrite Hs.
    assert (Hside : freePreferredSide sponsorUser preferences = None).
    { unfold freePreferredSide.
      pose proof (maxDepthOf_pos preferences) as Hpos.
      destruct (preferredSide preferences) as [[| |]|]; try reflexivity.
      - destruct (truthy_ostr (leftChild sponsorUser)) eqn:E; [reflexivity|].
        exfalso.
        apply (Hnone start 0%nat sponsorUser side_left); auto.
        constructor.
      - destruct (truthy_ostr (rightChild sponsorUser)) eqn:E; [reflexivity|].
        exfalso.
        apply (Hnone start 0%nat sponsorUser side_right); auto.
        constructor. }
    rewrite Hside. unfold findOptimalPlacement.
    apply noFreeSlot_no_candidates in Hnone. rewrite Hnone. reflexivity. }
  split; [|split; [|split; [|split]]].
  - intros bound d c Hin.
    apply (findAvailablePositions_sound db bound (S bound - d) start d);
      auto.
  - intros bound. apply noFreeSlot_no_candidates.
  - exact Hfail.
  - intros fuel caches newUserId preferences sponsorUser Ht Hs Hnone.
    unfold placeBinaryUser, placeBinaryUserWith. cbn [truthy_ostr].
    rewrite Ht. cbv beta iota. rewrite Ht.
    now apply (Hfail fuel caches newUserId preferences sponsorUser).
  - intros fuel caches newUserId preferences Hs.
    cbn [enhancedAutoPlacement]. now rewrite Hs.
Qed.

Lemma placement_search_bounded_witness :
  enhancedAutoPlacement flatScore 3 emptyCaches sampleTree "new" "r" oneLevel
  = Some (sampleTree,
          {| success := false;
             placement := None;
             message := NoSuitablePosition;
             resultAlgorithm := Some (label_of balanced);
             stats := None |})
  /\ Forall (fun c => (depth c <= 2)%nat)
            (findAvailablePositions sampleTree "r" 2 1).
Proof.
  split.
  - apply (proj1 (proj2 (proj2 (placement_search_bounded flatScore sampleTree
                                  "r")))
             2%nat emptyCaches "new"%string oneLevel
             (node "r" None (Some "a"%string) (Some "b"%string) 0) eq_refl).
    apply (proj2 (noFreeSlot_no_candidates sampleTree "r" 1)).
    reflexivity.
  - apply Forall_forall. intros c Hin.
    apply (proj1 (placement_search_bounded flatScore sampleTree "r")
             2%nat 1%nat c Hin).
Defined.

(** ** Member store: update and removal *)

Lemma withUsers_same (db : Db) : withUsers db (users db) = db.
Proof. now destruct db. Qed.

Lemma updateFirst_absent {A : Type} (p : A -> bool) (f : A -> A)
    (xs : list A) :
  find p xs = None -> updateFirst p f xs = xs.
Proof.
  induction xs as [|x xs IH]; simpl; [reflexivity|].
  destruct (p x); [discriminate|]. intros H. now rewrite IH.
Qed.

Lemma updateFirst_length {A : Type} (p : A -> bool) (f : A -> A)
    (xs : list A) :
  length (updateFirst p f xs) = length xs.
Proof.
  induction xs as [|x xs IH]; simpl; [reflexivity|].
  destruct (p x); simpl; [reflexivity | now rewrite IH].
Qed.

(** X18. For updates that leave the id alone, [updateUser] is an update
    in place: an unknown id leaves the store as it is; a known id is
    looked up afterwards as the updated record; the lookup of every
    other id gives what it gave before, and the number of records is
    unchanged. *)
Theorem updateUser_lookup (db : Db) (k : string) (updates : User -> User) :
  (forall x, id (updates x) = id x) ->
  match getUserById db k with
  | Some old => getUserById (updateUser db k updates) k = Some (updates old)
  | None => updateUser db k updates = db
  end
  /\ (forall k', k' <> k ->
        getUserById (updateUser db k updates) k' = getUserById db k')
  /\ length (users (updateUser db k updates)) = length (users db).
Proof.
  intros Hid.
  assert (Hk : forall x, id x = k -> id (updates x) = k)
    by (intros x <-; apply Hid).
  split; [|split].
  - destruct (getUserById db k) as [old|] eqn:E.
    + now rewrite getUserById_updateUser_same, E.
    + unfold updateUser. unfold getUserById, findById in E.
      rewrite updateFirst_absent by exact E. apply withUsers_same.
  - intros k' Hne. now apply getUserById_updateUser_other.
  - unfold updateUser, withUsers. cbn [users]. apply updateFirst_length.
Qed.

Lemma updateUser_lookup_witness :
  getUserById (updateUser (dbOf sampleLine) "s1" (withSponsorId "s7")) "s1"
  = Some (withSponsorId "s7" (activeMember "s1" (Some "s2"%string)))
  /\ getUserById (updateUser (dbOf sampleLine) "s1" (withSponsorId "s7")) "b"
     = getUserById (dbOf sampleLine) "b".
Proof.
  destruct (updateUser_lookup (dbOf sampleLine) "s1" (withSponsorId "s7"))
    as (Hsame & Hother & _).
  - intros x. reflexivity.
  - split; [exact Hsame|]. apply Hother. discriminate.
Defined.

Lemma spliceFirst_spec {A : Type} (p : A -> bool) (xs : list A) :
  match find p xs with
  | Some u =>
      exists before after,
        xs = before ++ u :: after
        /\ Forall (fun x => p x = false) before
        /\ spliceFirst p xs = Some (before ++ after)
  | None => spliceFirst p xs = None
  end.
Proof.
  induction xs as [|x xs IH]; [reflexivity|].
  cbn [find spliceFirst]. destruct (p x) eqn:E.
  - exists [], xs. repeat split. constructor.
  - destruct (find p xs) as [u|].
    + destruct IH as (before & after & -> & Hb & ->).
      exists (x :: before), after. repeat split. now constructor.
    + now rewrite IH.
Qed.

Lemma find_app_skip {A : Type} (q : A -> bool) (before after : list A) :
  Forall (fun x => q x = false) before ->
  find q (before ++ after) = find q after.
Proof.
  induction 1 as [|x before Hx _ IH]; [reflexivity|].
  cbn [app find]. now rewrite Hx.
Qed.

(** X19. [deleteUser] takes out one record, the first with the id, and
    nothing else: an unknown id leaves the store as it is and answers
    false; the lookup of every other id gives what it gave before.  The
    references to the deleted member stay: whoever names the deleted id
    as sponsor is still listed among its direct referrals. *)
Theorem deleteUser_removes_first (db : Db) (k : string) :
  match getUserById db k with
  | None => deleteUser db k = (db, false)
  | Some u =>
      exists before after : list User,
        users db = before ++ u :: after
        /\ Forall (fun x => id x <> k) before
        /\ deleteUser db k = (withUsers db (before ++ after), true)
  end
  /\ (forall k', k' <> k ->
        getUserById (fst (deleteUser db k)) k' = getUserById db k')
  /\ (forall x, In x (getDirectReferrals db k) -> id x <> k ->
        In x (getDirectReferrals (fst (deleteUser db k)) k)).
Proof.
  unfold deleteUser, getUserById, findById.
  pose proof (spliceFirst_spec (fun user => String.eqb (id user) k)
                               (users db)) as H.
  destruct (find (fun user => String.eqb (id user) k) (users db)) as [u|]
    eqn:Efind.
  - destruct H as (before & after & Hus & Hb & ->). cbn [fst].
    assert (Hb' : Forall (fun x => id x <> k) before).
    { eapply Forall_impl; [|exact Hb]. intros x Hx. now apply String.eqb_neq. }
    assert (Hu : id u = k).
    { apply find_some in Efind. now apply String.eqb_eq. }
    split; [exists before, after; now repeat split|]. split.
    + intros k' Hne. unfold withUsers. cbn [users]. rewrite Hus.
      assert (Hskip : Forall (fun x => String.eqb (id x) k' = false) [u]).
      { constructor; [|constructor]. apply String.eqb_neq. congruence. }
      clear Hb Hb' Efind Hus. induction before as [|y before IH].
      * cbn [app find]. rewrite (Forall_inv Hskip). reflexivity.
      * cbn [app find]. destruct (String.eqb (id y) k'); [reflexivity|].
        apply IH.
    + intros x Hx Hne. unfold getDirectReferrals in *.
      unfold withUsers. cbn [users]. rewrite Hus in Hx.
      apply filter_In in Hx. destruct Hx as [Hin Hp].
      apply filter_In. split; [|exact Hp].
      apply in_app_or in Hin. apply in_or_app.
      destruct Hin as [Hin|[<-|Hin]]; [now left| |now right].
      contradiction.
  - rewrite H. cbn [fst]. split; [reflexivity|].
    split; [reflexivity|]. intros x Hx _. exact Hx.
Qed.

(** ** Transfers between members *)

Lemma withWallet_same (u : User) : withWallet (wallet u) u = u.
Proof. now destruct u. Qed.

Lemma updateFirst_same {A : Type} (p : A -> bool) (u : A) (xs : list A) :
  find p xs = Some u -> updateFirst p (fun _ => u) xs = xs.
Proof.
  induction xs as [|x xs IH]; simpl; [discriminate|].
  destruct (p x); intros H.
  - now injection H as ->.
  - now rewrite IH.
Qed.

Lemma updateUserWallet_transfer (db : Db) (k : string) (a : Q) :
  updateUserWallet db k a transfer = db.
Proof.
  unfold updateUserWallet. destruct (getUserById db k) as [user|] eqn:E;
    [|reflexivity].
  rewrite withWallet_same. unfold updateUser.
  unfold getUserById, findById in E.
  rewrite updateFirst_same by exact E. apply withUsers_same.
Qed.

(** X20. A transfer between members moves no money.  The handler answers
    200 exactly when sender and receiver are on record and the amount
    does not exceed the balance of the sender, 404 when one of them is
    missing and 400 otherwise; in every case it leaves the wallet of every
    member as it was, because the wallet update has no case for the
    transaction type it records. *)
Theorem transferFunds_moves_no_money
    (db : Db) (fromUserId toUserEmail : string) (amount' : Q) :
  fst (Routes.transferFunds db fromUserId toUserEmail amount') = db
  /\ snd (Routes.transferFunds db fromUserId toUserEmail amount')
     = match getUserById db fromUserId, getUserByEmail db toUserEmail with
       | Some fromUser, Some _ =>
           if Qle_bool amount' (balance (wallet fromUser))
           then 200%nat else 400%nat
       | _, _ => 404%nat
       end.
Proof.
  unfold Routes.transferFunds.
  destruct (getUserById db fromUserId) as [fromUser|];
    [|split; reflexivity].
  destruct (getUserByEmail db toUserEmail) as [toUser|];
    [|split; reflexivity].
  destruct (Qle_bool amount' (balance (wallet fromUser)));
    cbn [negb fst snd]; [|split; reflexivity].
  split; [|reflexivity].
  unfold createTransaction. cbn [status userId amount type].
  now rewrite !updateUserWallet_transfer.
Qed.

(** ** Binary tree: placing a member *)

Lemma withSlot_id (side : Side) (c : string) (x : User) :
  id (withSlot side c x) = id x.
Proof. now destruct side. Qed.

Lemma slotOf_withSlot (side : Side) (c : string) (x : User) :
  slotOf side (withSlot side c x) = Some c.
Proof. now destruct side. Qed.

Lemma slotOf_withSponsorId (side : Side) (s : string) (x : User) :
  slotOf side (withSponsorId s x) = slotOf side x.
Proof. now destruct side. Qed.

Lemma executeBinaryPlacement_withSlot (db : Db) (newUserId parent : string)
    (side : Side) :
  executeBinaryPlacement db newUserId parent side =
  match getUserById db parent with
  | None => Throw "Parent user not found"
  | Some _ =>
      Return (updateUser (updateUser db parent (withSlot side newUserId))
                         newUserId (withSponsorId parent))
  end.
Proof.
  unfold executeBinaryPlacement.
  destruct (getUserById db parent); [|reflexivity]. now destruct side.
Qed.

(** What the two updates of a placement leave behind. *)
Lemma placement_updates_effect (db : Db) (newUserId parent : string)
    (side : Side) (p : User) :
  getUserById db parent = Some p ->
  let db' :=
    updateUser (updateUser db parent (withSlot side newUserId))
               newUserId (withSponsorId parent) in
  (exists p', getUserById db' parent = Some p'
              /\ slotOf side p' = Some newUserId)
  /\ (forall n, getUserById db newUserId = Some n ->
        exists n', getUserById db' newUserId = Some n'
                   /\ sponsorId n' = Some parent)
  /\ (forall k, k <> parent -> k <> newUserId ->
        getUserById db' k = getUserById db k).
Proof.
  intros Hp. cbv zeta.
  assert (Hslot : forall x, id x = parent ->
                            id (withSlot side newUserId x) = parent)
    by (intros x <-; apply withSlot_id).
  assert (Hsp : forall x, id x = newUserId ->
                          id (withSponsorId parent x) = newUserId)
    by (intros x <-; reflexivity).
  split; [|split].
  - destruct (string_dec parent newUserId) as [E|Hne].
    + subst newUserId.
      rewrite getUserById_updateUser_same by exact Hsp.
      rewrite getUserById_updateUser_same by exact Hslot.
      rewrite Hp. cbn [option_map]. eexists. split; [reflexivity|].
      now rewrite slotOf_withSponsorId, slotOf_withSlot.
    + rewrite getUserById_updateUser_other by assumption.
      rewrite getUserById_updateUser_same by exact Hslot.
      rewrite Hp. cbn [option_map]. eexists. split; [reflexivity|].
      apply slotOf_withSlot.
  - intros n Hn. rewrite getUserById_updateUser_same by exact Hsp.
    destruct (string_dec newUserId parent) as [E|Hne].
    + subst newUserId.
      rewrite getUserById_updateUser_same by exact Hslot.
      rewrite Hp. cbn [option_map]. eexists. split; reflexivity.
    + rewrite getUserById_updateUser_other by assumption.
      rewrite Hn. cbn [option_map]. eexists. split; reflexivity.
  - intros k Hk1 Hk2.
    rewrite getUserById_updateUser_other by assumption.
    now rewrite getUserById_updateUser_other by assumption.
Qed.

(** X21. [executeBinaryPlacement] fails only for a parent that is not on
    record, and then the store is not touched.  Otherwise it writes the
    new member into the slot of the parent, whether or not that slot was
    taken, and makes the parent the sponsor of the new member when that
    member is on record; no other record changes. *)
Theorem executeBinaryPlacement_effect
    (db : Db) (newUserId parent : string) (side : Side) :
  match executeBinaryPlacement db newUserId parent side with
  | Throw _ => getUserById db parent = None
  | Return db' =>
      (exists p', getUserById db' parent = Some p'
                  /\ slotOf side p' = Some newUserId)
      /\ (forall n, getUserById db newUserId = Some n ->
            exists n', getUserById db' newUserId = Some n'
                       /\ sponsorId n' = Some parent)
      /\ (forall k, k <> parent -> k <> newUserId ->
            getUserById db' k = getUserById db k)
  end.
Proof.
  rewrite executeBinaryPlacement_withSlot.
  destruct (getUserById db parent) as [p|] eqn:Hp; [|reflexivity].
  apply (placement_updates_effect db newUserId parent side p Hp).
Qed.

(** X22. A manual placement goes through exactly when the member and the
    parent are on record and the slot of the parent is free; a refused
    placement leaves the store as it is.  One that goes through does
    what [executeBinaryPlacement] does: it fills the slot and rewrites the
    sponsor of the member, and it touches no other record, so a slot that
    held the member before still holds it. *)
Theorem adminPlaceUserInBinary_guarded
    (db : Db) (userId' parent : string) (side : Side) :
  let r := adminPlaceUserInBinary db userId' parent side in
  (adminSuccess (snd r) = true
   <-> exists u p, getUserById db userId' = Some u
                   /\ getUserById db parent = Some p
                   /\ truthy_ostr (slotOf side p) = false)
  /\ (adminSuccess (snd r) = false -> fst r = db)
  /\ (adminSuccess (snd r) = true ->
      executeBinaryPlacement db userId' parent side = Return (fst r)
      /\ forall k, k <> parent -> k <> userId' ->
           getUserById (fst r) k = getUserById db k).
Proof.
  cbv zeta. unfold adminPlaceUserInBinary.
  rewrite executeBinaryPlacement_withSlot.
  destruct (getUserById db userId') as [u|] eqn:Hu.
  - destruct (getUserById db parent) as [p|] eqn:Hp.
    + destruct (truthy_ostr (slotOf side p)) eqn:Hs; cbn [fst snd adminSuccess].
      * split; [|split; [reflexivity|discriminate]].
        split; [discriminate|]. intros (u0 & p0 & _ & Hp0 & Hfree).
        injection Hp0 as <-. congruence.
      * split; [|split; [discriminate|]].
        -- split; [|reflexivity]. intros _. now exists u, p.
        -- intros _. split; [reflexivity|].
           apply (placement_updates_effect db userId' parent side p Hp).
    + cbn [fst snd adminSuccess].
      split; [|split; [reflexivity|discriminate]].
      split; [discriminate|]. intros (u0 & p0 & _ & Hp0 & _). discriminate.
  - cbn [fst snd adminSuccess].
    split; [|split; [reflexivity|discriminate]].
    split; [discriminate|]. intros (u0 & p0 & Hu0 & _). discriminate.
Qed.

(** ** Binary tree: team size *)

Lemma mapF_none {A B : Type} (f : A -> option B) (l : list A) (x : A) :
  In x l -> f x = None -> mapF f l = None.
Proof.
  induction l as [|y l IH]; intros Hin Hx; [destruct Hin|].
  cbn [mapF]. destruct Hin as [->|Hin].
  - now rewrite Hx.
  - destruct (f y); [|reflexivity]. cbn [bindF]. now rewrite IH.
Qed.

Lemma getTotalTeamSize_own_sponsor (db : Db) (r : User) :
  In r (users db) ->
  sponsorId r = Some (id r) ->
  forall fuel, getTotalTeamSize fuel db emptyCaches (id r) = None.
Proof.
  intros Hin Hs fuel. induction fuel as [|fuel IH]; [reflexivity|].
  cbn [getTotalTeamSize emptyCaches teamSizeCache].
  rewrite (mapF_none _ (getDirectReferrals db (id r)) r);
    [reflexivity| |exact IH].
  unfold getDirectReferrals. apply filter_In. split; [exact Hin|].
  rewrite Hs. apply String.eqb_refl.
Qed.

(** X23. A manual placement accepts a member as their own parent: when
    the member is on record with the slot free, the call succeeds, and
    afterwards the team size of that member is never returned, since the
    member now counts among their own direct referrals. *)
Theorem adminPlaceUserInBinary_accepts_own_parent
    (db : Db) (u : string) (side : Side) (user : User) :
  getUserById db u = Some user ->
  truthy_ostr (slotOf side user) = false ->
  let r := adminPlaceUserInBinary db u u side in
  adminSuccess (snd r) = true
  /\ forall fuel, getTotalTeamSize fuel (fst r) emptyCaches u = None.
Proof.
  intros Hu Hfree. cbv zeta. unfold adminPlaceUserInBinary.
  rewrite Hu, Hfree. cbn [fst snd adminSuccess]. split; [reflexivity|].
  destruct (placement_updates_effect db u u side user Hu) as (_ & Hn & _).
  destruct (Hn user Hu) as (n' & Hn' & Hs).
  unfold getUserById in Hn'. apply findById_found in Hn'.
  destruct Hn' as [Hin Hid]. subst u.
  now apply getTotalTeamSize_own_sponsor.
Qed.

Lemma adminPlaceUserInBinary_accepts_own_parent_witness :
  adminSuccess
    (snd (adminPlaceUserInBinary (dbOf sampleLine) "s7" "s7" side_left))
  = true
  /\ getTotalTeamSize 1000
       (fst (adminPlaceUserInBinary (dbOf sampleLine) "s7" "s7" side_left))
       emptyCaches "s7" = None.
Proof.
  destruct (adminPlaceUserInBinary_accepts_own_parent
              (dbOf sampleLine) "s7" side_left (activeMember "s7" None)
              eq_refl eq_refl) as [Hs Hn].
  split; [exact Hs | exact (Hn 1000%nat)].
Defined.

Lemma sumNat_shift (l : list nat) :
  forall a : nat, fold_left Nat.add l a = (a + fold_left Nat.add l 0)%nat.
Proof.
  induction l as [|x l IH]; intros a; cbn [fold_left]; [lia|].
  rewrite (IH (a + x)%nat), (IH (0 + x)%nat). lia.
Qed.

Lemma length_concat_sumNat {A : Type} (ls : list (list A)) :
  length (concat ls) = sumNat (map (@length A) ls).
Proof.
  induction ls as [|l ls IH]; [reflexivity|].
  cbn [concat map]. rewrite length_app, IH. unfold sumNat.
  cbn [fold_left]. rewrite (sumNat_shift _ (0 + length l)%nat). lia.
Qed.

Lemma mapF_lengths {A B : Type} (g1 : A -> option (list B))
    (g2 : A -> option nat) (l : list A) :
  (forall x m, g1 x = Some m -> g2 x = Some (length m)) ->
  forall subTeams, mapF g1 l = Some subTeams ->
                   mapF g2 l = Some (map (@length B) subTeams).
Proof.
  intros H. induction l as [|x l IH]; intros subTeams.
  - cbn. intros E. now injection E as <-.
  - cbn [mapF]. destruct (g1 x) as [m|] eqn:E1; [|discriminate].
    cbn [bindF]. destruct (mapF g1 l) as [ms|]; [|discriminate].
    cbn [bindF]. intros E. injection E as <-.
    rewrite (H x m E1). cbn [bindF]. rewrite (IH ms eq_refl). reflexivity.
Qed.

(** X24. With cold caches the team size is the number of team members:
    whenever [getAllTeamMembers] returns the list of the members below a
    member, [getTotalTeamSize] returns within the same bound, and its
    result is the length of that list. *)
Theorem getTotalTeamSize_counts_members
    (fuel : nat) (db : Db) (k : string) (members : list User) :
  getAllTeamMembers fuel db k = Some members ->
  getTotalTeamSize fuel db emptyCaches k = Some (length members).
Proof.
  revert k members. induction fuel as [|fuel IH]; intros k members;
    [discriminate|].
  cbn [getAllTeamMembers getTotalTeamSize emptyCaches teamSizeCache].
  destruct (mapF (fun referral => getAllTeamMembers fuel db (id referral))
                 (getDirectReferrals db k)) as [subTeams|] eqn:E;
    [|discriminate].
  cbn [bindF]. intros H. injection H as <-.
  rewrite (mapF_lengths
             (fun referral => getAllTeamMembers fuel db (id referral))
             (fun referral => getTotalTeamSize fuel db emptyCaches
                                               (id referral))
             (getDirectReferrals db k)
             (fun x m Hm => IH (id x) m Hm) subTeams E).
  cbn [bindF]. now rewrite length_app, length_concat_sumNat.
Qed.

Lemma getTotalTeamSize_counts_members_witness :
  getTotalTeamSize 9 (dbOf sampleLine) emptyCaches "s7" = Some 7%nat.
Proof.
  eapply (eq_trans
            (getTotalTeamSize_counts_members 9 (dbOf sampleLine) "s7" _
               eq_refl)).
  reflexivity.
Defined.

(** ** Binary placement: the best candidate *)

Lemma insertByScore_perm (x : ScoredPosition) (l : list ScoredPosition) :
  Permutation (insertByScore x l) (x :: l).
Proof.
  induction l as [|y l IH]; [apply Permutation_refl|].
  cbn [insertByScore]. destruct (Qle_bool (score x) (score y)).
  - apply Permutation_refl.
  - eapply perm_trans; [apply perm_skip, IH | apply perm_swap].
Qed.

Lemma sortByScore_perm (l : list ScoredPosition) :
  Permutation (sortByScore l) l.
Proof.
  induction l as [|x l IH]; [apply perm_nil|].
  unfold sortByScore in *. cbn [fold_right].
  eapply perm_trans; [apply insertByScore_perm | now apply perm_skip].
Qed.

Lemma insertByScore_sorted (x : ScoredPosition) (l : list ScoredPosition) :
  StronglySorted byScore l -> StronglySorted byScore (insertByScore x l).
Proof.
  induction l as [|y l IH]; intros Hs.
  - repeat constructor.
  - cbn [insertByScore]. inversion Hs as [|? ? Hl Hy]; subst.
    destruct (Qle_bool (score x) (score y)) eqn:E.
    + apply Qle_bool_iff in E. constructor; [exact Hs|].
      constructor; [exact E|].
      eapply Forall_impl; [|exact Hy]. intros z Hz.
      unfold byScore in *. now apply Qle_trans with (score y).
    + constructor; [now apply IH|].
      assert (Hyx : byScore y x).
      { unfold byScore. apply Qlt_le_weak, Qnot_le_lt.
        intros Hle. apply Qle_bool_iff in Hle. congruence. }
      eapply Permutation_Forall;
        [apply Permutation_sym, insertByScore_perm|].
      now constructor.
Qed.

Lemma sortByScore_sorted (l : list ScoredPosition) :
  StronglySorted byScore (sortByScore l).
Proof.
  induction l as [|x l IH]; [constructor|].
  unfold sortByScore in *. cbn [fold_right].
  now apply insertByScore_sorted.
Qed.

Lemma findOptimalPlacement_spec
    (scorePlacementPosition : Db -> Position -> Algorithm -> Preferences -> Q)
    (db : Db) (sponsor : string) (algorithm' : Algorithm) (maxDepth' : nat)
    (preferences : Preferences) :
  let candidates := findAvailablePositions db sponsor maxDepth' 1 in
  match findOptimalPlacement scorePlacementPosition db sponsor algorithm'
                             maxDepth' preferences with
  | None => candidates = []
  | Some best =>
      In (place best) candidates
      /\ score best
         = scorePlacementPosition db (place best) algorithm' preferences
      /\ forall c, In c candidates ->
           score best <= scorePlacementPosition db c algorithm' preferences
  end.
Proof.
  cbv zeta. unfold findOptimalPlacement.
  destruct (findAvailablePositions db sponsor maxDepth' 1) as [|c0 cs] eqn:Ec;
    [reflexivity|].
  set (scored := map (fun c => {| place := c;
                                  score := scorePlacementPosition
                                             db c algorithm' preferences |})
                     (c0 :: cs)).
  pose proof (sortByScore_perm scored) as Hperm.
  pose proof (sortByScore_sorted scored) as Hsorted.
  destruct (sortByScore scored) as [|best rest] eqn:Es.
  - apply Permutation_nil in Hperm. discriminate Hperm.
  - cbn [hd_error].
    assert (Hbest : In best scored).
    { eapply Permutation_in; [exact Hperm | now left]. }
    apply in_map_iff in Hbest. destruct Hbest as (cb & <- & Hcb).
    cbn [place score]. split; [exact Hcb|]. split; [reflexivity|].
    intros c Hc.
    assert (Hin : In {| place := c;
                        score := scorePlacementPosition
                                   db c algorithm' preferences |}
                     ({| place := cb;
                         score := scorePlacementPosition
                                    db cb algorithm' preferences |} :: rest)).
    { eapply Permutation_in; [apply Permutation_sym, Hperm|].
      apply in_map_iff. now exists c. }
    inversion Hsorted as [|? ? _ Hall]; subst.
    destruct Hin as [E|Hin].
    + injection E as <-. apply Qle_refl.
    + rewrite Forall_forall in Hall. apply (Hall _ Hin).
Qed.

(** X25. Whatever the scoring, [findOptimalPlacement] returns a free
    position with the lowest score: the result is one of the positions
    found by [findAvailablePositions], it carries the score of that
    position, and no position found scores lower.  It returns nothing
    exactly when no position was found. *)
Theorem findOptimalPlacement_minimal
    (scorePlacementPosition : Db -> Position -> Algorithm -> Preferences -> Q)
    (db : Db) (sponsor : string) (algorithm' : Algorithm) (maxDepth' : nat)
    (preferences : Preferences) :
  let candidates := findAvailablePositions db sponsor maxDepth' 1 in
  match findOptimalPlacement scorePlacementPosition db sponsor algorithm'
                             maxDepth' preferences with
  | None => candidates = []
  | Some best =>
      In (place best) candidates
      /\ score best
         = scorePlacementPosition db (place best) algorithm' preferences
      /\ forall c, In c candidates ->
           score best <= scorePlacementPosition db c algorithm' preferences
  end.
Proof.
  exact (findOptimalPlacement_spec scorePlacementPosition db sponsor
           algorithm' maxDepth' preferences).
Qed.

(** ** Binary tree: moving a member *)

(** X26. Moving a member who is on record, has a sponsor on record, and
    is neither that sponsor nor the new parent, to a free slot of a new
    parent other than the sponsor: the move succeeds; the new parent
    holds the member in the slot asked for; the new parent becomes the
    sponsor of the member; and the sponsor so far loses the member from
    the left slot when it held the member there, else from the right slot
    when it held the member there, and is unchanged otherwise.  No other
    record changes. *)
Theorem adminMoveUser_moves
    (db : Db) (u newParentId : string) (side : Side)
    (user newParent : User) (s : string) (sponsor : User) :
  getUserById db u = Some user ->
  getUserById db newParentId = Some newParent ->
  truthy_ostr (slotOf side newParent) = false ->
  sponsorId user = Some s ->
  truthy_str s = true ->
  getUserById db s = Some sponsor ->
  s <> newParentId -> s <> u -> u <> newParentId ->
  let r := adminMoveUser db u newParentId side in
  adminSuccess (snd r) = true
  /\ getUserById (fst r) newParentId = Some (withSlot side u newParent)
  /\ getUserById (fst r) u = Some (withSponsorId newParentId user)
  /\ getUserById (fst r) s
     = Some (if holds (leftChild sponsor) u then withoutLeftChild sponsor
             else if holds (rightChild sponsor) u
                  then withoutRightChild sponsor
                  else sponsor)
  /\ (forall k, k <> s -> k <> newParentId -> k <> u ->
        getUserById (fst r) k = getUserById db k).
Proof.
  intros Hu Hnp Hfree Hs Hts Hsp Hne1 Hne2 Hne3. cbv zeta.
  unfold adminMoveUser. rewrite Hu, Hnp, Hfree. cbn [fst snd adminSuccess].
  unfold vacate. rewrite Hs, Hts, Hsp.
  assert (Hids : id sponsor = s).
  { unfold getUserById in Hsp. now apply findById_found in Hsp. }
  rewrite Hids.
  set (updates := if holds (leftChild sponsor) u then withoutLeftChild
                  else if holds (rightChild sponsor) u
                       then withoutRightChild
                       else fun old => old).
  assert (Hupd : forall x, id x = s -> id (updates x) = s).
  { intros x <-. unfold updates.
    destruct (holds (leftChild sponsor) u); [reflexivity|].
    destruct (holds (rightChild sponsor) u); reflexivity. }
  assert (Hslot : forall x, id x = newParentId ->
                            id (withSlot side u x) = newParentId)
    by (intros x <-; apply withSlot_id).
  assert (Hspo : forall x, id x = u -> id (withSponsorId newParentId x) = u)
    by (intros x <-; reflexivity).
  split; [reflexivity|]. split; [|split; [|split]].
  - rewrite getUserById_updateUser_other by (try exact Hspo; congruence).
    rewrite getUserById_updateUser_same by exact Hslot.
    rewrite getUserById_updateUser_other by (try exact Hupd; congruence).
    now rewrite Hnp.
  - rewrite getUserById_updateUser_same by exact Hspo.
    rewrite getUserById_updateUser_other by (try exact Hslot; congruence).
    rewrite getUserById_updateUser_other by (try exact Hupd; congruence).
    now rewrite Hu.
  - rewrite getUserById_updateUser_other by (try exact Hspo; congruence).
    rewrite getUserById_updateUser_other by (try exact Hslot; congruence).
    rewrite getUserById_updateUser_same by exact Hupd.
    rewrite Hsp. cbn [option_map]. unfold updates.
    destruct (holds (leftChild sponsor) u); [reflexivity|].
    destruct (holds (rightChild sponsor) u); reflexivity.
  - intros k Hk1 Hk2 Hk3.
    rewrite getUserById_updateUser_other by (try exact Hspo; congruence).
    rewrite getUserById_updateUser_other by (try exact Hslot; congruence).
    now rewrite getUserById_updateUser_other by (try exact Hupd; congruence).
Qed.

Lemma adminMoveUser_moves_witness :
  getUserById (fst (adminMoveUser sampleTree "a1" "b" side_right)) "b"
  = Some (node "b" (Some "r"%string) None (Some "a1"%string) 0)
  /\ getUserById (fst (adminMoveUser sampleTree "a1" "b" side_right)) "a"
     = Some (node "a" (Some "r"%string) None (Some "a2"%string) 0)
  /\ getUserById (fst (adminMoveUser sampleTree "a1" "b" side_right)) "a1"
     = Some (node "a1" (Some "b"%string) None None 0).
Proof.
  destruct (adminMoveUser_moves sampleTree "a1" "b" side_right
              (node "a1" (Some "a"%string) None None 0)
              (node "b" (Some "r"%string) None None 0)
              "a"
              (node "a" (Some "r"%string) (Some "a1"%string)
                    (Some "a2"%string) 0)
              eq_refl eq_refl eq_refl eq_refl eq_refl eq_refl)
    as (_ & Hb & Hu & Ha & _); try discriminate.
  split; [exact Hb|]. split; [exact Ha|exact Hu].
Defined.

(** ** The sale handler and the wallet of the sponsor *)

Lemma sponsorOf_lookup (us : list User) (user s : User) :
  sponsorOf us user = Some s -> findById us (id s) = Some s.
Proof.
  unfold sponsorOf. destruct (sponsorId user) as [sid|]; [|discriminate].
  destruct (truthy_str sid); [|discriminate]. intros H.
  pose proof (findById_found us sid s H) as [_ Hid]. now rewrite Hid.
Qed.

Lemma recipientSeen_id (adapter : Adapter) (allUsers : list User) (db : Db)
    (k : string) (recipient : User) :
  Routes.recipientSeen adapter allUsers db k = Some recipient ->
  id recipient = k.
Proof.
  destruct adapter; cbn [Routes.recipientSeen]; intros H;
    now apply findById_found in H.
Qed.

Lemma saleStep_other (adapter : Adapter) (allUsers : list User) (db : Db)
    (t : MonolineCommissionService.MonolineCommissionTransaction)
    (k : string) :
  MonolineCommissionService.recipientId t <> k ->
  getUserById (Routes.saleStep adapter allUsers db t) k = getUserById db k.
Proof.
  intros Hne. unfold Routes.saleStep.
  destruct (Routes.recipientSeen adapter allUsers db
              (MonolineCommissionService.recipientId t))
    as [recipient|] eqn:E; [|reflexivity].
  apply recipientSeen_id in E.
  cbn [MonolineCommissionService.processCommissionTransaction id].
  apply getUserById_updateUser_other; [congruence|].
  intros x Hx. reflexivity.
Qed.

Lemma saleFold_other (adapter : Adapter) (allUsers : list User)
    (k : string)
    (ts : list MonolineCommissionService.MonolineCommissionTransaction) :
  Forall (fun t => MonolineCommissionService.recipientId t <> k) ts ->
  forall db,
    getUserById (fold_left (Routes.saleStep adapter allUsers) ts db) k
    = getUserById db k.
Proof.
  induction 1 as [|t ts Ht _ IH]; intros db; [reflexivity|].
  cbn [fold_left]. rewrite IH. now apply saleStep_other.
Qed.

Lemma saleStep_recipient (adapter : Adapter) (allUsers : list User)
    (db : Db)
    (t : MonolineCommissionService.MonolineCommissionTransaction)
    (seen stored : User) :
  Routes.recipientSeen adapter allUsers db
    (MonolineCommissionService.recipientId t) = Some seen ->
  getUserById db (MonolineCommissionService.recipientId t) = Some stored ->
  getUserById (Routes.saleStep adapter allUsers db t)
              (MonolineCommissionService.recipientId t)
  = Some (MonolineCommissionService.processCommissionTransaction t seen).
Proof.
  intros Hseen Hstored. unfold Routes.saleStep. rewrite Hseen.
  pose proof (recipientSeen_id _ _ _ _ _ Hseen) as Hid.
  cbn [MonolineCommissionService.processCommissionTransaction id].
  rewrite Hid.
  rewrite getUserById_updateUser_same by (intros x Hx; exact Hid).
  now rewrite Hstored.
Qed.

(** X27. The sale handler and a fully active direct sponsor, in a
    directory where no member further up the line shares the id of the
    sponsor.  The sale is answered with 200.  With the file-backed store
    every transaction is applied to the record read before the loop, so
    the second one for the sponsor overwrites the first: the balance of
    the sponsor rises by the amount of the first depth level alone.  With
    the in-memory store it rises by the direct sponsor bonus and the
    first depth level. *)
Theorem sale_credits_sponsor
    (adapter : Adapter) (db : Db) (b : string) (price : Q)
    (structure : MonolineCommissionService.MonolineCommissionStructure)
    (buyer sponsor : User) :
  truthy_str b = true ->
  truthy_num price = true ->
  getUserById db b = Some buyer ->
  sponsorOf (users db) buyer = Some sponsor ->
  fullyActive sponsor = true ->
  Forall (fun u => id u <> id sponsor)
         (MonolineCommissionService.getUplineChain sponsor (users db) 6) ->
  let r := Routes.sale adapter db b price (Some structure) in
  let direct :=
    MonolineCommissionService.amount
      (MonolineCommissionService.directSponsorBonus structure) in
  let first :=
    MonolineCommissionService.amount
      (MonolineCommissionService.level1
         (MonolineCommissionService.depthCommissions structure)) in
  snd r = 200%nat
  /\ exists sponsor' : User,
       getUserById (fst r) (id sponsor) = Some sponsor'
       /\ balance (wallet sponsor')
          == match adapter with
             | file_backed => balance (wallet sponsor) + first
             | in_memory => balance (wallet sponsor) + direct + first
             end.
Proof.
  intros Hb Hp Hbuyer Hs Hact Hchain. cbv zeta.
  unfold Routes.sale. rewrite Hb, Hp. cbn [negb orb].
  destruct (monoline_sponsor_transactions b price (users db) structure
              buyer sponsor Hbuyer Hs Hact) as (res & rest & Hr & Ht & Hwf).
  rewrite Hr, Ht. cbn [fst snd]. split; [reflexivity|].
  cbn [fold_left].
  rewrite saleFold_other.
  2:{ eapply Forall_impl; [|exact Hwf].
      intros t (_ & _ & _ & x & Hx & Hid). rewrite Hid.
      rewrite Forall_forall in Hchain. now apply Hchain. }
  pose proof (sponsorOf_lookup _ _ _ Hs) as Hlook.
  match goal with
  | |- context [Routes.saleStep adapter (users db)
                  (Routes.saleStep adapter (users db) db ?t1) ?t2] =>
      set (tx1 := t1); set (tx2 := t2)
  end.
  assert (H1 : getUserById (Routes.saleStep adapter (users db) db tx1)
                           (id sponsor)
               = Some (MonolineCommissionService.processCommissionTransaction
                         tx1 sponsor)).
  { apply (saleStep_recipient adapter (users db) db tx1 sponsor sponsor).
    - destruct adapter; exact Hlook.
    - exact Hlook. }
  destruct adapter.
  - eexists. split.
    + apply (saleStep_recipient file_backed (users db) _ tx2 sponsor
               (MonolineCommissionService.processCommissionTransaction
                  tx1 sponsor)); [exact Hlook | exact H1].
    + cbn. reflexivity.
  - eexists. split.
    + apply (saleStep_recipient in_memory (users db) _ tx2
               (MonolineCommissionService.processCommissionTransaction
                  tx1 sponsor)
               (MonolineCommissionService.processCommissionTransaction
                  tx1 sponsor)); [exact H1 | exact H1].
    + cbn. reflexivity.
Qed.

Lemma sale_credits_sponsor_witness :
  exists sponsor' : User,
    getUserById
      (fst (Routes.sale file_backed (dbOf sampleLine) "b" 20
              (Some MonolineCommissionService.getDefaultCommissionStructure)))
      "s1" = Some sponsor'
    /\ balance (wallet sponsor') == 250 # 100.
Proof.
  destruct (sale_credits_sponsor file_backed (dbOf sampleLine) "b" 20
              MonolineCommissionService.getDefaultCommissionStructure
              (activeMember "b" (Some "s1"%string))
              (activeMember "s1" (Some "s2"%string))
              eq_refl eq_refl eq_refl eq_refl eq_refl)
    as (_ & sponsor' & Hget & Hbal).
  - cbn. repeat constructor; discriminate.
  - exists sponsor'. split; [exact Hget|]. rewrite Hbal. reflexivity.
Defined.

(** ** Binary placement: what a successful placement did *)

(** X28. When no preferred side applies, a placement that reports
    success has filled a slot that was free: the position reported is one
    found by the search from the sponsor, at a depth between 1 and the
    bound; the slot of its parent was free before the call and holds the
    new member afterwards; and no position found scores lower. *)
Theorem enhancedAutoPlacement_fills_free_slot
    (scorePlacementPosition : Db -> Position -> Algorithm -> Preferences -> Q)
    (fuel : nat) (caches : Caches) (db db' : Db) (newUserId sponsor : string)
    (preferences : Preferences) (sponsorUser : User)
    (result : PlacementResult) :
  getUserById db sponsor = Some sponsorUser ->
  freePreferredSide sponsorUser preferences = None ->
  enhancedAutoPlacement scorePlacementPosition fuel caches db newUserId
                        sponsor preferences = Some (db', result) ->
  success result = true ->
  exists (pos : Position) (parent parent' : User),
    placement result = Some pos
    /\ In pos (findAvailablePositions db sponsor (maxDepthOf preferences) 1)
    /\ (1 <= depth pos <= maxDepthOf preferences)%nat
    /\ getUserById db (parentId pos) = Some parent
    /\ slotFree parent (position pos)
    /\ getUserById db' (parentId pos) = Some parent'
    /\ slotOf (position pos) parent' = Some newUserId
    /\ forall c,
         In c (findAvailablePositions db sponsor (maxDepthOf preferences) 1) ->
         scorePlacementPosition db pos (algorithmOf preferences) preferences
         <= scorePlacementPosition db c (algorithmOf preferences) preferences.
Proof.
  intros Hu Hfree Hrun Hok.
  destruct fuel as [|f]; [discriminate Hrun|].
  cbn [enhancedAutoPlacement] in Hrun. rewrite Hu, Hfree in Hrun.
  pose proof (findOptimalPlacement_spec scorePlacementPosition db sponsor
                (algorithmOf preferences) (maxDepthOf preferences)
                preferences) as Hspec.
  cbv zeta in Hspec.
  destruct (findOptimalPlacement scorePlacementPosition db sponsor
              (algorithmOf preferences) (maxDepthOf preferences) preferences)
    as [found|].
  2:{ injection Hrun as <- <-. discriminate Hok. }
  destruct Hspec as (Hin & Hscore & Hmin).
  rewrite executeBinaryPlacement_withSlot in Hrun.
  destruct (findAvailablePositions_sound db (maxDepthOf preferences)
              (S (maxDepthOf preferences)) sponsor 1 ltac:(lia)
              (place found) Hin) as (Hdepth & _ & parent & Hparent & Hslot).
  rewrite Hparent in Hrun.
  destruct (getPlacementStats f _ caches (parentId (place found)))
    as [stats'|]; [|discriminate Hrun].
  cbn [bindF] in Hrun. injection Hrun as <- <-.
  destruct (placement_updates_effect db newUserId (parentId (place found))
              (position (place found)) parent Hparent)
    as ((parent' & Hget & Hheld) & _).
  exists (place found), parent, parent'.
  cbn [placement]. rewrite <- Hscore.
  repeat split; try assumption; lia.
Qed.

Lemma enhancedAutoPlacement_fills_free_slot_witness :
  exists (db' : Db) (result : PlacementResult) (parent' : User),
    enhancedAutoPlacement flatScore 10 emptyCaches sampleTree "n" "r"
                          noPreferences = Some (db', result)
    /\ placement result = Some (candidate "a1" side_left 3)
    /\ getUserById db' "a1" = Some parent'
    /\ leftChild parent' = Some "n"%string.
Proof.
  destruct (enhancedAutoPlacement flatScore 10 emptyCaches sampleTree "n" "r"
              noPreferences) as [[db' result]|] eqn:E;
    [|vm_compute in E; discriminate E].
  assert (Hp : placement result = Some (candidate "a1" side_left 3))
    by (vm_compute in E; injection E as <- <-; reflexivity).
  destruct (enhancedAutoPlacement_fills_free_slot flatScore 10 emptyCaches
              sampleTree db' "n" "r" noPreferences
              (node "r" None (Some "a"%string) (Some "b"%string) 0)
              result eq_refl eq_refl E)
    as (pos & parent & parent' & Hpos & _ & _ & _ & _ & Hget & Hheld & _).
  - vm_compute in E. injection E as <- <-. reflexivity.
  - rewrite Hp in Hpos. injection Hpos as <-.
    exists db', result, parent'. repeat split; assumption.
Defined.

(** X29. A preferred side is reported, not used.  For a sponsor with
    both slots free and a preference for the right side, when the left
    slot scores no higher than the right one under the default search,
    the call places the new member in the left slot of the sponsor and
    reports a placement on the right side. *)
Theorem preferred_side_reported_not_used
    (scorePlacementPosition : Db -> Position -> Algorithm -> Preferences -> Q)
    (f : nat) (caches : Caches) (db : Db) (newUserId sponsor : string)
    (preferences : Preferences) (sponsorUser : User)
    (stats' : option PlacementStats) :
  truthy_str sponsor = true ->
  getUserById db sponsor = Some sponsorUser ->
  truthy_ostr (leftChild sponsorUser) = false ->
  truthy_ostr (rightChild sponsorUser) = false ->
  preferredSide preferences = Some prefer_right ->
  Qle_bool
    (scorePlacementPosition db (candidate sponsor side_left 1) balanced
                            noPreferences)
    (scorePlacementPosition db (candidate sponsor side_right 1) balanced
                            noPreferences) = true ->
  let db1 :=
    updateUser (updateUser db sponsor (withLeftChild newUserId))
               newUserId (withSponsorId sponsor) in
  getPlacementStats f db1 caches sponsor = Some stats' ->
  enhancedAutoPlacement scorePlacementPosition (S (S f)) caches db newUserId
                        sponsor preferences
  = Some (db1,
          {| success := true;
             placement := Some (candidate sponsor side_right 1);
             message := PlacedOnPreferredSide side_right;
             resultAlgorithm := Some label_preferred_side;
             stats := None |})
  /\ exists sponsor' : User,
       getUserById db1 sponsor = Some sponsor'
       /\ leftChild sponsor' = Some newUserId.
Proof.
  intros Ht Hu Hl Hr Hpref Hscore db1 Hstats.
  assert (Hcands : findAvailablePositions db sponsor 7 1
                   = [candidate sponsor side_left 1;
                      candidate sponsor side_right 1]).
  { rewrite findAvailablePositions_unfold. cbn [le_lt_dec].
    destruct (le_lt_dec 1 7) as [_|Hgt]; [|lia]. rewrite Hu.
    unfold truthy_ostr in Hl, Hr.
    destruct (leftChild sponsorUser) as [l|];
      destruct (rightChild sponsorUser) as [r|];
      try rewrite Hl; try rewrite Hr; reflexivity. }
  split.
  - cbn [enhancedAutoPlacement]. rewrite Hu.
    unfold freePreferredSide at 1. rewrite Hpref, Hr.
    unfold placeBinaryUserWith. cbn [truthy_ostr]. rewrite Ht.
    cbv beta. rewrite Hu. cbn [freePreferredSide noPreferences preferredSide].
    unfold findOptimalPlacement.
    change (maxDepthOf noPreferences) with 7%nat.
    change (algorithmOf noPreferences) with balanced.
    rewrite Hcands. cbn [map sortByScore fold_right insertByScore score].
    fold noPreferences. rewrite Hscore.
    cbn [hd_error place parentId position candidate].
    rewrite executeBinaryPlacement_withSlot, Hu. cbn [withSlot].
    fold db1. rewrite Hstats. try rewrite Ht. reflexivity.
  - destruct (placement_updates_effect db newUserId sponsor side_left
                sponsorUser Hu) as ((sponsor' & Hget & Hheld) & _).
    exists sponsor'. split; [exact Hget | exact Hheld].
Qed.

Lemma preferred_side_reported_not_used_witness :
  exists (db1 : Db) (result : PlacementResult) (sponsor' : User),
    enhancedAutoPlacement flatScore 5 emptyCaches sampleTree "n" "b"
      {| algorithm := None; pref_maxDepth := None;
         preferredSide := Some prefer_right;
         considerCareerLevel := false; avoidOverloading := false |}
    = Some (db1, result)
    /\ placement result = Some (candidate "b" side_right 1)
    /\ getUserById db1 "b" = Some sponsor'
    /\ leftChild sponsor' = Some "n"%string
    /\ rightChild sponsor' = None.
Proof.
  destruct (preferred_side_reported_not_used flatScore 3 emptyCaches
              sampleTree "n" "b"
              {| algorithm := None; pref_maxDepth := None;
                 preferredSide := Some prefer_right;
                 considerCareerLevel := false; avoidOverloading := false |}
              (node "b" (Some "r"%string) None None 0)
              (Some {| leftSize := 0; rightSize := 0;
                       leftVolume := PrimFloat.zero;
                       rightVolume := PrimFloat.zero |})
              eq_refl eq_refl eq_refl eq_refl eq_refl eq_refl eq_refl)
    as (Hrun & sponsor' & Hget & Hheld).
  eexists. eexists. exists sponsor'.
  split; [exact Hrun|]. split; [reflexivity|]. split; [exact Hget|].
  split; [exact Hheld|].
  vm_compute in Hget. injection Hget as <-. reflexivity.
Defined.

(** ** Distribution of the passive income pool *)

Lemma findById_of_member (us : list User) (u : User) :
  In u us -> exists u', findById us (id u) = Some u'.
Proof.
  intros Hin. unfold findById.
  destruct (find (fun x => String.eqb (id x) (id u)) us) as [u'|] eqn:E;
    [now exists u'|].
  pose proof (find_none _ _ E u Hin) as Hn. cbv beta in Hn.
  now rewrite String.eqb_refl in Hn.
Qed.

Lemma payRecipients_total (activeUsers : list User) (share : Q) :
  gt0 share = true ->
  forall (rs : list MonolineCommissionService.Recipient) (db : Db)
         (distributed : Q) (paid : nat),
    Forall (fun r =>
              MonolineCommissionService.r_amount r = share
              /\ exists u, findById activeUsers
                             (MonolineCommissionService.r_userId r)
                           = Some u) rs ->
    let '(_, distributed', paid') :=
      fold_left (Routes.payRecipient activeUsers) rs
                (db, distributed, paid) in
    distributed'
    = MonolineCommissionService.addTimes (length rs) distributed share
    /\ paid' = (paid + length rs)%nat.
Proof.
  intros Hshare rs. induction rs as [|r rs IH]; intros db distributed paid H.
  - cbn. split; [reflexivity | lia].
  - inversion H as [|? ? Hr Hrest]; subst. destruct Hr as [Ha (u & Hu)].
    cbn [fold_left Routes.payRecipient]. rewrite Hu, Ha, Hshare.
    specialize (IH (updateUser db (id u)
                      (fun _ => Routes.withPassiveShare share u))
                   (distributed + share) (S paid) Hrest).
    destruct (fold_left _ rs _) as [[db' d'] p'].
    destruct IH as [Hd Hp]. split.
    + rewrite Hd. reflexivity.
    + rewrite Hp. cbn [length]. lia.
Qed.

(** X30. The distribution of the passive income pool empties the pool
    whenever the pool is positive and some member is active.  When some
    active member is also fully active, each of them is paid one share,
    the pool divided by their number, and the amount reported as
    distributed is that share added to 0 once for each of them; when
    none is, nothing is paid, no record changes, and the pool is emptied
    all the same. *)
Theorem distributePassiveIncomePool_settles (db : Db) (pool : Q) :
  0 < pool ->
  filter isActive (users db) <> [] ->
  let run := Routes.distributePassiveIncomePool db pool in
  let n := length (filter fullyActive (filter isActive (users db))) in
  Routes.poolAfter run = 0
  /\ Routes.successfulRecipients run = n
  /\ ((0 < n)%nat ->
      Routes.distributedAmount run
      = MonolineCommissionService.addTimes n 0 (pool / ofNat n))
  /\ (n = 0%nat ->
      Routes.distributedAmount run = 0 /\ Routes.storeAfter run = db).
Proof.
  intros Hpool Hactive. cbv zeta. unfold Routes.distributePassiveIncomePool.
  assert (Hb : Qle_bool pool 0 = false).
  { destruct (Qle_bool pool 0) eqn:E; [|reflexivity].
    apply Qle_bool_iff in E. lra. }
  rewrite Hb.
  destruct (filter isActive (users db)) as [|a0 act] eqn:Eact;
    [contradiction|].
  set (activeUsers := a0 :: act) in *.
  unfold MonolineCommissionService.calculatePassiveIncomeDistribution.
  cbn [MonolineCommissionService.recipients].
  change (filter (fun user =>
                    MonolineCommissionService.isFullyActive
                      (MonolineCommissionService.checkUserActivity user None))
                 activeUsers)
    with (filter fullyActive activeUsers).
  set (full := filter fullyActive activeUsers).
  destruct full as [|f0 rest] eqn:Efull.
  - cbn. split; [reflexivity|]. split; [reflexivity|].
    split; [intros H; lia|]. intros _. split; reflexivity.
  - set (share := pool / inject_Z (Z.of_nat (length (f0 :: rest)))).
    assert (Hn : 0 < ofNat (length (f0 :: rest))).
    { apply ofNat_pos. cbn [length]. lia. }
    fold (ofNat (length (f0 :: rest))) in share.
    assert (Hshare : gt0 share = true).
    { unfold gt0, share. apply negb_true_iff.
      destruct (Qle_bool (pool / ofNat (length (f0 :: rest))) 0) eqn:E;
        [|reflexivity].
      apply Qle_bool_iff in E. exfalso.
      assert (0 < pool / ofNat (length (f0 :: rest))).
      { apply Qlt_shift_div_l; [exact Hn | lra]. }
      lra. }
    change (0 <? length (f0 :: rest))%nat with true. cbv iota.
    fold (ofNat (length (f0 :: rest))). fold share.
    pose proof (payRecipients_total activeUsers share Hshare
                  (map (fun user =>
                          {| MonolineCommissionService.r_userId := id user;
                             MonolineCommissionService.r_memberId :=
                               memberId user;
                             MonolineCommissionService.r_amount := share;
                             MonolineCommissionService.r_status :=
                               MonolineCommissionService.r_pending |})
                       (f0 :: rest))
                  db 0 0%nat) as Htotal.
    destruct (fold_left _ _ _) as [[db' d'] p'].
    cbn [Routes.poolAfter Routes.successfulRecipients
         Routes.distributedAmount Routes.storeAfter].
    destruct Htotal as [Hd Hp].
    + apply Forall_forall. intros r Hr. apply in_map_iff in Hr.
      destruct Hr as (u & <- & Hu). split; [reflexivity|].
      cbn [MonolineCommissionService.r_userId].
      apply findById_of_member.
      assert (Hin : In u (filter fullyActive activeUsers))
        by (fold full; rewrite Efull; exact Hu).
      now apply filter_In in Hin.
    + rewrite length_map in Hd, Hp.
      split; [reflexivity|]. split; [exact Hp|]. split.
      * intros _. rewrite Hd. reflexivity.
      * cbn [length]. discriminate.
Qed.

Lemma distributePassiveIncomePool_settles_witness :
  Routes.poolAfter
    (Routes.distributePassiveIncomePool
       (dbOf [ idleMember "s3" None; idleMember "s6" None ]) 10) = 0
  /\ Routes.distributedAmount
       (Routes.distributePassiveIncomePool
          (dbOf [ idleMember "s3" None; idleMember "s6" None ]) 10) = 0
  /\ Routes.distributedAmount
       (Routes.distributePassiveIncomePool (dbOf sampleLine) 12) == 12.
Proof.
  destruct (distributePassiveIncomePool_settles
              (dbOf [ idleMember "s3" None; idleMember "s6" None ]) 10)
    as (Hpool & _ & _ & Hnone).
  - reflexivity.
  - discriminate.
  - destruct (distributePassiveIncomePool_settles (dbOf sampleLine) 12)
      as (_ & _ & Hall & _).
    + reflexivity.
    + discriminate.
    + split; [exact Hpool|]. split; [apply Hnone; reflexivity|].
      rewrite Hall by (vm_compute; lia). reflexivity.
Defined.
